(** * LicenseChain Polygon SDK: helpers, error taxonomy and managers

    A shallow embedding of [src/utils.ts], [src/errors.ts] and of the
    manager classes, with the properties of the retry helper, of the
    unit conversions, of the managers' error handling, and of the
    other helpers of [utils.ts] (validators, formatters, gas
    arithmetic, chunking, debouncing and throttling).

    JavaScript numbers that the code uses as counters, sizes or
    millisecond delays are integers here ([Z]); the exactness of an IEEE
    double beyond 2^53 is outside this model.  Where the code divides
    such a number or draws a random one, the number is a rational
    ([Q]) and the arithmetic on it is exact. *)

From Stdlib Require Import ZArith QArith Qround List String Ascii Bool Lia.
From Equations Require Import Equations.
Import ListNotations.

Set Implicit Arguments.
Open Scope string_scope.
Open Scope list_scope.
Open Scope Z_scope.

(** ** The asynchronous runtime

    An asynchronous function is a transformer of the state of what lies
    outside the SDK (the chain node, the clock) that either throws or
    returns.  The trace records, in order, the effects a test would
    observe: calls of an instrumented operation, timers handed to
    [setTimeout], requests handed to the chain client. *)

Class Environment : Type := {
  World : Type;
  (** what [ms] milliseconds of waiting do to the outside world *)
  elapse : Z -> World -> World;
  (** [new Date().toISOString()] *)
  now : World -> string
}.

Inductive Event : Type :=
| EvOp                      (* an instrumented operation was invoked *)
| EvTimer (ms : Z)          (* [setTimeout(_, ms)] *)
| EvClient (name : string). (* a request handed to the chain client *)

Module Runtime.
Section Runtime.
Context {env : Environment}.

Record St : Type := mkSt { world : World; trace : list Event }.

(** [M E A]: an [async] function body throwing [E] or returning [A]. *)
Definition M (E A : Type) : Type := St -> (E + A) * St.

Definition ret {E A} (a : A) : M E A := fun s => (inr a, s).

Definition throw {E A} (e : E) : M E A := fun s => (inl e, s).

Definition bind {E A B} (m : M E A) (k : A -> M E B) : M E B :=
  fun s =>
    match m s with
    | (inl e, s') => (inl e, s')
    | (inr a, s') => k a s'
    end.

(** [try { body } catch (error) { handler }] *)
Definition try_catch {E A} (body : M E A) (handler : E -> M E A) : M E A :=
  fun s =>
    match body s with
    | (inl e, s') => handler e s'
    | (inr a, s') => (inr a, s')
    end.

(** [if (cond) { body }] *)
Definition when {E} (cond : bool) (body : M E unit) : M E unit :=
  if cond then body else ret tt.

(** [setTimeout(k, ms)]: the timer is recorded, [ms] milliseconds pass. *)
Definition setTimeout (ms : Z) (s : St) : St :=
  {| world := elapse ms (world s); trace := trace s ++ [EvTimer ms] |}.

(** An operation under test: any transformer of the outside world,
    instrumented so that each of its invocations shows in the trace. *)
Definition op {E A} (f : World -> (E + A) * World) : M E A :=
  fun s =>
    let '(r, w') := f (world s) in
    (r, {| world := w'; trace := trace s ++ [EvOp] |}).

End Runtime.
End Runtime.

Declare Scope js_scope.
Delimit Scope js_scope with js.
Notation "x <- c1 ;; c2" := (Runtime.bind c1 (fun x => c2))
  (at level 100, c1 at next level, right associativity) : js_scope.
Notation "c1 ;;; c2" := (Runtime.bind c1 (fun _ => c2))
  (at level 100, right associativity) : js_scope.

(** ** JavaScript values the managers handle *)

Module JS.
(** [!s] for a string: only the empty string is falsy. *)
Definition falsy (s : string) : bool := (s =? "")%string.

(** [a || b] on strings, [a] possibly [undefined]. *)
Definition or_string (a : option string) (b : string) : string :=
  match a with
  | Some s => if falsy s then b else s
  | None => b
  end.

(** [a || b] on numbers, [a] possibly [undefined]. *)
Definition or_number (a : option Z) (b : Z) : Z :=
  match a with
  | Some z => if z =? 0 then b else z
  | None => b
  end.

Definition digit (k : Z) : ascii := ascii_of_N (Z.to_N (48 + k)).

(** Decimal digits of a non-negative integer, most significant first. *)
Equations? digits (n : Z) : list ascii by wf (Z.to_nat n) lt :=
  digits n with Z_lt_dec n 10 => {
    | left _ := [digit n];
    | right _ := digits (n / 10) ++ [digit (n mod 10)] }.
Proof.
  assert (n / 10 < n) by (apply Z.div_lt; lia).
  assert (0 <= n / 10) by (apply Z.div_pos; lia).
  lia.
Qed.

(** [z.toString()] for an integer (a number or a BigNumber). *)
Definition toString (z : Z) : string :=
  if z <? 0 then String "-" (string_of_list_ascii (digits (- z)))
  else string_of_list_ascii (digits z).

(** A number as the license manager meets it: an integer or [NaN]. *)
Inductive number : Type :=
| NaN
| Int (z : Z).

(** [a <= 0] *)
Definition le_zero (a : number) : bool :=
  match a with
  | NaN => false
  | Int z => z <=? 0
  end.

Definition number_toString (a : number) : string :=
  match a with
  | NaN => "NaN"
  | Int z => toString z
  end.
End JS.

(** ** Strings, arrays and regular expressions of the helpers

    A string is the sequence of its code units, and this development
    keeps the code units below 256; [chars] gives the sequence. *)

Module Str.
Definition chars (s : string) : list ascii := list_ascii_of_string s.

Definition of_chars (l : list ascii) : string := string_of_list_ascii l.

Definition code (c : ascii) : N := N_of_ascii c.

Definition between (lo hi : N) (c : ascii) : bool :=
  (lo <=? code c)%N && (code c <=? hi)%N.

(** [s.length] *)
Definition len (s : string) : Z := Z.of_nat (List.length (chars s)).

(** The relative index of [slice]: a negative index counts from the
    end, and every index is clamped to the string. *)
Definition relative (len i : Z) : Z :=
  if i <? 0 then Z.max (len + i) 0 else Z.min i len.

(** [l.slice(start, end)] on the sequence. *)
Definition slice_chars {T} (l : list T) (start : Z) (end_ : option Z) : list T :=
  let len := Z.of_nat (List.length l) in
  let from := relative len start in
  let to := match end_ with
            | Some e => relative len e
            | None => len
            end in
  firstn (Z.to_nat (to - from)) (skipn (Z.to_nat from) l).

(** [s.slice(start, end)], [end] possibly omitted. *)
Definition slice (s : string) (start : Z) (end_ : option Z) : string :=
  of_chars (slice_chars (chars s) start end_).

(** [s.charAt(i)]: the empty string outside of the string. *)
Definition charAt (s : string) (i : Z) : string :=
  if i <? 0 then ""
  else match nth_error (chars s) (Z.to_nat i) with
       | Some c => String c ""
       | None => ""
       end.

(** [toLowerCase] on one code unit: the letters A-Z, and the capital
    letters of Latin-1 (all of 192..222 but the multiplication sign). *)
Definition lower (c : ascii) : ascii :=
  if between 65 90 c || (between 192 222 c && negb (code c =? 215)%N)
  then ascii_of_N (code c + 32)
  else c.

Definition toLowerCase (s : string) : string := of_chars (map lower (chars s)).
End Str.

Module RegExp.
Import Str.

(** The patterns of [utils.ts] are sequences of character classes, each
    taken once, a fixed number of times, or one or more times (greedy). *)
Inductive Quantifier : Type :=
| One
| Times (n : nat)
| Plus.

Definition Class : Type := ascii -> bool.

Definition Pattern : Type := list (Class * Quantifier).

(** The character classes that occur. *)
Definition lit (c : ascii) : Class := fun x => Ascii.eqb x c.

(** A letter under the flag [i]: only the two cases of an ASCII letter
    are canonicalized to the same character. *)
Definition upper_ascii (c : ascii) : ascii :=
  if between 97 122 c then ascii_of_N (code c - 32) else c.

Definition lit_i (c : ascii) : Class :=
  fun x => Ascii.eqb (upper_ascii x) (upper_ascii c).

(** [[a-fA-F0-9]] *)
Definition hex : Class :=
  fun x => between 97 102 x || between 65 70 x || between 48 57 x.

(** [[A-Z0-9]] *)
Definition upper_or_digit : Class := fun x => between 65 90 x || between 48 57 x.

(** [\w] *)
Definition word : Class :=
  fun x => between 97 122 x || between 65 90 x || between 48 57 x || Ascii.eqb x "_".

(** [\s] below 256: tab, line feed, vertical tab, form feed, carriage
    return, space, no-break space. *)
Definition space : Class :=
  fun x => between 9 13 x || (code x =? 32)%N || (code x =? 160)%N.

(** [[^\s@]] *)
Definition not_space_at : Class := fun x => negb (space x || Ascii.eqb x "@").

(** [[<>]] *)
Definition angle : Class := fun x => Ascii.eqb x "<" || Ascii.eqb x ">".

(** The literal [text], each character taken once. *)
Definition literal (text : string) : Pattern := map (fun c => (lit c, One)) (chars text).

Definition literal_i (text : string) : Pattern :=
  map (fun c => (lit_i c, One)) (chars text).

Section Matcher.
Variable A : Type.

(** [c{n}] followed by the continuation [k]. *)
Fixpoint times (c : Class) (n : nat) (s : list ascii) (k : list ascii -> option A)
  : option A :=
  match n with
  | O => k s
  | S n' =>
      match s with
      | x :: r => if c x then times c n' r k else None
      | [] => None
      end
  end.

(** [c+] followed by [k]: the longest run is tried first, then the
    matcher backtracks to shorter ones. *)
Fixpoint many (c : Class) (k : list ascii -> option A) (s : list ascii) : option A :=
  match s with
  | x :: r =>
      if c x
      then match many c k r with
           | Some a => Some a
           | None => k r
           end
      else None
  | [] => None
  end.

(** The backtracking matcher: [p] at the start of [s], then [k] on what
    is left. *)
Fixpoint run (p : Pattern) (s : list ascii) (k : list ascii -> option A) : option A :=
  match p with
  | [] => k s
  | (c, One) :: p' =>
      match s with
      | x :: r => if c x then run p' r k else None
      | [] => None
      end
  | (c, Times n) :: p' => times c n s (fun r => run p' r k)
  | (c, Plus) :: p' => many c (fun r => run p' r k) s
  end.
End Matcher.

(** [/^p$/.test(s)] *)
Definition test (p : Pattern) (s : string) : bool :=
  match run p (chars s) (fun r => match r with [] => Some tt | _ => None end) with
  | Some _ => true
  | None => false
  end.

(** What is left of [s] after the match of [p] at its start. *)
Definition exec (p : Pattern) (s : list ascii) : option (list ascii) :=
  run p s (fun r => Some r).

(** [s.replace(/p/g, '')] on the sequence: the matches are looked for
    from left to right, each one behind the one before; [skip] counts
    the characters of the current match still to drop.  An empty match
    removes nothing. *)
Fixpoint remove (p : Pattern) (skip : nat) (s : list ascii) : list ascii :=
  match s with
  | [] => []
  | x :: r =>
      match skip with
      | S n => remove p n r
      | O =>
          match exec p s with
          | Some rest =>
              match (List.length s - List.length rest)%nat with
              | S n => remove p n r
              | O => x :: remove p O r
              end
          | None => x :: remove p O r
          end
      end
  end.

(** [s.replace(/p/g, '')] *)
Definition replace_all (p : Pattern) (s : string) : string :=
  of_chars (remove p O (chars s)).
End RegExp.

(** ** [src/errors.ts] *)

Module Errors.
Inductive ErrorClass : Type :=
| cls_PolygonError
| cls_InsufficientBalanceError
| cls_TransactionFailedError
| cls_LicenseNotFoundError
| cls_NFTNotFoundError
| cls_InvalidAmountError
| cls_NetworkError
| cls_ContractError.

(** A thrown value: a plain [Error] (what [new Error(..)] and the ethers
    library throw), a [TypeError] of the engine (a call of, or [new] on,
    what is no function), or an instance of [PolygonError] or of one of
    its subclasses, with its [message], [code] and [data]. *)
Inductive JsError : Type :=
| Error (message : string)
| TypeError (message : string)
| Polygon (cls : ErrorClass) (message code : string) (data : Payload)
with Payload : Type :=
| undefined
| fields (kv : list (string * string))
| original (error : JsError).

Definition message (e : JsError) : string :=
  match e with
  | Error m => m
  | TypeError m => m
  | Polygon _ m _ _ => m
  end.

(** [error.code]; a plain [Error] has none. *)
Definition code (e : JsError) : option string :=
  match e with
  | Error _ => None
  | TypeError _ => None
  | Polygon _ _ c _ => Some c
  end.

Definition data (e : JsError) : Payload :=
  match e with
  | Error _ => undefined
  | TypeError _ => undefined
  | Polygon _ _ _ d => d
  end.

(** [error instanceof PolygonError]: true of every subclass. *)
Definition instanceof_PolygonError (e : JsError) : bool :=
  match e with
  | Error _ => false
  | TypeError _ => false
  | Polygon _ _ _ _ => true
  end.

Definition instanceof_InvalidAmountError (e : JsError) : bool :=
  match e with
  | Polygon cls_InvalidAmountError _ _ _ => true
  | _ => false
  end.

(** [new PolygonError(message, code)] and [new PolygonError(message, code, data)] *)
Definition PolygonError (message code : string) : JsError :=
  Polygon cls_PolygonError message code undefined.

Definition PolygonError_with (message code : string) (data : Payload) : JsError :=
  Polygon cls_PolygonError message code data.

Definition InsufficientBalanceError (required available : string) : JsError :=
  Polygon cls_InsufficientBalanceError
    ("Insufficient balance. Required: " ++ required ++ ", Available: " ++ available)
    "INSUFFICIENT_BALANCE"
    (fields [("required", required); ("available", available)]).

Definition TransactionFailedError (hash reason : string) : JsError :=
  Polygon cls_TransactionFailedError
    ("Transaction failed: " ++ reason)
    "TRANSACTION_FAILED"
    (fields [("hash", hash); ("reason", reason)]).

Definition LicenseNotFoundError (licenseId : string) : JsError :=
  Polygon cls_LicenseNotFoundError
    ("License not found: " ++ licenseId)
    "LICENSE_NOT_FOUND"
    (fields [("licenseId", licenseId)]).

Definition NFTNotFoundError (tokenId : string) : JsError :=
  Polygon cls_NFTNotFoundError
    ("NFT not found: " ++ tokenId)
    "NFT_NOT_FOUND"
    (fields [("tokenId", tokenId)]).

Definition InvalidAmountError (amount : string) : JsError :=
  Polygon cls_InvalidAmountError
    ("Invalid amount: " ++ amount)
    "INVALID_AMOUNT"
    (fields [("amount", amount)]).

Definition NetworkError (message : string) : JsError :=
  Polygon cls_NetworkError
    ("Network error: " ++ message)
    "NETWORK_ERROR"
    (fields [("message", message)]).

Definition ContractError (method reason : string) : JsError :=
  Polygon cls_ContractError
    ("Contract error in " ++ method ++ ": " ++ reason)
    "CONTRACT_ERROR"
    (fields [("method", method); ("reason", reason)]).

(** [new C(..)] where the name [C] is bound to [undefined]: the engine
    throws a [TypeError] and makes no object. *)
Definition not_a_constructor (name : string) : JsError :=
  TypeError (name ++ " is not a constructor").

(** [new PolygonNetworkError(message, error)].  The token, contract and
    wallet managers import the name [PolygonNetworkError] from
    './errors', and [errors.ts] declares no class of that name (its
    network kind is [NetworkError], which they do not import): in the
    compiled module the name is bound to [undefined], so the expression
    throws before anything is made of [message] and [error]. *)
Definition new_PolygonNetworkError (message : string) (error : JsError)
  : JsError + JsError :=
  inl (not_a_constructor "PolygonNetworkError").

(** The closed set of codes of section 7 of the specification. *)
Definition taxonomy : list string :=
  ["INVALID_ADDRESS"; "INVALID_AMOUNT"; "INSUFFICIENT_BALANCE"; "SIGNER_REQUIRED";
   "TRANSACTION_FAILED"; "NOT_FOUND"; "NETWORK_ERROR"; "CONTRACT_ERROR";
   "NOT_IMPLEMENTED"].
End Errors.

(** ** [src/types.ts] *)

Module Types.
Record PolygonConfig : Type := {
  rpcUrl : string;
  privateKey : option string;
  networkId : Z;
  gasPrice : option string;
  gasLimit : option Z
}.

Inductive Status : Type := pending | success | failed.

Record PolygonTransaction : Type := {
  hash : string;
  from : string;
  to : string;
  value : string;
  gasUsed : string;
  tx_gasPrice : string;
  status : Status;
  blockNumber : option Z;
  timestamp : Z
}.

(** [Record<string, any>], the values kept as text. *)
Definition Metadata : Type := list (string * string).

Inductive LicenseStatus : Type := active | expired | revoked.

Record PolygonLicense : Type := {
  id : string;
  license_owner : string;
  productId : string;
  licenseType : string;
  license_status : LicenseStatus;
  createdAt : Z;
  expiresAt : option Z;
  license_metadata : Metadata
}.

Record PolygonNFT : Type := {
  tokenId : string;
  contractAddress : string;
  nft_owner : string;
  nft_metadata : Metadata;
  royalty_recipient : string;
  royalty_percentage : Z
}.

Record PolygonDeFiPool : Type := {
  address : string;
  token0 : string;
  token1 : string;
  reserve0 : string;
  reserve1 : string;
  totalSupply : string;
  fee : Z
}.
End Types.

(** ** The ethers library, as far as the SDK relies on it *)

Module Ethers.
Import Errors.

(** *** Fixed-point conversions

    [parseUnits] and [formatUnits] of utils.ts forward to
    [ethers.utils.parseUnits] and [ethers.utils.formatUnits], which are
    not under src/.  Section 4.3 of the specification: [parseUnits] turns
    a decimal string into base units by scaling by [10^decimals], exactly,
    and fails on a malformed decimal; [formatUnits] is its inverse and
    gives the minimal decimal form, which section 8 shows to keep one
    fractional digit ("1.0" for 10^18 at 18 decimals).  Integers are
    decimal strings with an optional sign. *)

Definition is_digit (c : ascii) : bool :=
  let n := N_of_ascii c in ((48 <=? n) && (n <=? 57))%N.

Definition digit_value (c : ascii) : Z := Z.of_N (N_of_ascii c) - 48.

Definition value_of (l : list ascii) : Z :=
  fold_left (fun acc c => 10 * acc + digit_value c) l 0.

Definition is_zero_char (c : ascii) : bool := Ascii.eqb c "0".

Definition is_dot (c : ascii) : bool := Ascii.eqb c ".".

Definition is_minus (c : ascii) : bool := Ascii.eqb c "-".

(** [s.substring(0, 1) === "-"] *)
Definition starts_with_minus (l : list ascii) : bool :=
  match l with
  | c :: _ => is_minus c
  | [] => false
  end.

(** Modelled from the spec: [BigNumber.from(s)] of the library, not under
    src/, for a string of base units (section 3: an integer in decimal
    digits): an optional sign, then digits. *)
Definition BigNumber_from (s : string) : JsError + Z :=
  let chars := list_ascii_of_string s in
  let negative := starts_with_minus chars in
  let chars := if negative then tl chars else chars in
  match chars with
  | [] => inl (Error "invalid BigNumber string")
  | _ => if forallb is_digit chars
         then inr (if negative then - value_of chars else value_of chars)
         else inl (Error "invalid BigNumber string")
  end.

(** Modelled from the spec: [getMultiplier(decimals)] of the library, not
    under src/.  The multiplier is [10^decimals] (section 4.3); the result
    is its number of zeros, for [decimals] an integer between 0 and 256. *)
Definition getMultiplier (decimals : Z) : JsError + nat :=
  if (0 <=? decimals) && (decimals <=? 256) then inr (Z.to_nat decimals)
  else inl (Error "invalid decimal size").

(** [while (s.length < d) { s = "0" + s }] *)
Definition pad_start (d : nat) (l : list ascii) : list ascii :=
  repeat "0"%char (d - List.length l) ++ l.

(** [while (s.length < d) { s += "0" }] *)
Definition pad_end (d : nat) (l : list ascii) : list ascii :=
  l ++ repeat "0"%char (d - List.length l).

(** [while (s[s.length - 1] === "0") { s = s.substring(0, s.length - 1) }] *)
Fixpoint drop_zeros (rl : list ascii) : list ascii :=
  match rl with
  | c :: rl' => if is_zero_char c then drop_zeros rl' else rl
  | [] => []
  end.

Definition trim_end (l : list ascii) : list ascii := rev (drop_zeros (rev l)).

(** First group of the match of a string of digits against "digits up
    to the last non-zero one, or else a single 0, then zeros": the
    trailing zeros go, one digit stays. *)
Definition strip_fraction (l : list ascii) : list ascii :=
  match trim_end l with
  | [] => ["0"%char]
  | t => t
  end.

(** Modelled from the spec: [formatFixed] of the library, not under src/,
    which [formatUnits] calls.  Section 4.3: the inverse of [parseUnits],
    exact, in the minimal decimal form; section 8: "1.0" for 10^18 at 18
    decimals.  Whole part and fraction are the quotient and the remainder
    by the multiplier; the fraction is padded to [decimals] digits and
    loses its trailing zeros but for one digit; with no decimals only the
    whole part is printed. *)
Definition formatFixed (value : Z) (decimals : Z) : JsError + string :=
  match getMultiplier decimals with
  | inl e => inl e
  | inr d =>
      let multiplier := 10 ^ Z.of_nat d in
      let negative := value <? 0 in
      let value := if negative then value * -1 else value in
      let fraction := pad_start d (JS.digits (value mod multiplier)) in
      let fraction := strip_fraction fraction in
      let whole := JS.digits (value / multiplier) in
      let result := if (d =? 0)%nat then whole else whole ++ "."%char :: fraction in
      inr (string_of_list_ascii (if negative then "-"%char :: result else result))
  end.

(** Modelled from the spec: [ethers.utils.formatUnits], not under src/
    (section 4.3). *)
Definition formatUnits (value : string) (decimals : Z) : JsError + string :=
  match BigNumber_from value with
  | inl e => inl e
  | inr v => formatFixed v decimals
  end.

(** [s.split(".")] *)
Fixpoint split_dot (l : list ascii) : list (list ascii) :=
  match l with
  | [] => [[]]
  | c :: l' =>
      if is_dot c then [] :: split_dot l'
      else match split_dot l' with
           | comp :: comps => (c :: comp) :: comps
           | [] => [[c]]
           end
  end.

(** Modelled from the spec: [parseFixed] of the library, not under src/,
    which [parseUnits] calls.  Section 4.3: a decimal string is scaled by
    [10^decimals], exactly, and a malformed decimal fails: anything but
    digits and dots after the sign, a lone dot, more than one dot, more
    significant fractional digits than [decimals]. *)
Definition parseFixed (value : string) (decimals : Z) : JsError + Z :=
  match getMultiplier decimals with
  | inl e => inl e
  | inr d =>
      let multiplier := 10 ^ Z.of_nat d in
      let chars := list_ascii_of_string value in
      let negative := starts_with_minus chars in
      let chars := if negative then tl chars else chars in
      (* an optional sign, then digits and dots, at least one *)
      if negb (match chars with
               | [] => false
               | _ => forallb (fun c => is_digit c || is_dot c) chars
               end)
      then inl (Error "invalid decimal value")
      else if forallb is_dot chars && (List.length chars =? 1)%nat
      then inl (Error "missing value")
      else
        let comps := split_dot chars in
        if (2 <? List.length comps)%nat
        then inl (Error "too many decimal points")
        else
          let whole := nth 0 comps [] in
          let fraction := nth 1 comps [] in
          let whole := match whole with [] => ["0"%char] | _ => whole end in
          let fraction := match fraction with [] => ["0"%char] | _ => fraction end in
          let fraction := trim_end fraction in
          if (d <? List.length fraction)%nat
          then inl (Error "fractional component exceeds decimals")
          else
            let fraction := match fraction with [] => ["0"%char] | _ => fraction end in
            let fraction := pad_end d fraction in
            let wei := value_of whole * multiplier + value_of fraction in
            inr (if negative then wei * -1 else wei)
  end.

(** Modelled from the spec: [ethers.utils.parseUnits], not under src/
    (section 4.3). *)
Definition parseUnits (value : string) (decimals : Z) : JsError + Z :=
  parseFixed value decimals.

(** Modelled from the spec: [ethers.utils.parseEther], not under src/:
    [parseUnits] at the 18 decimals of the native token; the unit name
    'gwei' stands for 9 decimals. *)
Definition parseEther (ether : string) : JsError + Z := parseUnits ether 18.

Definition gwei : Z := 9.

End Ethers.

(** *** The chain client

    Provider, wallet and contract objects of the library are the boundary
    of the SDK: what a request does to the outside world, and what it
    answers, is a parameter. *)

Module Client.
Import Runtime Errors.

Definition Abi : Type := list string.
Definition Log : Type := string.

(** A value of type [any] that the SDK hands on untouched, as text. *)
Definition any : Type := string.

(** [ethers.Wallet]; the mnemonic is [null] unless the wallet was made
    from one. *)
Record Wallet : Type := {
  wallet_address : string;
  wallet_privateKey : string;
  wallet_publicKey : string;
  wallet_mnemonic : option string
}.

Record TransactionResponse : Type := {
  hash : string;
  from : string;
  to : option string;
  value : Z;
  gasLimit : Z;
  gasPrice : option Z
}.

Record TransactionReceipt : Type := {
  transactionHash : string;
  receipt_from : string;
  receipt_to : option string;
  gasUsed : Z;
  blockNumber : Z;
  blockHash : string;
  transactionIndex : Z;
  status : option Z;
  logs : list Log;
  effectiveGasPrice : option Z
}.

(** [new ethers.Contract(address, abi, signerOrProvider)]; no signer
    means the contract is connected to the provider only. *)
Record Contract : Type := {
  contract_address : string;
  contract_abi : Abi;
  contract_signer : option Wallet
}.

Record ContractFactory : Type := {
  factory_abi : Abi;
  factory_bytecode : string;
  factory_signer : Wallet
}.

(** A transaction that has not been sent: what
    [factory.getDeployTransaction(..)] makes. *)
Record TransactionRequest : Type := { request_data : string }.

Record DeployedContract : Type := {
  deployed_address : string;
  deployTransaction : TransactionResponse
}.

(** The [options] of [sendContractTransaction], also the overrides of a
    contract call. *)
Record Overrides : Type := {
  ov_value : option string;
  ov_gasLimit : option Z;
  ov_gasPrice : option string
}.

(** An event as [contract.queryFilter] returns it. *)
Record EventLog : Type := {
  event_address : string;
  event_blockNumber : Z;
  event_blockHash : string;
  event_transactionHash : string;
  event_transactionIndex : Z;
  event_logIndex : Z;
  event_removed : bool;
  event_args : list string;
  event_topics : list string;
  event_data : string
}.

(** A [Transfer(from, to, value)] event of a token. *)
Record TransferLog : Type := {
  args_from : string;
  args_to : string;
  args_value : Z;
  transfer_transactionHash : string;
  transfer_blockNumber : Z;
  transfer_logIndex : Z
}.

Record FeeData : Type := {
  fee_gasPrice : option Z;
  fee_maxFeePerGas : option Z;
  fee_maxPriorityFeePerGas : option Z
}.

(** The asynchronous requests the managers make, indexed by the type of
    the answer. *)
Inductive Request : Type -> Type :=
| getTransaction (txHash : string) : Request (option TransactionResponse)
| getTransactionReceipt (txHash : string) : Request (option TransactionReceipt)
| waitForTransaction (txHash : string) (confirmations : Z) : Request TransactionReceipt
| getCode (address : string) : Request string
| getBalance (address : string) : Request Z
| getStorageAt (address position : string) : Request string
| getTransactionCount (address : string) : Request Z
| estimateGas (to : string) (data : option string) (value : option Z) : Request Z
| getBlockNumber : Request Z
| getBlock (blockNumber : Z) : Request any
| getNetwork : Request any
| getGasPrice : Request Z
| getFeeData : Request FeeData
| estimateDeployGas (tx : TransactionRequest) : Request Z
| deploy (factory : ContractFactory) (args : list string) (gasLimit : Z)
  : Request DeployedContract
| deployed (contract : DeployedContract) : Request unit
| callMethod (contract : Contract) (methodName : string) (args : list string)
  : Request any
| estimateMethodGas (contract : Contract) (methodName : string)
                    (args : list string) (options : Overrides) : Request Z
| sendMethod (contract : Contract) (methodName : string)
             (args : list string) (options : Overrides) : Request TransactionResponse
| queryFilter (contract : Contract) (eventName : string)
              (fromBlock toBlock : option Z) : Request (list EventLog)
| queryTransfers (contract : Contract) (from to : option string)
                 (fromBlock toBlock : option Z) : Request (list TransferLog)
| erc20_name (contract : Contract) : Request string
| erc20_symbol (contract : Contract) : Request string
| erc20_decimals (contract : Contract) : Request Z
| erc20_totalSupply (contract : Contract) : Request Z
| erc20_balanceOf (contract : Contract) (owner : string) : Request Z
| erc20_allowance (contract : Contract) (owner spender : string) : Request Z
| erc20_transfer (contract : Contract) (to amount : string) (gasLimit : option Z)
  : Request TransactionResponse
| erc20_approve (contract : Contract) (spender amount : string) (gasLimit : option Z)
  : Request TransactionResponse
| erc20_transferFrom (contract : Contract) (from to amount : string)
                     (gasLimit : option Z) : Request TransactionResponse
| wait (tx : TransactionResponse) : Request TransactionReceipt
| sendTransaction (wallet : Wallet) (to : string) (value : Z)
                  (gasLimit : option Z) (gasPrice : option Z)
  : Request TransactionResponse
| signMessage (wallet : Wallet) (message : string) : Request string
| signTransaction (wallet : Wallet) (transaction : any) : Request string
| createRandom : Request Wallet.

Definition request_name {A} (r : Request A) : string :=
  match r with
  | getTransaction _ => "provider.getTransaction"
  | getTransactionReceipt _ => "provider.getTransactionReceipt"
  | waitForTransaction _ _ => "provider.waitForTransaction"
  | getCode _ => "provider.getCode"
  | getBalance _ => "provider.getBalance"
  | getStorageAt _ _ => "provider.getStorageAt"
  | getTransactionCount _ => "provider.getTransactionCount"
  | estimateGas _ _ _ => "provider.estimateGas"
  | getBlockNumber => "provider.getBlockNumber"
  | getBlock _ => "provider.getBlock"
  | getNetwork => "provider.getNetwork"
  | getGasPrice => "provider.getGasPrice"
  | getFeeData => "provider.getFeeData"
  | estimateDeployGas _ => "provider.estimateGas"
  | deploy _ _ _ => "factory.deploy"
  | deployed _ => "contract.deployed"
  | callMethod _ _ _ => "contract.method"
  | estimateMethodGas _ _ _ _ => "contract.estimateGas"
  | sendMethod _ _ _ _ => "contract.method"
  | queryFilter _ _ _ _ => "contract.queryFilter"
  | queryTransfers _ _ _ _ _ => "contract.queryFilter"
  | erc20_name _ => "contract.name"
  | erc20_symbol _ => "contract.symbol"
  | erc20_decimals _ => "contract.decimals"
  | erc20_totalSupply _ => "contract.totalSupply"
  | erc20_balanceOf _ _ => "contract.balanceOf"
  | erc20_allowance _ _ _ => "contract.allowance"
  | erc20_transfer _ _ _ _ => "contract.transfer"
  | erc20_approve _ _ _ _ => "contract.approve"
  | erc20_transferFrom _ _ _ _ _ => "contract.transferFrom"
  | wait _ => "tx.wait"
  | sendTransaction _ _ _ _ _ => "wallet.sendTransaction"
  | signMessage _ _ => "wallet.signMessage"
  | signTransaction _ _ => "wallet.signTransaction"
  | createRandom => "Wallet.createRandom"
  end.

Class Chain {env : Environment} : Type := {
  (** the answer to a request, or the message of the exception the
      library throws, and what the request leaves of the outside world *)
  request : forall A, Request A -> World -> (string + A) * World;
  (** [ethers.utils.isAddress] *)
  isAddress : string -> bool;
  (** the wallet [new ethers.Wallet(privateKey)] makes, when it accepts
      the key *)
  walletOfKey : string -> option Wallet;
  (** [ethers.Wallet.fromMnemonic(mnemonic, path)] *)
  fromMnemonic : string -> string -> option Wallet;
  (** [ethers.utils.verifyMessage(message, signature)] *)
  recoverSigner : string -> string -> option string;
  (** whether the constructors accept the ABI and the bytecode, and
      whether the ABI has the event *)
  isAbi : Abi -> bool;
  isBytecode : string -> bool;
  hasEvent : Abi -> string -> bool;
  (** the data of a deployment, the bytecode and the encoded arguments,
      when the arguments fit the constructor of the ABI *)
  deployData : ContractFactory -> list string -> option string
}.

Section Calls.
Context {env : Environment} {chain : Chain}.

(** [await] of a request: it shows in the trace; an exception of the
    library is a plain [Error]. *)
Definition call {A} (r : Request A) : M JsError A :=
  fun s =>
    let '(answer, w') := request r (world s) in
    (match answer with
     | inl msg => inl (Error msg)
     | inr a => inr a
     end,
     {| world := w'; trace := trace s ++ [EvClient (request_name r)] |}).

(** A synchronous computation that may throw. *)
Definition lift {A} (r : JsError + A) : M JsError A := fun s => (r, s).

(** [throw new C(..)]: what is thrown is the object that the constructor
    makes, unless the [new] expression itself throws. *)
Definition throw_new {A} (made : JsError + JsError) : M JsError A :=
  bind (lift made) throw.

(** A synchronous function of the library that throws when it has no
    result. *)
Definition or_throw {A} (r : option A) (msg : string) : M JsError A :=
  match r with
  | Some a => ret a
  | None => throw (Error msg)
  end.

Definition new_Wallet (privateKey : string) : M JsError Wallet :=
  or_throw (walletOfKey privateKey) "invalid private key".

Definition new_Contract (address : string) (abi : Abi) (signer : option Wallet)
  : M JsError Contract :=
  if isAbi abi
  then ret {| contract_address := address; contract_abi := abi;
              contract_signer := signer |}
  else throw (Error "invalid fragment").

Definition new_ContractFactory (abi : Abi) (bytecode : string) (signer : Wallet)
  : M JsError ContractFactory :=
  if isAbi abi && isBytecode bytecode
  then ret {| factory_abi := abi; factory_bytecode := bytecode;
              factory_signer := signer |}
  else throw (Error "invalid bytecode").

(** [factory.getDeployTransaction(...args)].  The managers are written
    for version 5 of the library ([ethers.providers], [ethers.utils],
    [BigNumber.mul] and [div]), where this method is synchronous: it
    returns the transaction request itself, no promise of it, and throws
    when the arguments do not fit the constructor. *)
Definition getDeployTransaction (factory : ContractFactory) (args : list string)
  : M JsError TransactionRequest :=
  match deployData factory args with
  | Some data => ret {| request_data := data |}
  | None => throw (Error "incorrect number of arguments to constructor")
  end.

(** [value.then(f)] on a value that is a plain object, as a transaction
    request is: it has no method [then], so the call throws a
    [TypeError] and [f] is not run. *)
Definition then_on_object {A B} (value : A) (f : A -> M JsError B) : M JsError B :=
  throw (TypeError "factory.getDeployTransaction(...).then is not a function").

(** [contract.filters[eventName]()]: a [TypeError] when the ABI has no
    such event. *)
Definition new_Filter (contract : Contract) (eventName : string) : M JsError string :=
  if hasEvent (contract_abi contract) eventName then ret eventName
  else throw (TypeError "contract.filters[eventName] is not a function").

(** The outcome of a promise, without throwing. *)
Definition settled {A} (m : M JsError A) : M JsError (JsError + A) :=
  fun s => let '(r, s') := m s in (inr r, s').

(** [Promise.all([a, b, c])] and [Promise.all([a, b, c, d])]: the
    requests are all started; the order in which concurrent requests
    settle is not modelled, a rejection is reported in the order of the
    array. *)
Definition Promise_all3 {A B C} (a : M JsError A) (b : M JsError B)
           (c : M JsError C) : M JsError (A * B * C) :=
  bind (settled a) (fun ra =>
  bind (settled b) (fun rb =>
  bind (settled c) (fun rc =>
    match ra, rb, rc with
    | inr x, inr y, inr z => ret (x, y, z)
    | inl e, _, _ => throw e
    | _, inl e, _ => throw e
    | _, _, inl e => throw e
    end))).

Definition Promise_all4 {A B C D} (a : M JsError A) (b : M JsError B)
           (c : M JsError C) (d : M JsError D) : M JsError (A * B * C * D) :=
  bind (settled a) (fun ra =>
  bind (settled b) (fun rb =>
  bind (settled c) (fun rc =>
  bind (settled d) (fun rd =>
    match ra, rb, rc, rd with
    | inr x, inr y, inr z, inr u => ret (x, y, z, u)
    | inl e, _, _, _ => throw e
    | _, inl e, _, _ => throw e
    | _, _, inl e, _ => throw e
    | _, _, _, inl e => throw e
    end)))).
End Calls.
End Client.

(** ** Timers

    The timers of the event loop, as [debounce] and [throttle] use
    them: [setTimeout] gives a fresh handle and queues the callback,
    which may run once the delay has passed; [clearTimeout] takes a
    timer out of the queue, and does nothing for a handle that is
    [undefined] or whose timer has run. *)

Module EventLoop.
Section EventLoop.
(** What a timer runs. *)
Variable Callback : Type.

Record Timer : Type := { handle : nat; due : Z; callback : Callback }.

Record Loop : Type := { time : Z; pending : list Timer; next_handle : nat }.

Definition idle (t0 : Z) : Loop := {| time := t0; pending := []; next_handle := O |}.

Definition setTimeout (cb : Callback) (ms : Z) (l : Loop) : nat * Loop :=
  (next_handle l,
   {| time := time l;
      pending := pending l ++ [{| handle := next_handle l; due := time l + ms;
                                  callback := cb |}];
      next_handle := S (next_handle l) |}).

Definition without (h : nat) (l : Loop) : Loop :=
  {| time := time l;
     pending := filter (fun t => negb (handle t =? h)%nat) (pending l);
     next_handle := next_handle l |}.

Definition clearTimeout (h : option nat) (l : Loop) : Loop :=
  match h with
  | Some h => without h l
  | None => l
  end.

(** Time passes. *)
Definition advance (t : Z) (l : Loop) : Loop :=
  {| time := t; pending := pending l; next_handle := next_handle l |}.
End EventLoop.
End EventLoop.

(** ** [src/utils.ts] *)

Module Utils.
Import Runtime Errors.

Section Validation.
Context {env : Environment} {chain : Client.Chain}.

(** [try { return ethers.utils.isAddress(address) } catch { return false }];
    the library function does not throw. *)
Definition validateAddress (address : string) : bool := Client.isAddress address.

(** [try { new ethers.Wallet(privateKey); return true } catch { return false }] *)
Definition validatePrivateKey (privateKey : string) : bool :=
  match Client.walletOfKey privateKey with
  | Some _ => true
  | None => false
  end.
End Validation.

(** [ethers.utils.parseUnits(value, decimals).toString()] *)
Definition parseUnits (value : string) (decimals : Z) : JsError + string :=
  match Ethers.parseUnits value decimals with
  | inl e => inl e
  | inr wei => inr (JS.toString wei)
  end.

Definition formatUnits (value : string) (decimals : Z) : JsError + string :=
  Ethers.formatUnits value decimals.

Section Retry.
Context {env : Environment}.
Variables E T : Type.

(** The closure [attempt] of [retry]; [tries] is the counter
    [attempts] that the closure captures.  [resolve]/[reject] settle the
    promise [retry] returned, so the value of [attempt] is the way that
    promise settles. *)
Equations? attempt (fn : M E T) (maxRetries delay : Z) (tries : Z) (s : St)
  : (E + T) * St by wf (Z.to_nat (maxRetries - tries)) lt :=
  attempt fn maxRetries delay tries s with fn s => {
    | (inr result, s') := (inr result, s');
    | (inl error, s') with Z_ge_dec (tries + 1) maxRetries => {
        | left _ := (inl error, s');
        | right _ :=
            attempt fn maxRetries delay (tries + 1)
                    (setTimeout (delay * 2 ^ (tries + 1 - 1)) s') } }.
Proof. lia. Qed.

Definition retry (fn : M E T) (maxRetries delay : Z) : M E T :=
  fun s => attempt fn maxRetries delay 0 s.

End Retry.

(** *** Validators and formatters of strings *)

(** [/^0x[a-fA-F0-9]{64}$/.test(txHash)] *)
Definition validateTxHash (txHash : string) : bool :=
  RegExp.test [(RegExp.lit "0", RegExp.One); (RegExp.lit "x", RegExp.One);
               (RegExp.hex, RegExp.Times 64)]
              txHash.

Definition formatTxHash (txHash : string) : string := Str.toLowerCase txHash.

(** [/^[^\s@]+@[^\s@]+\.[^\s@]+$/.test(email)] *)
Definition validateEmail (email : string) : bool :=
  RegExp.test [(RegExp.not_space_at, RegExp.Plus); (RegExp.lit "@", RegExp.One);
               (RegExp.not_space_at, RegExp.Plus); (RegExp.lit ".", RegExp.One);
               (RegExp.not_space_at, RegExp.Plus)]
              email.

(** [licenseKey.length === 32 && /^[A-Z0-9]+$/.test(licenseKey)] *)
Definition validateLicenseKey (licenseKey : string) : bool :=
  (Str.len licenseKey =? 32)
  && RegExp.test [(RegExp.upper_or_digit, RegExp.Plus)] licenseKey.

(** [input.replace(/[<>]/g, '').replace(/javascript:/gi, '').replace(/on\w+=/gi, '')] *)
Definition sanitizeInput (input : string) : string :=
  RegExp.replace_all
    (RegExp.literal_i "on" ++ [(RegExp.word, RegExp.Plus); (RegExp.lit_i "=", RegExp.One)])
    (RegExp.replace_all (RegExp.literal_i "javascript:")
       (RegExp.replace_all [(RegExp.angle, RegExp.One)] input)).

(** The parameters [startLength] and [endLength] are given by the
    caller (their defaults are 6 and 4). *)
Definition truncateAddress (address : string) (startLength endLength : Z) : string :=
  if Str.len address <=? startLength + endLength then address
  else Str.slice address 0 (Some startLength) ++ "..."
       ++ Str.slice address (- endLength) None.

(** The defaults of [startLength] and [endLength] are 10 and 6. *)
Definition truncateHash (hash : string) (startLength endLength : Z) : string :=
  if Str.len hash <=? startLength + endLength then hash
  else Str.slice hash 0 (Some startLength) ++ "..."
       ++ Str.slice hash (- endLength) None.

(** [seconds] is an integer; [Math.floor(a / b)] is then [a / b] and
    [a % b] is [Z.rem a b]. *)
Definition formatDuration (seconds : Z) : string :=
  if seconds <? 60 then JS.toString seconds ++ "s"
  else if seconds <? 3600 then
    let minutes := seconds / 60 in
    let remainingSeconds := Z.rem seconds 60 in
    JS.toString minutes ++ "m " ++ JS.toString remainingSeconds ++ "s"
  else if seconds <? 86400 then
    let hours := seconds / 3600 in
    let minutes := Z.rem seconds 3600 / 60 in
    JS.toString hours ++ "h " ++ JS.toString minutes ++ "m"
  else
    let days := seconds / 86400 in
    let hours := Z.rem seconds 86400 / 3600 in
    JS.toString days ++ "d " ++ JS.toString hours ++ "h".

(** *** [formatBytes]

    [bytes] is an integer; [size] is then a rational, and dividing it by
    1024 is exact. *)

Definition units : list string := ["B"; "KB"; "MB"; "GB"; "TB"; "PB"].

(** [x.toFixed(1)] below 10^21: the tenths [n] with [n / 10] closest
    to [x], the larger one of two, written with one decimal; the sign
    of a negative [x] goes in front. *)
Definition tenths (x : Q) : Z := Qfloor (x * 10 + (1 # 2))%Q.

Definition toFixed1 (x : Q) : string :=
  let print (n : Z) : string :=
    (JS.toString (n / 10) ++ "." ++ JS.toString (n mod 10))%string in
  if Qlt_le_dec x 0 then ("-" ++ print (tenths (- x)%Q))%string else print (tenths x).

(** The loop [while (size >= 1024 && unitIndex < units.length - 1)]. *)
Equations? scale (size : Q) (unitIndex : nat) : Q * nat
  by wf (List.length units - 1 - unitIndex)%nat lt :=
  scale size unitIndex
    with Qlt_le_dec size 1024, lt_dec unitIndex (List.length units - 1) => {
    | right _, left _ := scale (size / 1024)%Q (S unitIndex);
    | _, _ := (size, unitIndex) }.
Proof. do 5 (destruct unitIndex as [|unitIndex]; [lia|]). lia. Qed.

Definition formatBytes (bytes : Z) : string :=
  let '(size, unitIndex) := scale (inject_Z bytes) 0 in
  toFixed1 size ++ " " ++ nth unitIndex units "undefined".

(** *** Gas arithmetic on [BigInt] *)

Fixpoint drop_space (l : list ascii) : list ascii :=
  match l with
  | c :: r => if RegExp.space c then drop_space r else l
  | [] => []
  end.

(** The text of a string without the white space around it. *)
Definition trim (l : list ascii) : list ascii := rev (drop_space (rev (drop_space l))).

(** The value of a digit in a radix up to 16. *)
Definition digit_in (radix : Z) (c : ascii) : option Z :=
  let v := if Str.between 48 57 c then Z.of_N (Str.code c) - 48
           else if Str.between 97 102 c then Z.of_N (Str.code c) - 87
           else if Str.between 65 70 c then Z.of_N (Str.code c) - 55
           else radix in
  if v <? radix then Some v else None.

Fixpoint digits_in (radix : Z) (acc : Z) (l : list ascii) : option Z :=
  match l with
  | [] => Some acc
  | c :: r =>
      match digit_in radix c with
      | Some d => digits_in radix (acc * radix + d) r
      | None => None
      end
  end.

(** One digit at least. *)
Definition numeral (radix : Z) (l : list ascii) : option Z :=
  match l with
  | [] => None
  | _ => digits_in radix 0 l
  end.

(** The literals [BigInt(s)] accepts, white space trimmed: nothing
    ([0n]), a decimal numeral with an optional sign, or an unsigned
    numeral with the prefix [0x], [0o] or [0b] in either case. *)
Definition integer_literal (l : list ascii) : option Z :=
  match l with
  | [] => Some 0
  | c :: r =>
      if Ascii.eqb c "-" then option_map Z.opp (numeral 10 r)
      else if Ascii.eqb c "+" then numeral 10 r
      else if Ascii.eqb c "0" then
        match r with
        | p :: ds =>
            if Ascii.eqb (Str.lower p) "x" then numeral 16 ds
            else if Ascii.eqb (Str.lower p) "o" then numeral 8 ds
            else if Ascii.eqb (Str.lower p) "b" then numeral 2 ds
            else numeral 10 l
        | [] => Some 0
        end
      else numeral 10 l
  end.

(** [BigInt(s)], which throws a [SyntaxError] on another string. *)
Definition BigInt (s : string) : JsError + Z :=
  match integer_literal (trim (Str.chars s)) with
  | Some z => inr z
  | None => inl (Error ("Cannot convert " ++ s ++ " to a BigInt"))
  end.

Definition calculateGasPrice (gasPrice gasLimit : string) : JsError + string :=
  match BigInt gasPrice with
  | inl e => inl e
  | inr price =>
      match BigInt gasLimit with
      | inl e => inl e
      | inr limit => inr (JS.toString (price * limit))
      end
  end.

Definition calculateGasCost (gasUsed gasPrice : string) : JsError + string :=
  match BigInt gasUsed with
  | inl e => inl e
  | inr used =>
      match BigInt gasPrice with
      | inl e => inl e
      | inr price => inr (JS.toString (used * price))
      end
  end.

(** *** Explorer links

    [explorers[key]] on the object literal: one of its four own
    properties, or what every object inherits.  Of the inherited
    properties only [constructor] and [__proto__] have a name that
    [toLowerCase] can produce; both are truthy, and a template prints
    the first as the text of the built-in function [Object]. *)

Inductive Property : Type :=
| own (url : string)
| object_constructor
| object_prototype
| undefined_property.

Section Explorers.
(** The text of [String(Object)], which the engine chooses. *)
Variable Object_text : string.

Definition truthy (p : Property) : bool :=
  match p with
  | own url => negb (JS.falsy url)
  | undefined_property => false
  | _ => true
  end.

(** What a template literal prints for the value. *)
Definition print (p : Property) : string :=
  match p with
  | own url => url
  | object_constructor => Object_text
  | object_prototype => "[object Object]"
  | undefined_property => "undefined"
  end.

(** [a || b] *)
Definition or_else (a b : Property) : Property := if truthy a then a else b.

Definition tx_explorers (key : string) : Property :=
  if (key =? "polygon")%string then own "https://polygonscan.com/tx/"
  else if (key =? "mumbai")%string then own "https://mumbai.polygonscan.com/tx/"
  else if (key =? "mainnet")%string then own "https://polygonscan.com/tx/"
  else if (key =? "testnet")%string then own "https://mumbai.polygonscan.com/tx/"
  else if (key =? "constructor")%string then object_constructor
  else if (key =? "__proto__")%string then object_prototype
  else undefined_property.

Definition address_explorers (key : string) : Property :=
  if (key =? "polygon")%string then own "https://polygonscan.com/address/"
  else if (key =? "mumbai")%string then own "https://mumbai.polygonscan.com/address/"
  else if (key =? "mainnet")%string then own "https://polygonscan.com/address/"
  else if (key =? "testnet")%string then own "https://mumbai.polygonscan.com/address/"
  else if (key =? "constructor")%string then object_constructor
  else if (key =? "__proto__")%string then object_prototype
  else undefined_property.

(** The default of [network] is ['polygon']. *)
Definition getBlockExplorerUrl (txHash network : string) : string :=
  let explorers := tx_explorers in
  let baseUrl := or_else (explorers (Str.toLowerCase network)) (explorers "polygon") in
  print baseUrl ++ txHash.

Definition getAddressExplorerUrl (address network : string) : string :=
  let explorers := address_explorers in
  let baseUrl := or_else (explorers (Str.toLowerCase network)) (explorers "polygon") in
  print baseUrl ++ address.
End Explorers.

(** *** License keys *)

Section Random.
Context {env : Environment}.
(** [Math.random()]: a number that the outside world draws. *)
Variable Math_random : World -> Q * World.

(** The loop [for (let i = 0; i < 32; i++)] of [generateLicenseKey], with
    [n] iterations left; the product [Math.random() * chars.length] is
    taken exactly. *)
Fixpoint draw (chars : string) (n : nat) (result : string) (w : World)
  : string * World :=
  match n with
  | O => (result, w)
  | S n' =>
      let '(random, w') := Math_random w in
      let index := Qfloor (random * inject_Z (Str.len chars))%Q in
      draw chars n' (result ++ Str.charAt chars index) w'
  end.

Definition generateLicenseKey (w : World) : string * World :=
  let chars := "ABCDEFGHIJKLMNOPQRSTUVWXYZ0123456789" in
  draw chars 32 "" w.
End Random.

(** *** Webhook signatures *)

Section Webhooks.
(** [ethers.utils.toUtf8Bytes] and [ethers.utils.sha256] *)
Variable toUtf8Bytes : string -> list Byte.byte.
Variable sha256 : list Byte.byte -> string.

Definition createWebhookSignature (payload secret : string) : string :=
  sha256 (toUtf8Bytes (payload ++ secret)).

Definition verifyWebhookSignature (payload signature secret : string) : bool :=
  let expectedSignature := createWebhookSignature payload secret in
  (signature =? expectedSignature)%string.
End Webhooks.

(** *** Arrays *)

Section Arrays.
Variable T : Type.

(** The loop [for (let i = 0; i < array.length; i += chunkSize)]; it
    has no bound of its own, so the model runs it for [fuel] tests of
    its condition at most and has no result ([None]) if they do not
    suffice. *)
Fixpoint chunk_loop (fuel : nat) (array : list T) (chunkSize : Z) (i : Z)
         (chunks : list (list T)) : option (list (list T)) :=
  match fuel with
  | O => None
  | S fuel' =>
      if i <? Z.of_nat (List.length array)
      then chunk_loop fuel' array chunkSize (i + chunkSize)
                      (chunks ++ [Str.slice_chars array i (Some (i + chunkSize))])
      else Some chunks
  end.

Definition chunkArray (fuel : nat) (array : list T) (chunkSize : Z)
  : option (list (list T)) :=
  chunk_loop fuel array chunkSize 0 [].
End Arrays.

(** *** Contract detection *)

Section Provider.
Context {env : Environment} {chain : Client.Chain}.

(** [provider.getCode(address).then(code => code !== '0x')] *)
Definition isContractAddress (address : string) : M JsError bool :=
  bind (Client.call (Client.getCode address))
       (fun code => ret (negb (code =? "0x")%string)).
End Provider.

(** *** [debounce] and [throttle]

    The closure that each of them returns, as a function of the
    arguments it is called with and of the state it keeps: its captured
    variable and the event loop. *)

Section Debounce.
Variable Args : Type.
Variable wait : Z.

(** The callback of a timer is [() => func(...args)]: it is known by
    the arguments it holds. *)
Record Debounced : Type := {
  timeout : option nat;
  debounce_loop : EventLoop.Loop Args
}.

(** [debounce(func, wait)] at the time [t0]: [timeout] is not set. *)
Definition debounce (t0 : Z) : Debounced :=
  {| timeout := None; debounce_loop := EventLoop.idle Args t0 |}.

(** [(...args) => { clearTimeout(timeout);
                    timeout = setTimeout(() => func(...args), wait) }] *)
Definition debounced (args : Args) (st : Debounced) : Debounced :=
  let loop := EventLoop.clearTimeout (timeout st) (debounce_loop st) in
  let '(h, loop) := EventLoop.setTimeout args wait loop in
  {| timeout := Some h; debounce_loop := loop |}.
End Debounce.

Section Throttle.
Variable limit : Z.

(** The only callback is [() => (inThrottle = false)]. *)
Record Throttled : Type := {
  inThrottle : bool;
  throttle_loop : EventLoop.Loop unit
}.

(** [throttle(func, limit)] at the time [t0]: [inThrottle] is not set,
    which counts as false. *)
Definition throttle (t0 : Z) : Throttled :=
  {| inThrottle := false; throttle_loop := EventLoop.idle unit t0 |}.

(** How a call of [func] ends. *)
Inductive Completion : Type := returned | threw.

(** The closure is
    [(...args) => { if (!inThrottle) { func(...args); inThrottle = true;
                    setTimeout(() => (inThrottle = false), limit) } }].
    What [func] does is not the closure's: it may take time, throw, or
    call the closure again.  So the closure is given in two parts,
    before and after the call of [func].

    [if (!inThrottle)]: whether the closure calls [func]; it changes
    nothing before the call. *)
Definition throttled_calls (st : Throttled) : bool := negb (inThrottle st).

(** What follows the call of [func], in the state [st] that the call
    has left: [inThrottle = true; setTimeout(..)] when [func] has
    returned; nothing when it has thrown, since the exception leaves the
    closure (there is no [try]). *)
Definition throttled_after (c : Completion) (st : Throttled) : Throttled :=
  match c with
  | returned =>
      {| inThrottle := true;
         throttle_loop := snd (EventLoop.setTimeout tt limit (throttle_loop st)) |}
  | threw => st
  end.

(** The callback of the timer. *)
Definition release (st : Throttled) : Throttled :=
  {| inThrottle := false; throttle_loop := throttle_loop st |}.
End Throttle.

(** *** Block numbers

    A number is not-a-number, an infinity or a rational; the result of
    [parseInt] stands for the double nearest to the integer it reads,
    which is an integer of the same sign, or an infinity from
    [2^1024 - 2^970] on. *)

Inductive Number : Type :=
| NaN
| Infinity (negative : bool)
| Real (q : Q).

(** [Number.isInteger(num)] *)
Definition isInteger (num : Number) : bool :=
  match num with
  | Real q => Qeq_bool q (inject_Z (Qfloor q))
  | _ => false
  end.

(** [num >= 0] *)
Definition ge_zero (num : Number) : bool :=
  match num with
  | Real q => Qle_bool 0 q
  | Infinity negative => negb negative
  | NaN => false
  end.

(** The longest prefix of digits. *)
Fixpoint leading (radix : Z) (l : list ascii) : list ascii :=
  match l with
  | c :: r =>
      match digit_in radix c with
      | Some _ => c :: leading radix r
      | None => []
      end
  | [] => []
  end.

(** [parseInt(s)] without a radix: white space in front is skipped, a
    sign is read, the prefix [0x] selects the radix 16, and the digits
    that follow are read as far as they go. *)
Definition parseInt (s : string) : Number :=
  let input := drop_space (Str.chars s) in
  let '(negative, input) :=
    match input with
    | c :: r => if Ascii.eqb c "-" then (true, r)
                else if Ascii.eqb c "+" then (false, r)
                else (false, input)
    | [] => (false, input)
    end in
  let '(radix, input) :=
    match input with
    | z :: x :: r =>
        if Ascii.eqb z "0" && Ascii.eqb (Str.lower x) "x" then (16, r) else (10, input)
    | _ => (10, input)
    end in
  match numeral radix (leading radix input) with
  | None => NaN
  | Some mathInt =>
      if 2 ^ 1024 - 2 ^ 970 <=? mathInt then Infinity negative
      else Real (inject_Z (if negative then - mathInt else mathInt))
  end.

(** The argument is a string or a number. *)
Inductive BlockNumber : Type :=
| text (s : string)
| number (n : Number).

Definition validateBlockNumber (blockNumber : BlockNumber) : bool :=
  let num := match blockNumber with
             | text s => parseInt s
             | number n => n
             end in
  isInteger num && ge_zero num.
End Utils.

(** *** The behaviour the specification gives to [retry] (section 4.1)

    Attempt [k] (counted from 1), when it fails and is not the last one
    allowed, is followed by a wait of [baseDelayMs * 2^(k-1)]. *)

Module RetrySpec.
Import Runtime.
Section RetrySpec.
Context {env : Environment}.
Variables E T : Type.
Variable f : World -> (E + T) * World.
Variable baseDelayMs : Z.

Definition backoff (k : nat) : Z := baseDelayMs * 2 ^ (Z.of_nat k - 1).

(** The outside world as attempt [k+1] finds it, when the [k] attempts
    before it have failed. *)
Fixpoint world_before (k : nat) (w : World) : World :=
  match k with
  | O => w
  | S k' => elapse (backoff k) (snd (f (world_before k' w)))
  end.

(** Outcome of the [k]-th invocation, [k >= 1]. *)
Definition nth_outcome (k : nat) (w : World) : E + T :=
  fst (f (world_before (pred k) w)).

(** What [k] failed attempts, each followed by its wait, leave in the
    trace. *)
Fixpoint failed_attempts (k : nat) : list Event :=
  match k with
  | O => []
  | S k' => failed_attempts k' ++ [EvOp; EvTimer (backoff k)]
  end.

Definition invocations (tr : list Event) : nat :=
  List.length (filter (fun ev => match ev with EvOp => true | _ => false end) tr).

Definition timers (tr : list Event) : list Z :=
  flat_map (fun ev => match ev with EvTimer ms => [ms] | _ => [] end) tr.

Definition total_wait (tr : list Event) : Z := fold_right Z.add 0 (timers tr).

Definition is_failure (r : E + T) : Prop :=
  match r with inl _ => True | inr _ => False end.

End RetrySpec.
End RetrySpec.

(** ** The managers without a chain client

    Every operation of the license, NFT and DeFi managers is a
    placeholder: its [try] block throws a plain [Error], which its
    [catch] block turns into an error of [errors.ts]. *)

Module Stub.
Import Runtime Errors.
Section Stub.
Context {env : Environment}.

(** [throw new Error('Not implemented - requires Polygon-specific implementation')] *)
Definition not_implemented {A} : M JsError A :=
  throw (Error "Not implemented - requires Polygon-specific implementation").

End Stub.
End Stub.

(** *** [src/PolygonLicenseManager.ts] *)

Module PolygonLicenseManager.
Import Runtime Errors Types Stub.
Local Open Scope js_scope.
Section Manager.
Context {env : Environment}.

Record t : Type := { config : PolygonConfig }.

Definition updateConfig (self : t) (newConfig : PolygonConfig) : t :=
  {| config := newConfig |}.

Definition createLicense (productId licenseType : string) (metadata : Metadata)
  : M JsError PolygonTransaction :=
  try_catch not_implemented
    (fun error =>
       throw (PolygonError ("Failed to create license: " ++ message error)
                           "CREATE_LICENSE_ERROR")).

Definition getLicense (licenseId : string) : M JsError PolygonLicense :=
  try_catch not_implemented
    (fun error => throw (LicenseNotFoundError licenseId)).

Definition updateLicense (licenseId : string) (updates : Metadata)
  : M JsError PolygonTransaction :=
  try_catch not_implemented
    (fun error =>
       throw (PolygonError ("Failed to update license: " ++ message error)
                           "UPDATE_LICENSE_ERROR")).

Definition revokeLicense (licenseId : string) : M JsError PolygonTransaction :=
  try_catch not_implemented
    (fun error =>
       throw (PolygonError ("Failed to revoke license: " ++ message error)
                           "REVOKE_LICENSE_ERROR")).

Definition getLicensesByOwner (ownerAddress : string)
  : M JsError (list PolygonLicense) :=
  try_catch not_implemented
    (fun error =>
       throw (PolygonError ("Failed to get licenses by owner: " ++ message error)
                           "GET_LICENSES_ERROR")).

Definition getLicenseCount : M JsError Z :=
  try_catch not_implemented
    (fun error =>
       throw (PolygonError ("Failed to get license count: " ++ message error)
                           "LICENSE_COUNT_ERROR")).

Definition isLicenseValid (licenseId : string) : M JsError bool :=
  try_catch not_implemented
    (fun error =>
       throw (PolygonError ("Failed to check license validity: " ++ message error)
                           "LICENSE_VALIDITY_ERROR")).

Definition extendLicense (licenseId : string) (additionalTime : JS.number)
  : M JsError PolygonTransaction :=
  try_catch
    (when (JS.le_zero additionalTime)
          (throw (InvalidAmountError (JS.number_toString additionalTime))) ;;;
     not_implemented)
    (fun error =>
       if instanceof_InvalidAmountError error then throw error
       else throw (PolygonError ("Failed to extend license: " ++ message error)
                                "EXTEND_LICENSE_ERROR")).
End Manager.
End PolygonLicenseManager.

(** *** [src/PolygonNFTManager.ts] *)

Module PolygonNFTManager.
Import Runtime Errors Types Stub.
Section Manager.
Context {env : Environment}.

Record t : Type := { config : PolygonConfig }.

Definition updateConfig (self : t) (newConfig : PolygonConfig) : t :=
  {| config := newConfig |}.

Definition mint (contractAddress to : string) (metadata : Metadata)
  : M JsError PolygonTransaction :=
  try_catch not_implemented
    (fun error =>
       throw (PolygonError ("Failed to mint NFT: " ++ message error)
                           "MINT_ERROR")).

Definition getNFT (tokenId contractAddress : string) : M JsError PolygonNFT :=
  try_catch not_implemented
    (fun error => throw (NFTNotFoundError tokenId)).

Definition transfer (contractAddress tokenId from to : string)
  : M JsError PolygonTransaction :=
  try_catch not_implemented
    (fun error =>
       throw (PolygonError ("Failed to transfer NFT: " ++ message error)
                           "TRANSFER_ERROR")).

Definition getNFTsByOwner (contractAddress ownerAddress : string)
  : M JsError (list PolygonNFT) :=
  try_catch not_implemented
    (fun error =>
       throw (PolygonError ("Failed to get NFTs by owner: " ++ message error)
                           "GET_NFTS_ERROR")).

Definition getTotalSupply (contractAddress : string) : M JsError Z :=
  try_catch not_implemented
    (fun error =>
       throw (PolygonError ("Failed to get total supply: " ++ message error)
                           "TOTAL_SUPPLY_ERROR")).

Definition getOwner (contractAddress tokenId : string) : M JsError string :=
  try_catch not_implemented
    (fun error =>
       throw (PolygonError ("Failed to get owner: " ++ message error)
                           "OWNER_ERROR")).

Definition approve (contractAddress tokenId to : string)
  : M JsError PolygonTransaction :=
  try_catch not_implemented
    (fun error =>
       throw (PolygonError ("Failed to approve NFT: " ++ message error)
                           "APPROVE_ERROR")).

Definition getApproved (contractAddress tokenId : string) : M JsError string :=
  try_catch not_implemented
    (fun error =>
       throw (PolygonError ("Failed to get approved address: " ++ message error)
                           "GET_APPROVED_ERROR")).

Definition setApprovalForAll (contractAddress operator : string) (approved : bool)
  : M JsError PolygonTransaction :=
  try_catch not_implemented
    (fun error =>
       throw (PolygonError ("Failed to set approval for all: " ++ message error)
                           "SET_APPROVAL_FOR_ALL_ERROR")).

Definition isApprovedForAll (contractAddress owner operator : string)
  : M JsError bool :=
  try_catch not_implemented
    (fun error =>
       throw (PolygonError ("Failed to check approval for all: " ++ message error)
                           "IS_APPROVED_FOR_ALL_ERROR")).

Definition getTokenURI (contractAddress tokenId : string) : M JsError string :=
  try_catch not_implemented
    (fun error =>
       throw (PolygonError ("Failed to get token URI: " ++ message error)
                           "TOKEN_URI_ERROR")).

Definition setTokenURI (contractAddress tokenId uri : string)
  : M JsError PolygonTransaction :=
  try_catch not_implemented
    (fun error =>
       throw (PolygonError ("Failed to set token URI: " ++ message error)
                           "SET_TOKEN_URI_ERROR")).
End Manager.
End PolygonNFTManager.

(** *** [src/PolygonDeFiManager.ts] *)

Module PolygonDeFiManager.
Import Runtime Errors Types Stub.
Local Open Scope js_scope.
Section Manager.
Context {env : Environment}.

Record t : Type := { config : PolygonConfig }.

Definition updateConfig (self : t) (newConfig : PolygonConfig) : t :=
  {| config := newConfig |}.

Record Quote : Type := { amountOut : string; priceImpact : Z }.

Record Reserves : Type := { quote_reserve0 : string; quote_reserve1 : string }.

Definition getPools : M JsError (list PolygonDeFiPool) :=
  try_catch not_implemented
    (fun error =>
       throw (PolygonError ("Failed to get pools: " ++ message error)
                           "GET_POOLS_ERROR")).

Definition getPool (tokenA tokenB : string) : M JsError PolygonDeFiPool :=
  try_catch not_implemented
    (fun error =>
       throw (PolygonError ("Failed to get pool: " ++ message error)
                           "GET_POOL_ERROR")).

Definition addLiquidity (tokenA tokenB amountA amountB : string)
  : M JsError PolygonTransaction :=
  try_catch
    (when (JS.falsy amountA || (amountA =? "0")%string
           || JS.falsy amountB || (amountB =? "0")%string)
          (throw (InvalidAmountError (amountA ++ "-" ++ amountB))) ;;;
     not_implemented)
    (fun error =>
       if instanceof_InvalidAmountError error then throw error
       else throw (PolygonError ("Failed to add liquidity: " ++ message error)
                                "ADD_LIQUIDITY_ERROR")).

Definition removeLiquidity (tokenA tokenB lpTokenAmount : string)
  : M JsError PolygonTransaction :=
  try_catch
    (when (JS.falsy lpTokenAmount || (lpTokenAmount =? "0")%string)
          (throw (InvalidAmountError lpTokenAmount)) ;;;
     not_implemented)
    (fun error =>
       if instanceof_InvalidAmountError error then throw error
       else throw (PolygonError ("Failed to remove liquidity: " ++ message error)
                                "REMOVE_LIQUIDITY_ERROR")).

Definition swap (tokenIn tokenOut amountIn amountOutMin : string)
  : M JsError PolygonTransaction :=
  try_catch
    (when (JS.falsy amountIn || (amountIn =? "0")%string)
          (throw (InvalidAmountError amountIn)) ;;;
     when (JS.falsy amountOutMin || (amountOutMin =? "0")%string)
          (throw (InvalidAmountError amountOutMin)) ;;;
     not_implemented)
    (fun error =>
       if instanceof_InvalidAmountError error then throw error
       else throw (PolygonError ("Failed to swap: " ++ message error) "SWAP_ERROR")).

Definition getQuote (tokenIn tokenOut amountIn : string) : M JsError Quote :=
  try_catch
    (when (JS.falsy amountIn || (amountIn =? "0")%string)
          (throw (InvalidAmountError amountIn)) ;;;
     not_implemented)
    (fun error =>
       if instanceof_InvalidAmountError error then throw error
       else throw (PolygonError ("Failed to get quote: " ++ message error) "QUOTE_ERROR")).

Definition getReserves (tokenA tokenB : string) : M JsError Reserves :=
  try_catch not_implemented
    (fun error =>
       throw (PolygonError ("Failed to get reserves: " ++ message error)
                           "RESERVES_ERROR")).

Definition getPrice (tokenA tokenB : string) : M JsError string :=
  try_catch not_implemented
    (fun error =>
       throw (PolygonError ("Failed to get price: " ++ message error)
                           "PRICE_ERROR")).

Definition getLiquidity (tokenA tokenB : string) : M JsError string :=
  try_catch not_implemented
    (fun error =>
       throw (PolygonError ("Failed to get liquidity: " ++ message error)
                           "LIQUIDITY_ERROR")).
End Manager.
End PolygonDeFiManager.

(** ** The managers over the chain client *)

(** The objects these managers return. *)
Module Records.
Record PolygonTransaction : Type := {
  hash : string;
  from : string;
  to : string;
  value : string;
  gasLimit : string;
  gasPrice : string;
  gasUsed : string;
  blockNumber : Z;
  blockHash : string;
  transactionIndex : Z;
  status : Types.Status;
  logs : list Client.Log;
  effectiveGasPrice : string
}.

Record PolygonContract : Type := {
  contract_address : string;
  contract_abi : Client.Abi;
  contract_bytecode : string;
  deployedAt : string;
  contract_transactionHash : string;
  contract_gasUsed : string;
  contract_gasPrice : string
}.

Record PolygonToken : Type := {
  token_address : string;
  token_name : string;
  token_symbol : string;
  token_decimals : Z;
  token_totalSupply : string;
  token_type : string
}.

Record PolygonTokenTransfer : Type := {
  transfer_from : string;
  transfer_to : string;
  transfer_value : string;
  transfer_transactionHash : string;
  transfer_blockNumber : Z;
  transfer_logIndex : Z
}.

Record PolygonWallet : Type := {
  wallet_address : string;
  wallet_privateKey : string;
  wallet_mnemonic : string;
  wallet_publicKey : string;
  wallet_index : Z
}.

Record WalletInfo : Type := {
  info_address : string;
  info_balance : string;
  info_transactionCount : Z;
  info_isContract : bool
}.

Record WalletFeeData : Type := {
  fee_gasPrice : string;
  fee_maxFeePerGas : option string;
  fee_maxPriorityFeePerGas : option string
}.
End Records.

Module PolygonTokenManager.
Import Runtime Errors Types Client.
Local Open Scope js_scope.
Section Manager.
Context {env : Environment} {chain : Chain}.

Record t : Type := { config : PolygonConfig; signer : option Wallet }.

Definition constructor (config : PolygonConfig) : M JsError t :=
  match privateKey config with
  | Some key =>
      if JS.falsy key then ret {| config := config; signer := None |}
      else (wallet <- new_Wallet key ;;
            ret {| config := config; signer := Some wallet |})
  | None => ret {| config := config; signer := None |}
  end.

Definition getTokenInfo (self : t) (tokenAddress : string)
  : M JsError Records.PolygonToken :=
  try_catch
    (let validatedAddress := Utils.validateAddress tokenAddress in
     when (negb validatedAddress)
          (throw (PolygonError "Invalid token address" "INVALID_ADDRESS")) ;;;
     contract <- new_Contract tokenAddress
                   ["function name() view returns (string)";
                    "function symbol() view returns (string)";
                    "function decimals() view returns (uint8)";
                    "function totalSupply() view returns (uint256)";
                    "function balanceOf(address) view returns (uint256)";
                    "function allowance(address,address) view returns (uint256)"]
                   None ;;
     info <- Promise_all4 (call (erc20_name contract)) (call (erc20_symbol contract))
                          (call (erc20_decimals contract))
                          (call (erc20_totalSupply contract)) ;;
     let '(name, symbol, decimals, totalSupply) := info in
     ret {| Records.token_address := tokenAddress;
            Records.token_name := name;
            Records.token_symbol := symbol;
            Records.token_decimals := decimals;
            Records.token_totalSupply := JS.toString totalSupply;
            Records.token_type := "ERC20" |})
    (fun error =>
       if instanceof_PolygonError error then throw error
       else throw_new (new_PolygonNetworkError "Failed to get token info" error)).

Definition transferToken (self : t) (tokenAddress toAddress amount : string)
           (gasLimit : option Z) : M JsError string :=
  try_catch
    (match signer self with
     | None => throw (PolygonError "Signer required for token transfer" "SIGNER_REQUIRED")
     | Some signer =>
         contract <- new_Contract tokenAddress
                       ["function transfer(address,uint256) returns (bool)";
                        "function decimals() view returns (uint8)"]
                       (Some signer) ;;
         decimals <- call (erc20_decimals contract) ;;
         transferAmount <- lift (Utils.parseUnits amount decimals) ;;
         tx <- Utils.retry
                 (call (erc20_transfer contract toAddress transferAmount gasLimit))
                 3 1000 ;;
         ret (hash tx)
     end)
    (fun error =>
       if instanceof_PolygonError error then throw error
       else throw_new (new_PolygonNetworkError "Failed to transfer token" error)).

Definition approveToken (self : t) (tokenAddress spenderAddress amount : string)
           (gasLimit : option Z) : M JsError string :=
  try_catch
    (match signer self with
     | None => throw (PolygonError "Signer required for token approval" "SIGNER_REQUIRED")
     | Some signer =>
         contract <- new_Contract tokenAddress
                       ["function approve(address,uint256) returns (bool)";
                        "function decimals() view returns (uint8)"]
                       (Some signer) ;;
         decimals <- call (erc20_decimals contract) ;;
         approveAmount <- lift (Utils.parseUnits amount decimals) ;;
         tx <- Utils.retry
                 (call (erc20_approve contract spenderAddress approveAmount gasLimit))
                 3 1000 ;;
         ret (hash tx)
     end)
    (fun error =>
       if instanceof_PolygonError error then throw error
       else throw_new (new_PolygonNetworkError "Failed to approve token" error)).

Definition transferFromToken (self : t)
           (tokenAddress fromAddress toAddress amount : string)
           (gasLimit : option Z) : M JsError string :=
  try_catch
    (match signer self with
     | None => throw (PolygonError "Signer required for transferFrom" "SIGNER_REQUIRED")
     | Some signer =>
         contract <- new_Contract tokenAddress
                       ["function transferFrom(address,address,uint256) returns (bool)";
                        "function decimals() view returns (uint8)"]
                       (Some signer) ;;
         decimals <- call (erc20_decimals contract) ;;
         transferAmount <- lift (Utils.parseUnits amount decimals) ;;
         tx <- Utils.retry
                 (call (erc20_transferFrom contract fromAddress toAddress
                                           transferAmount gasLimit))
                 3 1000 ;;
         ret (hash tx)
     end)
    (fun error =>
       if instanceof_PolygonError error then throw error
       else throw_new (new_PolygonNetworkError "Failed to transferFrom token" error)).
Definition getTokenBalance (self : t) (tokenAddress ownerAddress : string)
  : M JsError string :=
  try_catch
    (contract <- new_Contract tokenAddress
                   ["function balanceOf(address) view returns (uint256)"] None ;;
     balance <- call (erc20_balanceOf contract ownerAddress) ;;
     ret (JS.toString balance))
    (fun error =>
       throw_new (new_PolygonNetworkError "Failed to get token balance" error)).

Definition getTokenAllowance (self : t) (tokenAddress ownerAddress spenderAddress : string)
  : M JsError string :=
  try_catch
    (contract <- new_Contract tokenAddress
                   ["function allowance(address,address) view returns (uint256)"] None ;;
     allowance <- call (erc20_allowance contract ownerAddress spenderAddress) ;;
     ret (JS.toString allowance))
    (fun error =>
       throw_new (new_PolygonNetworkError "Failed to get token allowance" error)).

(** [events.map(event => ({ from: event.args.from, ... }))] *)
Definition transfer_of_event (event : TransferLog) : Records.PolygonTokenTransfer :=
  {| Records.transfer_from := args_from event;
     Records.transfer_to := args_to event;
     Records.transfer_value := JS.toString (args_value event);
     Records.transfer_transactionHash := Client.transfer_transactionHash event;
     Records.transfer_blockNumber := Client.transfer_blockNumber event;
     Records.transfer_logIndex := Client.transfer_logIndex event |}.

Definition getTokenTransfers (self : t) (tokenAddress : string)
           (fromBlock toBlock : option Z)
  : M JsError (list Records.PolygonTokenTransfer) :=
  try_catch
    (contract <- new_Contract tokenAddress
                   ["event Transfer(address indexed from, address indexed to, uint256 value)"]
                   None ;;
     events <- call (queryTransfers contract None None fromBlock toBlock) ;;
     ret (map transfer_of_event events))
    (fun error =>
       throw_new (new_PolygonNetworkError "Failed to get token transfers" error)).

Definition getTokenTransfersByAddress (self : t) (tokenAddress address : string)
           (fromBlock toBlock : option Z)
  : M JsError (list Records.PolygonTokenTransfer) :=
  try_catch
    (contract <- new_Contract tokenAddress
                   ["event Transfer(address indexed from, address indexed to, uint256 value)"]
                   None ;;
     events <- call (queryTransfers contract (Some address) (Some address)
                                    fromBlock toBlock) ;;
     ret (map transfer_of_event events))
    (fun error =>
       throw_new (new_PolygonNetworkError
                    "Failed to get token transfers by address" error)).

(** [BigInt(s)] for a decimal string with an optional sign; the empty
    string is [0n].  Other literals (hexadecimal, blanks around the
    digits) are not modelled: they count as a syntax error here. *)
Definition BigInt (s : string) : JsError + Z :=
  if JS.falsy s then inr 0
  else match Ethers.BigNumber_from s with
       | inl _ => inl (Error "Cannot convert to a BigInt")
       | inr z => inr z
       end.

Definition zero_address : string := "0x0000000000000000000000000000000000000000".

(** [balances[key] || 0n] on an object used as a map; its entries are
    kept in the order of their insertion (no key is an array index). *)
Fixpoint balance_or_zero (balances : list (string * Z)) (key : string) : Z :=
  match balances with
  | [] => 0
  | (k, b) :: rest => if (k =? key)%string then b else balance_or_zero rest key
  end.

(** [balances[key] = v] *)
Fixpoint assign (balances : list (string * Z)) (key : string) (v : Z)
  : list (string * Z) :=
  match balances with
  | [] => [(key, v)]
  | (k, b) :: rest =>
      if (k =? key)%string then (k, v) :: rest else (k, b) :: assign rest key v
  end.

(** The body of [for (const transfer of transfers)]. *)
Fixpoint tally (transfers : list Records.PolygonTokenTransfer)
         (balances : list (string * Z)) : JsError + list (string * Z) :=
  match transfers with
  | [] => inr balances
  | transfer :: rest =>
      match BigInt (Records.transfer_value transfer) with
      | inl e => inl e
      | inr value =>
          let from := Records.transfer_from transfer in
          let to := Records.transfer_to transfer in
          let balances :=
            if negb (from =? zero_address)%string
            then assign balances from (balance_or_zero balances from - value)
            else balances in
          let balances :=
            if negb (to =? zero_address)%string
            then assign balances to (balance_or_zero balances to + value)
            else balances in
          tally rest balances
      end
  end.

Definition getTokenHolders (self : t) (tokenAddress : string)
           (fromBlock toBlock : option Z) : M JsError (list (string * string)) :=
  try_catch
    (transfers <- getTokenTransfers self tokenAddress fromBlock toBlock ;;
     balances <- lift (tally transfers []) ;;
     ret (map (fun entry => (fst entry, JS.toString (snd entry)))
              (filter (fun entry => 0 <? snd entry) balances)))
    (fun error =>
       throw_new (new_PolygonNetworkError "Failed to get token holders" error)).

Definition getTokenSupply (self : t) (tokenAddress : string) : M JsError string :=
  try_catch
    (contract <- new_Contract tokenAddress
                   ["function totalSupply() view returns (uint256)"] None ;;
     totalSupply <- call (erc20_totalSupply contract) ;;
     ret (JS.toString totalSupply))
    (fun error =>
       throw_new (new_PolygonNetworkError "Failed to get token supply" error)).

Definition getTokenDecimals (self : t) (tokenAddress : string) : M JsError Z :=
  try_catch
    (contract <- new_Contract tokenAddress
                   ["function decimals() view returns (uint8)"] None ;;
     decimals <- call (erc20_decimals contract) ;;
     ret decimals)
    (fun error =>
       throw_new (new_PolygonNetworkError "Failed to get token decimals" error)).

Definition formatTokenAmount (self : t) (tokenAddress amount : string) : M JsError string :=
  try_catch
    (decimals <- getTokenDecimals self tokenAddress ;;
     lift (Utils.formatUnits amount decimals))
    (fun error =>
       throw_new (new_PolygonNetworkError "Failed to format token amount" error)).

Definition parseTokenAmount (self : t) (tokenAddress amount : string) : M JsError string :=
  try_catch
    (decimals <- getTokenDecimals self tokenAddress ;;
     lift (Utils.parseUnits amount decimals))
    (fun error =>
       throw_new (new_PolygonNetworkError "Failed to parse token amount" error)).

Definition getTokenSymbol (self : t) (tokenAddress : string) : M JsError string :=
  try_catch
    (contract <- new_Contract tokenAddress
                   ["function symbol() view returns (string)"] None ;;
     call (erc20_symbol contract))
    (fun error =>
       throw_new (new_PolygonNetworkError "Failed to get token symbol" error)).

Definition getTokenName (self : t) (tokenAddress : string) : M JsError string :=
  try_catch
    (contract <- new_Contract tokenAddress
                   ["function name() view returns (string)"] None ;;
     call (erc20_name contract))
    (fun error => throw_new (new_PolygonNetworkError "Failed to get token name" error)).

Definition disconnect (self : t) : M JsError unit := ret tt.
End Manager.
End PolygonTokenManager.

Module PolygonContractManager.
Import Runtime Errors Types Client.
Local Open Scope js_scope.
Section Manager.
Context {env : Environment} {chain : Chain}.

Record t : Type := { config : PolygonConfig; signer : option Wallet }.

Definition constructor (config : PolygonConfig) : M JsError t :=
  match privateKey config with
  | Some key =>
      if JS.falsy key then ret {| config := config; signer := None |}
      else (wallet <- new_Wallet key ;;
            ret {| config := config; signer := Some wallet |})
  | None => ret {| config := config; signer := None |}
  end.

(** [gasEstimate.mul(120).div(100)] *)
Definition with_buffer (gasEstimate : Z) : Z := Z.quot (gasEstimate * 120) 100.

Definition deployContract (self : t) (bytecode : string) (abi : Abi)
           (constructorArgs : list string) (gasLimit : option Z)
  : M JsError Records.PolygonContract :=
  try_catch
    (match signer self with
     | None => throw (PolygonError "Signer required for contract deployment"
                                   "SIGNER_REQUIRED")
     | Some signer =>
         factory <- new_ContractFactory abi bytecode signer ;;
         contract <- Utils.retry
                       (gasEstimate <-
                          (request <- getDeployTransaction factory constructorArgs ;;
                           then_on_object request
                                          (fun tx => call (estimateDeployGas tx))) ;;
                        let limit := JS.or_number gasLimit (with_buffer gasEstimate) in
                        deployTx <- call (deploy factory constructorArgs limit) ;;
                        ret deployTx)
                       3 1000 ;;
         call (deployed contract) ;;;
         let deployTx := deployTransaction contract in
         fun s =>
           ret {| Records.contract_address := deployed_address contract;
                  Records.contract_abi := abi;
                  Records.contract_bytecode := bytecode;
                  Records.deployedAt := now (world s);
                  Records.contract_transactionHash := hash deployTx;
                  Records.contract_gasUsed :=
                    JS.or_string (Some (JS.toString (Client.gasLimit deployTx))) "0";
                  Records.contract_gasPrice :=
                    JS.or_string (option_map JS.toString (Client.gasPrice deployTx)) "0"
               |} s
     end)
    (fun error =>
       if instanceof_PolygonError error then throw error
       else throw_new (new_PolygonNetworkError "Failed to deploy contract" error)).

Definition getContract (self : t) (address : string) (abi : Abi) : M JsError Contract :=
  try_catch
    (let validatedAddress := Utils.validateAddress address in
     when (negb validatedAddress)
          (throw (PolygonError "Invalid contract address" "INVALID_ADDRESS")) ;;;
     new_Contract address abi (signer self))
    (fun error =>
       if instanceof_PolygonError error then throw error
       else throw_new (new_PolygonNetworkError "Failed to get contract" error)).

(** [receipt.status === 1 ? 'success' : 'failed'] *)
Definition status_of (status : option Z) : Status :=
  match status with
  | Some 1 => success
  | _ => failed
  end.

Definition sendContractTransaction (self : t) (contractAddress : string) (abi : Abi)
           (methodName : string) (args : list string) (options : Overrides)
  : M JsError Records.PolygonTransaction :=
  try_catch
    (match signer self with
     | None => throw (PolygonError "Signer required for contract transactions"
                                   "SIGNER_REQUIRED")
     | Some _ =>
         contract <- getContract self contractAddress abi ;;
         tx <- Utils.retry
                 (gasEstimate <- call (estimateMethodGas contract methodName args
                     options) ;;
                  call (sendMethod contract methodName args
                          {| ov_value := ov_value options;
                             ov_gasLimit :=
                               Some (JS.or_number (ov_gasLimit options)
                                                  (with_buffer gasEstimate));
                             ov_gasPrice := ov_gasPrice options |}))
                 3 1000 ;;
         receipt <- call (wait tx) ;;
         ret {| Records.hash := hash tx;
                Records.from := from tx;
                Records.to := JS.or_string (to tx) contractAddress;
                Records.value := JS.toString (value tx);
                Records.gasLimit := JS.toString (gasLimit tx);
                Records.gasPrice := JS.or_string (option_map JS.toString (gasPrice tx)) "0";
                Records.gasUsed := JS.toString (gasUsed receipt);
                Records.blockNumber := blockNumber receipt;
                Records.blockHash := blockHash receipt;
                Records.transactionIndex := transactionIndex receipt;
                Records.status := status_of (status receipt);
                Records.logs := logs receipt;
                Records.effectiveGasPrice :=
                  JS.or_string (option_map JS.toString (effectiveGasPrice receipt)) "0" |}
     end)
    (fun error =>
       if instanceof_PolygonError error then throw error
       else throw_new (new_PolygonNetworkError
                     ("Failed to send contract transaction " ++ methodName) error)).

Definition getContractCode (self : t) (address : string) : M JsError string :=
  try_catch (call (getCode address))
    (fun error =>
       throw_new (new_PolygonNetworkError "Failed to get contract code" error)).

Definition isContract (self : t) (address : string) : M JsError bool :=
  try_catch
    (code <- getContractCode self address ;;
     ret (negb (code =? "0x")%string))
    (fun error =>
       throw_new (new_PolygonNetworkError
                    "Failed to check if address is contract" error)).

(** [receipt?.field], [undefined] when there is no receipt. *)
Definition opt {A B} (receipt : option A) (field : A -> B) : option B :=
  option_map field receipt.

Definition getTransaction (self : t) (txHash : string)
  : M JsError (option Records.PolygonTransaction) :=
  try_catch
    (tx <- call (Client.getTransaction txHash) ;;
     match tx with
     | None => ret None
     | Some tx =>
         receipt <- call (getTransactionReceipt txHash) ;;
         ret (Some
                {| Records.hash := hash tx;
                   Records.from := from tx;
                   Records.to := JS.or_string (to tx) "";
                   Records.value := JS.toString (value tx);
                   Records.gasLimit := JS.toString (gasLimit tx);
                   Records.gasPrice :=
                     JS.or_string (option_map JS.toString (gasPrice tx)) "0";
                   Records.gasUsed :=
                     JS.or_string (opt receipt (fun r => JS.toString (gasUsed r))) "0";
                   Records.blockNumber := JS.or_number (opt receipt blockNumber) 0;
                   Records.blockHash := JS.or_string (opt receipt blockHash) "";
                   Records.transactionIndex :=
                     JS.or_number (opt receipt transactionIndex) 0;
                   Records.status :=
                     status_of (match receipt with
                                | Some r => status r
                                | None => None
                                end);
                   Records.logs := match receipt with Some r => logs r | None => [] end;
                   Records.effectiveGasPrice :=
                     JS.or_string
                       (match receipt with
                        | Some r => option_map JS.toString (effectiveGasPrice r)
                        | None => None
                        end) "0" |})
     end)
    (fun error =>
       throw_new (new_PolygonNetworkError "Failed to get transaction" error)).

Definition callContractMethod (self : t) (contractAddress : string) (abi : Abi)
           (methodName : string) (args : list string) : M JsError any :=
  try_catch
    (contract <- getContract self contractAddress abi ;;
     call (callMethod contract methodName args))
    (fun error =>
       if instanceof_PolygonError error then throw error
       else throw_new (new_PolygonNetworkError
                     ("Failed to call contract method " ++ methodName) error)).

(** [events.map(event => ({ address: event.address, ... }))] *)
Definition copy_event (event : EventLog) : EventLog :=
  {| event_address := event_address event;
     event_blockNumber := event_blockNumber event;
     event_blockHash := event_blockHash event;
     event_transactionHash := event_transactionHash event;
     event_transactionIndex := event_transactionIndex event;
     event_logIndex := event_logIndex event;
     event_removed := event_removed event;
     event_args := event_args event;
     event_topics := event_topics event;
     event_data := event_data event |}.

Definition getContractEvents (self : t) (contractAddress : string) (abi : Abi)
           (eventName : string) (fromBlock toBlock : option Z)
  : M JsError (list EventLog) :=
  try_catch
    (contract <- getContract self contractAddress abi ;;
     filter <- new_Filter contract eventName ;;
     events <- call (queryFilter contract filter fromBlock toBlock) ;;
     ret (map copy_event events))
    (fun error =>
       if instanceof_PolygonError error then throw error
       else throw_new (new_PolygonNetworkError
                     ("Failed to get contract events " ++ eventName) error)).

Definition getContractBalance (self : t) (address : string) : M JsError string :=
  try_catch
    (balance <- call (getBalance address) ;;
     ret (JS.toString balance))
    (fun error =>
       throw_new (new_PolygonNetworkError "Failed to get contract balance" error)).

Definition getContractStorageAt (self : t) (address position : string)
  : M JsError string :=
  try_catch (call (getStorageAt address position))
    (fun error =>
       throw_new (new_PolygonNetworkError "Failed to get contract storage" error)).

(** [value ? ethers.utils.parseEther(value) : undefined] *)
Definition optional_ether (value : option string) : M JsError (option Z) :=
  match value with
  | Some v =>
      if JS.falsy v then ret None
      else (wei <- lift (Ethers.parseEther v) ;; ret (Some wei))
  | None => ret None
  end.

Definition estimateGas (self : t) (to data : string) (value : option string)
  : M JsError string :=
  try_catch
    (wei <- optional_ether value ;;
     gasEstimate <- call (Client.estimateGas to (Some data) wei) ;;
     ret (JS.toString gasEstimate))
    (fun error => throw_new (new_PolygonNetworkError "Failed to estimate gas" error)).

Definition getTransactionCount (self : t) (address : string) : M JsError Z :=
  try_catch (call (Client.getTransactionCount address))
    (fun error =>
       throw_new (new_PolygonNetworkError "Failed to get transaction count" error)).

Definition waitForTransaction (self : t) (txHash : string) (confirmations : Z)
  : M JsError Records.PolygonTransaction :=
  try_catch
    (receipt <- call (Client.waitForTransaction txHash confirmations) ;;
     ret {| Records.hash := transactionHash receipt;
            Records.from := receipt_from receipt;
            Records.to := JS.or_string (receipt_to receipt) "";
            Records.value := "0";
            Records.gasLimit := "0";
            Records.gasPrice := "0";
            Records.gasUsed := JS.toString (gasUsed receipt);
            Records.blockNumber := blockNumber receipt;
            Records.blockHash := blockHash receipt;
            Records.transactionIndex := transactionIndex receipt;
            Records.status := status_of (status receipt);
            Records.logs := logs receipt;
            Records.effectiveGasPrice :=
              JS.or_string (option_map JS.toString (effectiveGasPrice receipt)) "0" |})
    (fun error =>
       throw_new (new_PolygonNetworkError "Failed to wait for transaction" error)).

Definition getCurrentBlockNumber (self : t) : M JsError Z :=
  try_catch (call getBlockNumber)
    (fun error =>
       throw_new (new_PolygonNetworkError "Failed to get current block number" error)).

Definition getBlock (self : t) (blockNumber : Z) : M JsError any :=
  try_catch (call (Client.getBlock blockNumber))
    (fun error => throw_new (new_PolygonNetworkError "Failed to get block" error)).

Definition getNetwork (self : t) : M JsError any :=
  try_catch (call Client.getNetwork)
    (fun error => throw_new (new_PolygonNetworkError "Failed to get network" error)).

Definition getGasPrice (self : t) : M JsError string :=
  try_catch
    (gasPrice <- call Client.getGasPrice ;;
     ret (JS.toString gasPrice))
    (fun error => throw_new (new_PolygonNetworkError "Failed to get gas price" error)).

Definition getFeeData (self : t) : M JsError FeeData :=
  try_catch (call Client.getFeeData)
    (fun error => throw_new (new_PolygonNetworkError "Failed to get fee data" error)).

Definition disconnect (self : t) : M JsError unit := ret tt.
End Manager.
End PolygonContractManager.

Module PolygonWalletManager.
Import Runtime Errors Types Client.
Local Open Scope js_scope.
Section Manager.
Context {env : Environment} {chain : Chain}.

Record t : Type := { config : PolygonConfig; wallet : option Wallet }.

Definition constructor (config : PolygonConfig) : M JsError t :=
  match privateKey config with
  | Some key =>
      if JS.falsy key then ret {| config := config; wallet := None |}
      else (w <- new_Wallet key ;;
            ret {| config := config; wallet := Some w |})
  | None => ret {| config := config; wallet := None |}
  end.

Definition getWalletBalance (self : t) (address : string) : M JsError string :=
  try_catch
    (let validatedAddress := Utils.validateAddress address in
     when (negb validatedAddress)
          (throw (PolygonError "Invalid address" "INVALID_ADDRESS")) ;;;
     balance <- call (getBalance address) ;;
     ret (JS.toString balance))
    (fun error =>
       if instanceof_PolygonError error then throw error
       else throw_new (new_PolygonNetworkError "Failed to get wallet balance" error)).

Definition sendTransaction (self : t) (to value : string)
           (gasLimit : option Z) (gasPrice : option string)
  : M JsError Records.PolygonTransaction :=
  try_catch
    (match wallet self with
     | None => throw (PolygonError "Wallet not initialized" "WALLET_NOT_INITIALIZED")
     | Some wallet =>
         let validatedTo := Utils.validateAddress to in
         when (negb validatedTo)
              (throw (PolygonError "Invalid recipient address" "INVALID_ADDRESS")) ;;;
         tx <- Utils.retry
                 (wei <- lift (Ethers.parseEther value) ;;
                  price <- match gasPrice with
                           | Some g =>
                               if JS.falsy g then ret None
                               else (p <- lift (Ethers.parseUnits g Ethers.gwei) ;;
                                     ret (Some p))
                           | None => ret None
                           end ;;
                  call (Client.sendTransaction wallet to wei gasLimit price))
                 3 1000 ;;
         receipt <- call (wait tx) ;;
         ret {| Records.hash := hash tx;
                Records.from := from tx;
                Records.to := JS.or_string (Client.to tx) "";
                Records.value := JS.toString (Client.value tx);
                Records.gasLimit := JS.toString (Client.gasLimit tx);
                Records.gasPrice :=
                  JS.or_string (option_map JS.toString (Client.gasPrice tx)) "0";
                Records.gasUsed := JS.toString (gasUsed receipt);
                Records.blockNumber := blockNumber receipt;
                Records.blockHash := blockHash receipt;
                Records.transactionIndex := transactionIndex receipt;
                Records.status := PolygonContractManager.status_of (status receipt);
                Records.logs := logs receipt;
                Records.effectiveGasPrice :=
                  JS.or_string (option_map JS.toString (effectiveGasPrice receipt)) "0" |}
     end)
    (fun error =>
       if instanceof_PolygonError error then throw error
       else throw_new (new_PolygonNetworkError "Failed to send transaction" error)).

Definition signMessage (self : t) (message : string) : M JsError string :=
  try_catch
    (match wallet self with
     | None => throw (PolygonError "Wallet not initialized" "WALLET_NOT_INITIALIZED")
     | Some wallet => call (Client.signMessage wallet message)
     end)
    (fun error =>
       throw (PolygonError_with "Failed to sign message" "SIGNING_FAILED" (original error))).

Definition setWallet (self : t) (privateKey : string) : M JsError t :=
  try_catch
    (let validatedKey := Utils.validatePrivateKey privateKey in
     when (negb validatedKey)
          (throw (PolygonError "Invalid private key" "INVALID_PRIVATE_KEY")) ;;;
     w <- new_Wallet privateKey ;;
     ret {| config := config self; wallet := Some w |})
    (fun error =>
       if instanceof_PolygonError error then throw error
       else throw (PolygonError_with "Failed to set wallet" "WALLET_SET_FAILED"
                                     (original error))).

Definition disconnect (self : t) : M JsError t :=
  ret {| config := config self; wallet := None |}.
Definition createWallet (self : t) : M JsError Records.PolygonWallet :=
  try_catch
    (wallet <- call createRandom ;;
     phrase <- or_throw (Client.wallet_mnemonic wallet)
                        "Cannot read properties of null (reading 'phrase')" ;;
     ret {| Records.wallet_address := Client.wallet_address wallet;
            Records.wallet_privateKey := Client.wallet_privateKey wallet;
            Records.wallet_mnemonic := phrase;
            Records.wallet_publicKey := Client.wallet_publicKey wallet;
            Records.wallet_index := 0 |})
    (fun error =>
       throw (PolygonError_with "Failed to create wallet" "WALLET_CREATION_FAILED"
                                (original error))).

Definition createWalletFromMnemonic (self : t) (mnemonic : string) (index : Z)
  : M JsError Records.PolygonWallet :=
  try_catch
    (wallet <- or_throw (fromMnemonic mnemonic ("m/44'/60'/0'/0/" ++ JS.toString index))
                        "invalid mnemonic" ;;
     ret {| Records.wallet_address := Client.wallet_address wallet;
            Records.wallet_privateKey := Client.wallet_privateKey wallet;
            Records.wallet_mnemonic := mnemonic;
            Records.wallet_publicKey := Client.wallet_publicKey wallet;
            Records.wallet_index := index |})
    (fun error =>
       throw (PolygonError_with "Failed to create wallet from mnemonic"
                                "WALLET_CREATION_FAILED" (original error))).

Definition createWalletFromPrivateKey (self : t) (privateKey : string)
  : M JsError Records.PolygonWallet :=
  try_catch
    (let validatedKey := Utils.validatePrivateKey privateKey in
     when (negb validatedKey)
          (throw (PolygonError "Invalid private key" "INVALID_PRIVATE_KEY")) ;;;
     wallet <- new_Wallet privateKey ;;
     ret {| Records.wallet_address := Client.wallet_address wallet;
            Records.wallet_privateKey := Client.wallet_privateKey wallet;
            Records.wallet_mnemonic := "";
            Records.wallet_publicKey := Client.wallet_publicKey wallet;
            Records.wallet_index := 0 |})
    (fun error =>
       if instanceof_PolygonError error then throw error
       else throw (PolygonError_with "Failed to create wallet from private key"
                                     "WALLET_CREATION_FAILED" (original error))).

Definition getWalletTransactionCount (self : t) (address : string) : M JsError Z :=
  try_catch
    (let validatedAddress := Utils.validateAddress address in
     when (negb validatedAddress)
          (throw (PolygonError "Invalid address" "INVALID_ADDRESS")) ;;;
     call (getTransactionCount address))
    (fun error =>
       if instanceof_PolygonError error then throw error
       else throw_new (new_PolygonNetworkError
                         "Failed to get transaction count" error)).

Definition signTransaction (self : t) (transaction : any) : M JsError string :=
  try_catch
    (match wallet self with
     | None => throw (PolygonError "Wallet not initialized" "WALLET_NOT_INITIALIZED")
     | Some wallet => call (Client.signTransaction wallet transaction)
     end)
    (fun error =>
       throw (PolygonError_with "Failed to sign transaction" "SIGNING_FAILED"
                                (original error))).

Definition verifyMessage (self : t) (message signature : string) : M JsError string :=
  try_catch
    (or_throw (recoverSigner message signature) "invalid signature")
    (fun error =>
       throw (PolygonError_with "Failed to verify message" "VERIFICATION_FAILED"
                                (original error))).

Definition getWalletInfo (self : t) (address : string) : M JsError Records.WalletInfo :=
  try_catch
    (let validatedAddress := Utils.validateAddress address in
     when (negb validatedAddress)
          (throw (PolygonError "Invalid address" "INVALID_ADDRESS")) ;;;
     info <- Promise_all3 (getWalletBalance self address)
                          (getWalletTransactionCount self address)
                          (call (getCode address)) ;;
     let '(balance, transactionCount, code) := info in
     ret {| Records.info_address := address;
            Records.info_balance := balance;
            Records.info_transactionCount := transactionCount;
            Records.info_isContract := negb (code =? "0x")%string |})
    (fun error =>
       if instanceof_PolygonError error then throw error
       else throw_new (new_PolygonNetworkError "Failed to get wallet info" error)).

Definition estimateGas (self : t) (to : string) (value data : option string)
  : M JsError string :=
  try_catch
    (wei <- PolygonContractManager.optional_ether value ;;
     gasEstimate <- call (Client.estimateGas to data wei) ;;
     ret (JS.toString gasEstimate))
    (fun error => throw_new (new_PolygonNetworkError "Failed to estimate gas" error)).

Definition getGasPrice (self : t) : M JsError string :=
  try_catch
    (gasPrice <- call Client.getGasPrice ;;
     ret (JS.toString gasPrice))
    (fun error => throw_new (new_PolygonNetworkError "Failed to get gas price" error)).

Definition getFeeData (self : t) : M JsError Records.WalletFeeData :=
  try_catch
    (feeData <- call Client.getFeeData ;;
     ret {| Records.fee_gasPrice :=
              JS.or_string (option_map JS.toString (Client.fee_gasPrice feeData)) "0";
            Records.fee_maxFeePerGas :=
              option_map JS.toString (Client.fee_maxFeePerGas feeData);
            Records.fee_maxPriorityFeePerGas :=
              option_map JS.toString (Client.fee_maxPriorityFeePerGas feeData) |})
    (fun error => throw_new (new_PolygonNetworkError "Failed to get fee data" error)).

Definition getCurrentWallet (self : t) : M JsError (option Records.PolygonWallet) :=
  match wallet self with
  | None => ret None
  | Some wallet =>
      ret (Some {| Records.wallet_address := Client.wallet_address wallet;
                   Records.wallet_privateKey := Client.wallet_privateKey wallet;
                   Records.wallet_mnemonic := "";
                   Records.wallet_publicKey := Client.wallet_publicKey wallet;
                   Records.wallet_index := 0 |})
  end.

End Manager.
End PolygonWalletManager.

(** ** The public operations of the managers, as one type *)

Module Operations.
Import Runtime Errors Types.
Section Operations.
Context {env : Environment} {chain : Client.Chain}.

Inductive Operation : Type :=
| License_createLicense (productId licenseType : string) (metadata : Metadata)
| License_getLicense (licenseId : string)
| License_updateLicense (licenseId : string) (updates : Metadata)
| License_revokeLicense (licenseId : string)
| License_getLicensesByOwner (ownerAddress : string)
| License_getLicenseCount
| License_isLicenseValid (licenseId : string)
| License_extendLicense (licenseId : string) (additionalTime : JS.number)
| NFT_mint (contractAddress to : string) (metadata : Metadata)
| NFT_getNFT (tokenId contractAddress : string)
| NFT_transfer (contractAddress tokenId from to : string)
| NFT_getNFTsByOwner (contractAddress ownerAddress : string)
| NFT_getTotalSupply (contractAddress : string)
| NFT_getOwner (contractAddress tokenId : string)
| NFT_approve (contractAddress tokenId to : string)
| NFT_getApproved (contractAddress tokenId : string)
| NFT_setApprovalForAll (contractAddress operator : string) (approved : bool)
| NFT_isApprovedForAll (contractAddress owner operator : string)
| NFT_getTokenURI (contractAddress tokenId : string)
| NFT_setTokenURI (contractAddress tokenId uri : string)
| DeFi_getPools
| DeFi_getPool (tokenA tokenB : string)
| DeFi_addLiquidity (tokenA tokenB amountA amountB : string)
| DeFi_removeLiquidity (tokenA tokenB lpTokenAmount : string)
| DeFi_swap (tokenIn tokenOut amountIn amountOutMin : string)
| DeFi_getQuote (tokenIn tokenOut amountIn : string)
| DeFi_getReserves (tokenA tokenB : string)
| DeFi_getPrice (tokenA tokenB : string)
| DeFi_getLiquidity (tokenA tokenB : string)
| Token_getTokenInfo (self : PolygonTokenManager.t) (tokenAddress : string)
| Token_getTokenBalance (self : PolygonTokenManager.t)
    (tokenAddress ownerAddress : string)
| Token_getTokenAllowance (self : PolygonTokenManager.t)
    (tokenAddress ownerAddress spenderAddress : string)
| Token_transferToken (self : PolygonTokenManager.t)
    (tokenAddress toAddress amount : string) (gasLimit : option Z)
| Token_approveToken (self : PolygonTokenManager.t)
    (tokenAddress spenderAddress amount : string) (gasLimit : option Z)
| Token_transferFromToken (self : PolygonTokenManager.t)
    (tokenAddress fromAddress toAddress amount : string) (gasLimit : option Z)
| Token_getTokenTransfers (self : PolygonTokenManager.t) (tokenAddress : string)
    (fromBlock toBlock : option Z)
| Token_getTokenTransfersByAddress (self : PolygonTokenManager.t)
    (tokenAddress address : string) (fromBlock toBlock : option Z)
| Token_getTokenHolders (self : PolygonTokenManager.t) (tokenAddress : string)
    (fromBlock toBlock : option Z)
| Token_getTokenSupply (self : PolygonTokenManager.t) (tokenAddress : string)
| Token_getTokenDecimals (self : PolygonTokenManager.t) (tokenAddress : string)
| Token_formatTokenAmount (self : PolygonTokenManager.t)
    (tokenAddress amount : string)
| Token_parseTokenAmount (self : PolygonTokenManager.t) (tokenAddress amount : string)
| Token_getTokenSymbol (self : PolygonTokenManager.t) (tokenAddress : string)
| Token_getTokenName (self : PolygonTokenManager.t) (tokenAddress : string)
| Token_disconnect (self : PolygonTokenManager.t)
| Contract_deployContract (self : PolygonContractManager.t) (bytecode : string)
    (abi : Client.Abi) (constructorArgs : list string) (gasLimit : option Z)
| Contract_getContract (self : PolygonContractManager.t) (address : string)
    (abi : Client.Abi)
| Contract_callContractMethod (self : PolygonContractManager.t)
    (contractAddress : string) (abi : Client.Abi) (methodName : string)
    (args : list string)
| Contract_sendContractTransaction (self : PolygonContractManager.t)
    (contractAddress : string) (abi : Client.Abi) (methodName : string)
    (args : list string) (options : Client.Overrides)
| Contract_getContractEvents (self : PolygonContractManager.t)
    (contractAddress : string) (abi : Client.Abi) (eventName : string)
    (fromBlock toBlock : option Z)
| Contract_getContractBalance (self : PolygonContractManager.t) (address : string)
| Contract_getContractCode (self : PolygonContractManager.t) (address : string)
| Contract_isContract (self : PolygonContractManager.t) (address : string)
| Contract_getContractStorageAt (self : PolygonContractManager.t)
    (address position : string)
| Contract_estimateGas (self : PolygonContractManager.t) (to data : string)
    (value : option string)
| Contract_getTransactionCount (self : PolygonContractManager.t) (address : string)
| Contract_getTransaction (self : PolygonContractManager.t) (txHash : string)
| Contract_waitForTransaction (self : PolygonContractManager.t) (txHash : string)
    (confirmations : Z)
| Contract_getCurrentBlockNumber (self : PolygonContractManager.t)
| Contract_getBlock (self : PolygonContractManager.t) (blockNumber : Z)
| Contract_getNetwork (self : PolygonContractManager.t)
| Contract_getGasPrice (self : PolygonContractManager.t)
| Contract_getFeeData (self : PolygonContractManager.t)
| Contract_disconnect (self : PolygonContractManager.t)
| Wallet_createWallet (self : PolygonWalletManager.t)
| Wallet_createWalletFromMnemonic (self : PolygonWalletManager.t) (mnemonic : string)
    (index : Z)
| Wallet_createWalletFromPrivateKey (self : PolygonWalletManager.t)
    (privateKey : string)
| Wallet_getWalletBalance (self : PolygonWalletManager.t) (address : string)
| Wallet_getWalletTransactionCount (self : PolygonWalletManager.t) (address : string)
| Wallet_sendTransaction (self : PolygonWalletManager.t) (to value : string)
    (gasLimit : option Z) (gasPrice : option string)
| Wallet_signMessage (self : PolygonWalletManager.t) (message : string)
| Wallet_signTransaction (self : PolygonWalletManager.t) (transaction : Client.any)
| Wallet_verifyMessage (self : PolygonWalletManager.t) (message signature : string)
| Wallet_getWalletInfo (self : PolygonWalletManager.t) (address : string)
| Wallet_estimateGas (self : PolygonWalletManager.t) (to : string)
    (value data : option string)
| Wallet_getGasPrice (self : PolygonWalletManager.t)
| Wallet_getFeeData (self : PolygonWalletManager.t)
| Wallet_getCurrentWallet (self : PolygonWalletManager.t)
| Wallet_setWallet (self : PolygonWalletManager.t) (privateKey : string)
| Wallet_disconnect (self : PolygonWalletManager.t).

(** The error an asynchronous function fails with, if it fails. *)
Definition failure_of {A} (m : M JsError A) (s : St) : option JsError :=
  match fst (m s) with
  | inl e => Some e
  | inr _ => None
  end.

Definition invoke (o : Operation) : St -> option JsError :=
  match o with
  | License_createLicense productId licenseType metadata =>
      failure_of (PolygonLicenseManager.createLicense productId licenseType metadata)
  | License_getLicense licenseId =>
      failure_of (PolygonLicenseManager.getLicense licenseId)
  | License_updateLicense licenseId updates =>
      failure_of (PolygonLicenseManager.updateLicense licenseId updates)
  | License_revokeLicense licenseId =>
      failure_of (PolygonLicenseManager.revokeLicense licenseId)
  | License_getLicensesByOwner ownerAddress =>
      failure_of (PolygonLicenseManager.getLicensesByOwner ownerAddress)
  | License_getLicenseCount =>
      failure_of (PolygonLicenseManager.getLicenseCount)
  | License_isLicenseValid licenseId =>
      failure_of (PolygonLicenseManager.isLicenseValid licenseId)
  | License_extendLicense licenseId additionalTime =>
      failure_of (PolygonLicenseManager.extendLicense licenseId additionalTime)
  | NFT_mint contractAddress to metadata =>
      failure_of (PolygonNFTManager.mint contractAddress to metadata)
  | NFT_getNFT tokenId contractAddress =>
      failure_of (PolygonNFTManager.getNFT tokenId contractAddress)
  | NFT_transfer contractAddress tokenId from to =>
      failure_of (PolygonNFTManager.transfer contractAddress tokenId from to)
  | NFT_getNFTsByOwner contractAddress ownerAddress =>
      failure_of (PolygonNFTManager.getNFTsByOwner contractAddress ownerAddress)
  | NFT_getTotalSupply contractAddress =>
      failure_of (PolygonNFTManager.getTotalSupply contractAddress)
  | NFT_getOwner contractAddress tokenId =>
      failure_of (PolygonNFTManager.getOwner contractAddress tokenId)
  | NFT_approve contractAddress tokenId to =>
      failure_of (PolygonNFTManager.approve contractAddress tokenId to)
  | NFT_getApproved contractAddress tokenId =>
      failure_of (PolygonNFTManager.getApproved contractAddress tokenId)
  | NFT_setApprovalForAll contractAddress operator approved =>
      failure_of (PolygonNFTManager.setApprovalForAll contractAddress operator
        approved)
  | NFT_isApprovedForAll contractAddress owner operator =>
      failure_of (PolygonNFTManager.isApprovedForAll contractAddress owner operator)
  | NFT_getTokenURI contractAddress tokenId =>
      failure_of (PolygonNFTManager.getTokenURI contractAddress tokenId)
  | NFT_setTokenURI contractAddress tokenId uri =>
      failure_of (PolygonNFTManager.setTokenURI contractAddress tokenId uri)
  | DeFi_getPools =>
      failure_of (PolygonDeFiManager.getPools)
  | DeFi_getPool tokenA tokenB =>
      failure_of (PolygonDeFiManager.getPool tokenA tokenB)
  | DeFi_addLiquidity tokenA tokenB amountA amountB =>
      failure_of (PolygonDeFiManager.addLiquidity tokenA tokenB amountA amountB)
  | DeFi_removeLiquidity tokenA tokenB lpTokenAmount =>
      failure_of (PolygonDeFiManager.removeLiquidity tokenA tokenB lpTokenAmount)
  | DeFi_swap tokenIn tokenOut amountIn amountOutMin =>
      failure_of (PolygonDeFiManager.swap tokenIn tokenOut amountIn amountOutMin)
  | DeFi_getQuote tokenIn tokenOut amountIn =>
      failure_of (PolygonDeFiManager.getQuote tokenIn tokenOut amountIn)
  | DeFi_getReserves tokenA tokenB =>
      failure_of (PolygonDeFiManager.getReserves tokenA tokenB)
  | DeFi_getPrice tokenA tokenB =>
      failure_of (PolygonDeFiManager.getPrice tokenA tokenB)
  | DeFi_getLiquidity tokenA tokenB =>
      failure_of (PolygonDeFiManager.getLiquidity tokenA tokenB)
  | Token_getTokenInfo self tokenAddress =>
      failure_of (PolygonTokenManager.getTokenInfo self tokenAddress)
  | Token_getTokenBalance self tokenAddress ownerAddress =>
      failure_of (PolygonTokenManager.getTokenBalance self tokenAddress ownerAddress)
  | Token_getTokenAllowance self tokenAddress ownerAddress spenderAddress =>
      failure_of (PolygonTokenManager.getTokenAllowance self tokenAddress ownerAddress
        spenderAddress)
  | Token_transferToken self tokenAddress toAddress amount gasLimit =>
      failure_of (PolygonTokenManager.transferToken self tokenAddress toAddress amount
        gasLimit)
  | Token_approveToken self tokenAddress spenderAddress amount gasLimit =>
      failure_of (PolygonTokenManager.approveToken self tokenAddress spenderAddress
        amount gasLimit)
  | Token_transferFromToken self tokenAddress fromAddress toAddress amount gasLimit =>
      failure_of (PolygonTokenManager.transferFromToken self tokenAddress fromAddress
        toAddress amount gasLimit)
  | Token_getTokenTransfers self tokenAddress fromBlock toBlock =>
      failure_of (PolygonTokenManager.getTokenTransfers self tokenAddress fromBlock
        toBlock)
  | Token_getTokenTransfersByAddress self tokenAddress address fromBlock toBlock =>
      failure_of (PolygonTokenManager.getTokenTransfersByAddress self tokenAddress
        address fromBlock toBlock)
  | Token_getTokenHolders self tokenAddress fromBlock toBlock =>
      failure_of (PolygonTokenManager.getTokenHolders self tokenAddress fromBlock
        toBlock)
  | Token_getTokenSupply self tokenAddress =>
      failure_of (PolygonTokenManager.getTokenSupply self tokenAddress)
  | Token_getTokenDecimals self tokenAddress =>
      failure_of (PolygonTokenManager.getTokenDecimals self tokenAddress)
  | Token_formatTokenAmount self tokenAddress amount =>
      failure_of (PolygonTokenManager.formatTokenAmount self tokenAddress amount)
  | Token_parseTokenAmount self tokenAddress amount =>
      failure_of (PolygonTokenManager.parseTokenAmount self tokenAddress amount)
  | Token_getTokenSymbol self tokenAddress =>
      failure_of (PolygonTokenManager.getTokenSymbol self tokenAddress)
  | Token_getTokenName self tokenAddress =>
      failure_of (PolygonTokenManager.getTokenName self tokenAddress)
  | Token_disconnect self =>
      failure_of (PolygonTokenManager.disconnect self)
  | Contract_deployContract self bytecode abi constructorArgs gasLimit =>
      failure_of (PolygonContractManager.deployContract self bytecode abi
        constructorArgs gasLimit)
  | Contract_getContract self address abi =>
      failure_of (PolygonContractManager.getContract self address abi)
  | Contract_callContractMethod self contractAddress abi methodName args =>
      failure_of (PolygonContractManager.callContractMethod self contractAddress abi
        methodName args)
  | Contract_sendContractTransaction self contractAddress abi methodName args options
      =>
      failure_of (PolygonContractManager.sendContractTransaction self contractAddress
        abi methodName args options)
  | Contract_getContractEvents self contractAddress abi eventName fromBlock toBlock =>
      failure_of (PolygonContractManager.getContractEvents self contractAddress abi
        eventName fromBlock toBlock)
  | Contract_getContractBalance self address =>
      failure_of (PolygonContractManager.getContractBalance self address)
  | Contract_getContractCode self address =>
      failure_of (PolygonContractManager.getContractCode self address)
  | Contract_isContract self address =>
      failure_of (PolygonContractManager.isContract self address)
  | Contract_getContractStorageAt self address position =>
      failure_of (PolygonContractManager.getContractStorageAt self address position)
  | Contract_estimateGas self to data value =>
      failure_of (PolygonContractManager.estimateGas self to data value)
  | Contract_getTransactionCount self address =>
      failure_of (PolygonContractManager.getTransactionCount self address)
  | Contract_getTransaction self txHash =>
      failure_of (PolygonContractManager.getTransaction self txHash)
  | Contract_waitForTransaction self txHash confirmations =>
      failure_of (PolygonContractManager.waitForTransaction self txHash confirmations)
  | Contract_getCurrentBlockNumber self =>
      failure_of (PolygonContractManager.getCurrentBlockNumber self)
  | Contract_getBlock self blockNumber =>
      failure_of (PolygonContractManager.getBlock self blockNumber)
  | Contract_getNetwork self =>
      failure_of (PolygonContractManager.getNetwork self)
  | Contract_getGasPrice self =>
      failure_of (PolygonContractManager.getGasPrice self)
  | Contract_getFeeData self =>
      failure_of (PolygonContractManager.getFeeData self)
  | Contract_disconnect self =>
      failure_of (PolygonContractManager.disconnect self)
  | Wallet_createWallet self =>
      failure_of (PolygonWalletManager.createWallet self)
  | Wallet_createWalletFromMnemonic self mnemonic index =>
      failure_of (PolygonWalletManager.createWalletFromMnemonic self mnemonic index)
  | Wallet_createWalletFromPrivateKey self privateKey =>
      failure_of (PolygonWalletManager.createWalletFromPrivateKey self privateKey)
  | Wallet_getWalletBalance self address =>
      failure_of (PolygonWalletManager.getWalletBalance self address)
  | Wallet_getWalletTransactionCount self address =>
      failure_of (PolygonWalletManager.getWalletTransactionCount self address)
  | Wallet_sendTransaction self to value gasLimit gasPrice =>
      failure_of (PolygonWalletManager.sendTransaction self to value gasLimit
        gasPrice)
  | Wallet_signMessage self message =>
      failure_of (PolygonWalletManager.signMessage self message)
  | Wallet_signTransaction self transaction =>
      failure_of (PolygonWalletManager.signTransaction self transaction)
  | Wallet_verifyMessage self message signature =>
      failure_of (PolygonWalletManager.verifyMessage self message signature)
  | Wallet_getWalletInfo self address =>
      failure_of (PolygonWalletManager.getWalletInfo self address)
  | Wallet_estimateGas self to value data =>
      failure_of (PolygonWalletManager.estimateGas self to value data)
  | Wallet_getGasPrice self =>
      failure_of (PolygonWalletManager.getGasPrice self)
  | Wallet_getFeeData self =>
      failure_of (PolygonWalletManager.getFeeData self)
  | Wallet_getCurrentWallet self =>
      failure_of (PolygonWalletManager.getCurrentWallet self)
  | Wallet_setWallet self privateKey =>
      failure_of (PolygonWalletManager.setWallet self privateKey)
  | Wallet_disconnect self =>
      failure_of (PolygonWalletManager.disconnect self)
  end.

(** The codes of the errors each operation makes, read off its source:
    those of its [new PolygonError(..)] and of the subclasses that
    [errors.ts] declares. *)
Definition codes (o : Operation) : list string :=
  match o with
  | License_createLicense _ _ _ => ["CREATE_LICENSE_ERROR"]
  | License_getLicense _ => ["LICENSE_NOT_FOUND"]
  | License_updateLicense _ _ => ["UPDATE_LICENSE_ERROR"]
  | License_revokeLicense _ => ["REVOKE_LICENSE_ERROR"]
  | License_getLicensesByOwner _ => ["GET_LICENSES_ERROR"]
  | License_getLicenseCount => ["LICENSE_COUNT_ERROR"]
  | License_isLicenseValid _ => ["LICENSE_VALIDITY_ERROR"]
  | License_extendLicense _ _ => ["INVALID_AMOUNT"; "EXTEND_LICENSE_ERROR"]
  | NFT_mint _ _ _ => ["MINT_ERROR"]
  | NFT_getNFT _ _ => ["NFT_NOT_FOUND"]
  | NFT_transfer _ _ _ _ => ["TRANSFER_ERROR"]
  | NFT_getNFTsByOwner _ _ => ["GET_NFTS_ERROR"]
  | NFT_getTotalSupply _ => ["TOTAL_SUPPLY_ERROR"]
  | NFT_getOwner _ _ => ["OWNER_ERROR"]
  | NFT_approve _ _ _ => ["APPROVE_ERROR"]
  | NFT_getApproved _ _ => ["GET_APPROVED_ERROR"]
  | NFT_setApprovalForAll _ _ _ => ["SET_APPROVAL_FOR_ALL_ERROR"]
  | NFT_isApprovedForAll _ _ _ => ["IS_APPROVED_FOR_ALL_ERROR"]
  | NFT_getTokenURI _ _ => ["TOKEN_URI_ERROR"]
  | NFT_setTokenURI _ _ _ => ["SET_TOKEN_URI_ERROR"]
  | DeFi_getPools => ["GET_POOLS_ERROR"]
  | DeFi_getPool _ _ => ["GET_POOL_ERROR"]
  | DeFi_addLiquidity _ _ _ _ => ["INVALID_AMOUNT"; "ADD_LIQUIDITY_ERROR"]
  | DeFi_removeLiquidity _ _ _ => ["INVALID_AMOUNT"; "REMOVE_LIQUIDITY_ERROR"]
  | DeFi_swap _ _ _ _ => ["INVALID_AMOUNT"; "SWAP_ERROR"]
  | DeFi_getQuote _ _ _ => ["INVALID_AMOUNT"; "QUOTE_ERROR"]
  | DeFi_getReserves _ _ => ["RESERVES_ERROR"]
  | DeFi_getPrice _ _ => ["PRICE_ERROR"]
  | DeFi_getLiquidity _ _ => ["LIQUIDITY_ERROR"]
  | Token_getTokenInfo _ _ => ["INVALID_ADDRESS"]
  | Token_getTokenBalance _ _ _ => []
  | Token_getTokenAllowance _ _ _ _ => []
  | Token_transferToken _ _ _ _ _ => ["SIGNER_REQUIRED"]
  | Token_approveToken _ _ _ _ _ => ["SIGNER_REQUIRED"]
  | Token_transferFromToken _ _ _ _ _ _ => ["SIGNER_REQUIRED"]
  | Token_getTokenTransfers _ _ _ _ => []
  | Token_getTokenTransfersByAddress _ _ _ _ _ => []
  | Token_getTokenHolders _ _ _ _ => []
  | Token_getTokenSupply _ _ => []
  | Token_getTokenDecimals _ _ => []
  | Token_formatTokenAmount _ _ _ => []
  | Token_parseTokenAmount _ _ _ => []
  | Token_getTokenSymbol _ _ => []
  | Token_getTokenName _ _ => []
  | Token_disconnect _ => []
  | Contract_deployContract _ _ _ _ _ => ["SIGNER_REQUIRED"]
  | Contract_getContract _ _ _ => ["INVALID_ADDRESS"]
  | Contract_callContractMethod _ _ _ _ _ => ["INVALID_ADDRESS"]
  | Contract_sendContractTransaction _ _ _ _ _ _ =>
      ["SIGNER_REQUIRED"; "INVALID_ADDRESS"]
  | Contract_getContractEvents _ _ _ _ _ _ => ["INVALID_ADDRESS"]
  | Contract_getContractBalance _ _ => []
  | Contract_getContractCode _ _ => []
  | Contract_isContract _ _ => []
  | Contract_getContractStorageAt _ _ _ => []
  | Contract_estimateGas _ _ _ _ => []
  | Contract_getTransactionCount _ _ => []
  | Contract_getTransaction _ _ => []
  | Contract_waitForTransaction _ _ _ => []
  | Contract_getCurrentBlockNumber _ => []
  | Contract_getBlock _ _ => []
  | Contract_getNetwork _ => []
  | Contract_getGasPrice _ => []
  | Contract_getFeeData _ => []
  | Contract_disconnect _ => []
  | Wallet_createWallet _ => ["WALLET_CREATION_FAILED"]
  | Wallet_createWalletFromMnemonic _ _ _ => ["WALLET_CREATION_FAILED"]
  | Wallet_createWalletFromPrivateKey _ _ =>
      ["INVALID_PRIVATE_KEY"; "WALLET_CREATION_FAILED"]
  | Wallet_getWalletBalance _ _ => ["INVALID_ADDRESS"]
  | Wallet_getWalletTransactionCount _ _ => ["INVALID_ADDRESS"]
  | Wallet_sendTransaction _ _ _ _ _ => ["WALLET_NOT_INITIALIZED"; "INVALID_ADDRESS"]
  | Wallet_signMessage _ _ => ["SIGNING_FAILED"]
  | Wallet_signTransaction _ _ => ["SIGNING_FAILED"]
  | Wallet_verifyMessage _ _ _ => ["VERIFICATION_FAILED"]
  | Wallet_getWalletInfo _ _ => ["INVALID_ADDRESS"]
  | Wallet_estimateGas _ _ _ _ => []
  | Wallet_getGasPrice _ => []
  | Wallet_getFeeData _ => []
  | Wallet_getCurrentWallet _ => []
  | Wallet_setWallet _ _ => ["INVALID_PRIVATE_KEY"; "WALLET_SET_FAILED"]
  | Wallet_disconnect _ => []
  end.
End Operations.
End Operations.


(** *** What an operation leaves behind, and the manager it belongs to *)

Module Effects.
Import Runtime Errors Types Operations.
Section Effects.
Context {env : Environment} {chain : Client.Chain}.

(** The state once the asynchronous function has settled. *)
Definition state_after {A} (m : M JsError A) (s : St) : St := snd (m s).

Definition after (o : Operation) : St -> St :=
  match o with
  | License_createLicense productId licenseType metadata =>
      state_after (PolygonLicenseManager.createLicense productId licenseType metadata)
  | License_getLicense licenseId =>
      state_after (PolygonLicenseManager.getLicense licenseId)
  | License_updateLicense licenseId updates =>
      state_after (PolygonLicenseManager.updateLicense licenseId updates)
  | License_revokeLicense licenseId =>
      state_after (PolygonLicenseManager.revokeLicense licenseId)
  | License_getLicensesByOwner ownerAddress =>
      state_after (PolygonLicenseManager.getLicensesByOwner ownerAddress)
  | License_getLicenseCount =>
      state_after (PolygonLicenseManager.getLicenseCount)
  | License_isLicenseValid licenseId =>
      state_after (PolygonLicenseManager.isLicenseValid licenseId)
  | License_extendLicense licenseId additionalTime =>
      state_after (PolygonLicenseManager.extendLicense licenseId additionalTime)
  | NFT_mint contractAddress to metadata =>
      state_after (PolygonNFTManager.mint contractAddress to metadata)
  | NFT_getNFT tokenId contractAddress =>
      state_after (PolygonNFTManager.getNFT tokenId contractAddress)
  | NFT_transfer contractAddress tokenId from to =>
      state_after (PolygonNFTManager.transfer contractAddress tokenId from to)
  | NFT_getNFTsByOwner contractAddress ownerAddress =>
      state_after (PolygonNFTManager.getNFTsByOwner contractAddress ownerAddress)
  | NFT_getTotalSupply contractAddress =>
      state_after (PolygonNFTManager.getTotalSupply contractAddress)
  | NFT_getOwner contractAddress tokenId =>
      state_after (PolygonNFTManager.getOwner contractAddress tokenId)
  | NFT_approve contractAddress tokenId to =>
      state_after (PolygonNFTManager.approve contractAddress tokenId to)
  | NFT_getApproved contractAddress tokenId =>
      state_after (PolygonNFTManager.getApproved contractAddress tokenId)
  | NFT_setApprovalForAll contractAddress operator approved =>
      state_after (PolygonNFTManager.setApprovalForAll contractAddress operator
        approved)
  | NFT_isApprovedForAll contractAddress owner operator =>
      state_after (PolygonNFTManager.isApprovedForAll contractAddress owner operator)
  | NFT_getTokenURI contractAddress tokenId =>
      state_after (PolygonNFTManager.getTokenURI contractAddress tokenId)
  | NFT_setTokenURI contractAddress tokenId uri =>
      state_after (PolygonNFTManager.setTokenURI contractAddress tokenId uri)
  | DeFi_getPools =>
      state_after (PolygonDeFiManager.getPools)
  | DeFi_getPool tokenA tokenB =>
      state_after (PolygonDeFiManager.getPool tokenA tokenB)
  | DeFi_addLiquidity tokenA tokenB amountA amountB =>
      state_after (PolygonDeFiManager.addLiquidity tokenA tokenB amountA amountB)
  | DeFi_removeLiquidity tokenA tokenB lpTokenAmount =>
      state_after (PolygonDeFiManager.removeLiquidity tokenA tokenB lpTokenAmount)
  | DeFi_swap tokenIn tokenOut amountIn amountOutMin =>
      state_after (PolygonDeFiManager.swap tokenIn tokenOut amountIn amountOutMin)
  | DeFi_getQuote tokenIn tokenOut amountIn =>
      state_after (PolygonDeFiManager.getQuote tokenIn tokenOut amountIn)
  | DeFi_getReserves tokenA tokenB =>
      state_after (PolygonDeFiManager.getReserves tokenA tokenB)
  | DeFi_getPrice tokenA tokenB =>
      state_after (PolygonDeFiManager.getPrice tokenA tokenB)
  | DeFi_getLiquidity tokenA tokenB =>
      state_after (PolygonDeFiManager.getLiquidity tokenA tokenB)
  | Token_getTokenInfo self tokenAddress =>
      state_after (PolygonTokenManager.getTokenInfo self tokenAddress)
  | Token_getTokenBalance self tokenAddress ownerAddress =>
      state_after (PolygonTokenManager.getTokenBalance self tokenAddress ownerAddress)
  | Token_getTokenAllowance self tokenAddress ownerAddress spenderAddress =>
      state_after (PolygonTokenManager.getTokenAllowance self tokenAddress
        ownerAddress spenderAddress)
  | Token_transferToken self tokenAddress toAddress amount gasLimit =>
      state_after (PolygonTokenManager.transferToken self tokenAddress toAddress
        amount gasLimit)
  | Token_approveToken self tokenAddress spenderAddress amount gasLimit =>
      state_after (PolygonTokenManager.approveToken self tokenAddress spenderAddress
        amount gasLimit)
  | Token_transferFromToken self tokenAddress fromAddress toAddress amount gasLimit =>
      state_after (PolygonTokenManager.transferFromToken self tokenAddress fromAddress
        toAddress amount gasLimit)
  | Token_getTokenTransfers self tokenAddress fromBlock toBlock =>
      state_after (PolygonTokenManager.getTokenTransfers self tokenAddress fromBlock
        toBlock)
  | Token_getTokenTransfersByAddress self tokenAddress address fromBlock toBlock =>
      state_after (PolygonTokenManager.getTokenTransfersByAddress self tokenAddress
        address fromBlock toBlock)
  | Token_getTokenHolders self tokenAddress fromBlock toBlock =>
      state_after (PolygonTokenManager.getTokenHolders self tokenAddress fromBlock
        toBlock)
  | Token_getTokenSupply self tokenAddress =>
      state_after (PolygonTokenManager.getTokenSupply self tokenAddress)
  | Token_getTokenDecimals self tokenAddress =>
      state_after (PolygonTokenManager.getTokenDecimals self tokenAddress)
  | Token_formatTokenAmount self tokenAddress amount =>
      state_after (PolygonTokenManager.formatTokenAmount self tokenAddress amount)
  | Token_parseTokenAmount self tokenAddress amount =>
      state_after (PolygonTokenManager.parseTokenAmount self tokenAddress amount)
  | Token_getTokenSymbol self tokenAddress =>
      state_after (PolygonTokenManager.getTokenSymbol self tokenAddress)
  | Token_getTokenName self tokenAddress =>
      state_after (PolygonTokenManager.getTokenName self tokenAddress)
  | Token_disconnect self =>
      state_after (PolygonTokenManager.disconnect self)
  | Contract_deployContract self bytecode abi constructorArgs gasLimit =>
      state_after (PolygonContractManager.deployContract self bytecode abi
        constructorArgs gasLimit)
  | Contract_getContract self address abi =>
      state_after (PolygonContractManager.getContract self address abi)
  | Contract_callContractMethod self contractAddress abi methodName args =>
      state_after (PolygonContractManager.callContractMethod self contractAddress abi
        methodName args)
  | Contract_sendContractTransaction self contractAddress abi methodName args options
      =>
      state_after (PolygonContractManager.sendContractTransaction self contractAddress
        abi methodName args options)
  | Contract_getContractEvents self contractAddress abi eventName fromBlock toBlock =>
      state_after (PolygonContractManager.getContractEvents self contractAddress abi
        eventName fromBlock toBlock)
  | Contract_getContractBalance self address =>
      state_after (PolygonContractManager.getContractBalance self address)
  | Contract_getContractCode self address =>
      state_after (PolygonContractManager.getContractCode self address)
  | Contract_isContract self address =>
      state_after (PolygonContractManager.isContract self address)
  | Contract_getContractStorageAt self address position =>
      state_after (PolygonContractManager.getContractStorageAt self address position)
  | Contract_estimateGas self to data value =>
      state_after (PolygonContractManager.estimateGas self to data value)
  | Contract_getTransactionCount self address =>
      state_after (PolygonContractManager.getTransactionCount self address)
  | Contract_getTransaction self txHash =>
      state_after (PolygonContractManager.getTransaction self txHash)
  | Contract_waitForTransaction self txHash confirmations =>
      state_after (PolygonContractManager.waitForTransaction self txHash
        confirmations)
  | Contract_getCurrentBlockNumber self =>
      state_after (PolygonContractManager.getCurrentBlockNumber self)
  | Contract_getBlock self blockNumber =>
      state_after (PolygonContractManager.getBlock self blockNumber)
  | Contract_getNetwork self =>
      state_after (PolygonContractManager.getNetwork self)
  | Contract_getGasPrice self =>
      state_after (PolygonContractManager.getGasPrice self)
  | Contract_getFeeData self =>
      state_after (PolygonContractManager.getFeeData self)
  | Contract_disconnect self =>
      state_after (PolygonContractManager.disconnect self)
  | Wallet_createWallet self =>
      state_after (PolygonWalletManager.createWallet self)
  | Wallet_createWalletFromMnemonic self mnemonic index =>
      state_after (PolygonWalletManager.createWalletFromMnemonic self mnemonic index)
  | Wallet_createWalletFromPrivateKey self privateKey =>
      state_after (PolygonWalletManager.createWalletFromPrivateKey self privateKey)
  | Wallet_getWalletBalance self address =>
      state_after (PolygonWalletManager.getWalletBalance self address)
  | Wallet_getWalletTransactionCount self address =>
      state_after (PolygonWalletManager.getWalletTransactionCount self address)
  | Wallet_sendTransaction self to value gasLimit gasPrice =>
      state_after (PolygonWalletManager.sendTransaction self to value gasLimit
        gasPrice)
  | Wallet_signMessage self message =>
      state_after (PolygonWalletManager.signMessage self message)
  | Wallet_signTransaction self transaction =>
      state_after (PolygonWalletManager.signTransaction self transaction)
  | Wallet_verifyMessage self message signature =>
      state_after (PolygonWalletManager.verifyMessage self message signature)
  | Wallet_getWalletInfo self address =>
      state_after (PolygonWalletManager.getWalletInfo self address)
  | Wallet_estimateGas self to value data =>
      state_after (PolygonWalletManager.estimateGas self to value data)
  | Wallet_getGasPrice self =>
      state_after (PolygonWalletManager.getGasPrice self)
  | Wallet_getFeeData self =>
      state_after (PolygonWalletManager.getFeeData self)
  | Wallet_getCurrentWallet self =>
      state_after (PolygonWalletManager.getCurrentWallet self)
  | Wallet_setWallet self privateKey =>
      state_after (PolygonWalletManager.setWallet self privateKey)
  | Wallet_disconnect self =>
      state_after (PolygonWalletManager.disconnect self)
  end.

Inductive Manager : Type := License | NFT | DeFi | Token | Contract | Wallet.

Definition manager_of (o : Operation) : Manager :=
  match o with
  | License_createLicense _ _ _ => License
  | License_getLicense _ => License
  | License_updateLicense _ _ => License
  | License_revokeLicense _ => License
  | License_getLicensesByOwner _ => License
  | License_getLicenseCount => License
  | License_isLicenseValid _ => License
  | License_extendLicense _ _ => License
  | NFT_mint _ _ _ => NFT
  | NFT_getNFT _ _ => NFT
  | NFT_transfer _ _ _ _ => NFT
  | NFT_getNFTsByOwner _ _ => NFT
  | NFT_getTotalSupply _ => NFT
  | NFT_getOwner _ _ => NFT
  | NFT_approve _ _ _ => NFT
  | NFT_getApproved _ _ => NFT
  | NFT_setApprovalForAll _ _ _ => NFT
  | NFT_isApprovedForAll _ _ _ => NFT
  | NFT_getTokenURI _ _ => NFT
  | NFT_setTokenURI _ _ _ => NFT
  | DeFi_getPools => DeFi
  | DeFi_getPool _ _ => DeFi
  | DeFi_addLiquidity _ _ _ _ => DeFi
  | DeFi_removeLiquidity _ _ _ => DeFi
  | DeFi_swap _ _ _ _ => DeFi
  | DeFi_getQuote _ _ _ => DeFi
  | DeFi_getReserves _ _ => DeFi
  | DeFi_getPrice _ _ => DeFi
  | DeFi_getLiquidity _ _ => DeFi
  | Token_getTokenInfo _ _ => Token
  | Token_getTokenBalance _ _ _ => Token
  | Token_getTokenAllowance _ _ _ _ => Token
  | Token_transferToken _ _ _ _ _ => Token
  | Token_approveToken _ _ _ _ _ => Token
  | Token_transferFromToken _ _ _ _ _ _ => Token
  | Token_getTokenTransfers _ _ _ _ => Token
  | Token_getTokenTransfersByAddress _ _ _ _ _ => Token
  | Token_getTokenHolders _ _ _ _ => Token
  | Token_getTokenSupply _ _ => Token
  | Token_getTokenDecimals _ _ => Token
  | Token_formatTokenAmount _ _ _ => Token
  | Token_parseTokenAmount _ _ _ => Token
  | Token_getTokenSymbol _ _ => Token
  | Token_getTokenName _ _ => Token
  | Token_disconnect _ => Token
  | Contract_deployContract _ _ _ _ _ => Contract
  | Contract_getContract _ _ _ => Contract
  | Contract_callContractMethod _ _ _ _ _ => Contract
  | Contract_sendContractTransaction _ _ _ _ _ _ => Contract
  | Contract_getContractEvents _ _ _ _ _ _ => Contract
  | Contract_getContractBalance _ _ => Contract
  | Contract_getContractCode _ _ => Contract
  | Contract_isContract _ _ => Contract
  | Contract_getContractStorageAt _ _ _ => Contract
  | Contract_estimateGas _ _ _ _ => Contract
  | Contract_getTransactionCount _ _ => Contract
  | Contract_getTransaction _ _ => Contract
  | Contract_waitForTransaction _ _ _ => Contract
  | Contract_getCurrentBlockNumber _ => Contract
  | Contract_getBlock _ _ => Contract
  | Contract_getNetwork _ => Contract
  | Contract_getGasPrice _ => Contract
  | Contract_getFeeData _ => Contract
  | Contract_disconnect _ => Contract
  | Wallet_createWallet _ => Wallet
  | Wallet_createWalletFromMnemonic _ _ _ => Wallet
  | Wallet_createWalletFromPrivateKey _ _ => Wallet
  | Wallet_getWalletBalance _ _ => Wallet
  | Wallet_getWalletTransactionCount _ _ => Wallet
  | Wallet_sendTransaction _ _ _ _ _ => Wallet
  | Wallet_signMessage _ _ => Wallet
  | Wallet_signTransaction _ _ => Wallet
  | Wallet_verifyMessage _ _ _ => Wallet
  | Wallet_getWalletInfo _ _ => Wallet
  | Wallet_estimateGas _ _ _ _ => Wallet
  | Wallet_getGasPrice _ => Wallet
  | Wallet_getFeeData _ => Wallet
  | Wallet_getCurrentWallet _ => Wallet
  | Wallet_setWallet _ _ => Wallet
  | Wallet_disconnect _ => Wallet
  end.

(** The managers whose operations are placeholders. *)
Definition placeholder (o : Operation) : bool :=
  match manager_of o with
  | License | NFT | DeFi => true
  | _ => false
  end.
End Effects.
End Effects.

(** ** Concrete environments and operations used as examples *)

Module Examples.
(** The outside world is a clock in milliseconds. *)
Definition clock : Environment :=
  {| World := Z;
     elapse := fun ms w => w + ms;
     now := fun _ => "1970-01-01T00:00:00.000Z" |}.

(** Fails whenever it is invoked, with the time of the invocation. *)
Definition always_down (w : @World clock) : (Z + Z) * @World clock :=
  (inl w, w + 1).

(** Fails until the clock reaches [t], then returns the time. *)
Definition up_after (t : Z) (w : @World clock) : (Z + Z) * @World clock :=
  if w <? t then (inl w, w + 1) else (inr w, w + 1).

Definition start : @Runtime.St clock := @Runtime.mkSt clock 0 [].

(** A chain node that cannot be reached: every request fails. *)
Definition wallet_of (privateKey : string) : option Client.Wallet :=
  Some {| Client.wallet_address := "0xA1E4380A3B1f749673E270229993eE55F35663b4";
          Client.wallet_privateKey := privateKey;
          Client.wallet_publicKey := "0x04";
          Client.wallet_mnemonic := None |}.

Definition offline : @Client.Chain clock :=
  {| Client.request := fun A _ w => (inl "could not detect network", w);
     Client.isAddress := fun _ => true;
     Client.walletOfKey := wallet_of;
     Client.fromMnemonic := fun _ _ => None;
     Client.recoverSigner := fun _ _ => None;
     Client.isAbi := fun _ => true;
     Client.isBytecode := fun _ => true;
     Client.hasEvent := fun _ _ => true;
     Client.deployData := fun factory _ => Some (Client.factory_bytecode factory) |}.

Definition sample_tx : Client.TransactionResponse :=
  {| Client.hash := "0x5c504ed432cb51138bcf09aa5e8a410dd4a1e204ef84bfed1be16dfba1b22060";
     Client.from := "0xA1E4380A3B1f749673E270229993eE55F35663b4";
     Client.to := Some "0x5DF9B87991262F6BA471F09758CDE1c0FC1De734";
     Client.value := 31337;
     Client.gasLimit := 21000;
     Client.gasPrice := Some 50000000000 |}.

(** A node that knows [sample_tx] as submitted but not yet mined: the
    transaction is found, its receipt is not. *)
Definition mempool : @Client.Chain clock :=
  {| Client.request := fun A (r : Client.Request A) w =>
       match r in Client.Request A return (string + A) * @World clock with
       | Client.getTransaction _ => (inr (Some sample_tx), w)
       | Client.getTransactionReceipt _ => (inr None, w)
       | _ => (inl "could not detect network", w)
       end;
     Client.isAddress := fun _ => true;
     Client.walletOfKey := wallet_of;
     Client.fromMnemonic := fun _ _ => None;
     Client.recoverSigner := fun _ _ => None;
     Client.isAbi := fun _ => true;
     Client.isBytecode := fun _ => true;
     Client.hasEvent := fun _ _ => true;
     Client.deployData := fun factory _ => Some (Client.factory_bytecode factory) |}.

(** An unreachable node, behind a library that takes the strings of 42
    characters for addresses. *)
Definition picky : @Client.Chain clock :=
  {| Client.request := fun A _ w => (inl "could not detect network", w);
     Client.isAddress := fun address => (String.length address =? 42)%nat;
     Client.walletOfKey := wallet_of;
     Client.fromMnemonic := fun _ _ => None;
     Client.recoverSigner := fun _ _ => None;
     Client.isAbi := fun _ => true;
     Client.isBytecode := fun _ => true;
     Client.hasEvent := fun _ _ => true;
     Client.deployData := fun factory _ => Some (Client.factory_bytecode factory) |}.

(** A token with two decimals on a node that answers this question and
    rejects every other request. *)
Definition congested : @Client.Chain clock :=
  {| Client.request := fun A (r : Client.Request A) w =>
       match r in Client.Request A return (string + A) * @World clock with
       | Client.erc20_decimals _ => (inr 2, w)
       | _ => (inl "replacement fee too low", w)
       end;
     Client.isAddress := fun _ => true;
     Client.walletOfKey := wallet_of;
     Client.fromMnemonic := fun _ _ => None;
     Client.recoverSigner := fun _ _ => None;
     Client.isAbi := fun _ => true;
     Client.isBytecode := fun _ => true;
     Client.hasEvent := fun _ _ => true;
     Client.deployData := fun factory _ => Some (Client.factory_bytecode factory) |}.

(** A manager that holds the wallet of the key [0x01]. *)
Definition funded : Client.Wallet :=
  {| Client.wallet_address := "0xA1E4380A3B1f749673E270229993eE55F35663b4";
     Client.wallet_privateKey := "0x01";
     Client.wallet_publicKey := "0x04";
     Client.wallet_mnemonic := None |}.

(** The history of a token: 50 units minted to an address, which then
    sends 20 of them to another one. *)
Definition minted : Client.TransferLog :=
  {| Client.args_from := "0x0000000000000000000000000000000000000000";
     Client.args_to := "0xA1E4380A3B1f749673E270229993eE55F35663b4";
     Client.args_value := 50;
     Client.transfer_transactionHash := "0x01";
     Client.transfer_blockNumber := 1;
     Client.transfer_logIndex := 0 |}.

Definition sent : Client.TransferLog :=
  {| Client.args_from := "0xA1E4380A3B1f749673E270229993eE55F35663b4";
     Client.args_to := "0x5DF9B87991262F6BA471F09758CDE1c0FC1De734";
     Client.args_value := 20;
     Client.transfer_transactionHash := "0x02";
     Client.transfer_blockNumber := 2;
     Client.transfer_logIndex := 0 |}.

(** A node whose history of the token is these two logs. *)
Definition archive : @Client.Chain clock :=
  {| Client.request := fun A (r : Client.Request A) w =>
       match r in Client.Request A return (string + A) * @World clock with
       | Client.queryTransfers _ _ _ _ _ => (inr [minted; sent], w)
       | _ => (inl "could not detect network", w)
       end;
     Client.isAddress := fun _ => true;
     Client.walletOfKey := wallet_of;
     Client.fromMnemonic := fun _ _ => None;
     Client.recoverSigner := fun _ _ => None;
     Client.isAbi := fun _ => true;
     Client.isBytecode := fun _ => true;
     Client.hasEvent := fun _ _ => true;
     Client.deployData := fun factory _ => Some (Client.factory_bytecode factory) |}.

(** A node that has never heard of any transaction. *)
Definition fresh : @Client.Chain clock :=
  {| Client.request := fun A (r : Client.Request A) w =>
       match r in Client.Request A return (string + A) * @World clock with
       | Client.getTransaction _ => (inr None, w)
       | _ => (inl "could not detect network", w)
       end;
     Client.isAddress := fun _ => true;
     Client.walletOfKey := wallet_of;
     Client.fromMnemonic := fun _ _ => None;
     Client.recoverSigner := fun _ _ => None;
     Client.isAbi := fun _ => true;
     Client.isBytecode := fun _ => true;
     Client.hasEvent := fun _ _ => true;
     Client.deployData := fun factory _ => Some (Client.factory_bytecode factory) |}.

(** A source of random numbers driven by the clock: the hundredths of
    the time, which then moves on. *)
Definition hundredths (w : @World clock) : Q * @World clock :=
  (Qmake (w mod 100) 100, w + 37).

(** A configuration without a private key. *)
Definition read_only : Types.PolygonConfig :=
  {| Types.rpcUrl := "https://polygon-rpc.com";
     Types.privateKey := None;
     Types.networkId := 137;
     Types.gasPrice := None;
     Types.gasLimit := None |}.
End Examples.

(** ** Notions of the specification *)

Module Spec.
(** Section 3: an amount is a string of decimal digits; it is rejected
    when it is empty, does not parse, or is zero. *)
Definition parses (amount : string) : bool :=
  match list_ascii_of_string amount with
  | [] => false
  | l => forallb Ethers.is_digit l
  end.

Definition invalid_amount (amount : string) : bool :=
  negb (parses amount)
  || (Ethers.value_of (list_ascii_of_string amount) =? 0).

(** What the managers test: the empty string and the literal "0". *)
Definition empty_or_zero (amount : string) : bool :=
  JS.falsy amount || (amount =? "0")%string.

(** A configuration that carries no private key. *)
Definition no_private_key (config : Types.PolygonConfig) : bool :=
  match Types.privateKey config with
  | Some key => JS.falsy key
  | None => true
  end.

(** An error of the taxonomy whose code is one of [allowed]. *)
Definition typed (allowed : list string) (e : Errors.JsError) : Prop :=
  Errors.instanceof_PolygonError e = true /\
  exists c, Errors.code e = Some c /\ In c allowed.

(** A plain exception, or an error of the taxonomy with a code of [allowed]. *)
Definition raw_or (allowed : list string) (e : Errors.JsError) : Prop :=
  Errors.instanceof_PolygonError e = false \/ typed allowed e.

(** The exception of [new PolygonNetworkError(..)], or an error of the
    taxonomy with a code of [allowed]. *)
Definition typed_or_missing (allowed : list string) (e : Errors.JsError) : Prop :=
  e = Errors.not_a_constructor "PolygonNetworkError" \/ typed allowed e.

(** The characters [formatFixed] prints for a non-negative value. *)
Definition printed (n decimals : Z) : list ascii :=
  let whole := JS.digits (n / 10 ^ decimals) in
  if (Z.to_nat decimals =? 0)%nat then whole
  else
    let fraction := JS.digits (n mod 10 ^ decimals) in
    whole ++ "."%char
          :: Ethers.strip_fraction (Ethers.pad_start (Z.to_nat decimals) fraction).

(** What the [try] block of a placeholder throws. *)
Definition placeholder_error (e : Errors.JsError) : Prop :=
  (exists msg, e = Errors.Error msg) \/
  (exists amount, e = Errors.InvalidAmountError amount).

(** Every error [m] can throw satisfies [P]. *)
Definition throws {env : Environment} {A} (P : Errors.JsError -> Prop)
           (m : Runtime.M Errors.JsError A) : Prop :=
  forall s e s', m s = (inl e, s') -> P e.
End Spec.

(** ** Notions used to state the properties of the token ledger *)

Module Ledger.
(** What the logs move into and out of an account. *)
Definition inflow (account : string) (events : list Client.TransferLog) : Z :=
  fold_right Z.add 0
    (map Client.args_value
         (filter (fun event => (Client.args_to event =? account)%string) events)).

Definition outflow (account : string) (events : list Client.TransferLog) : Z :=
  fold_right Z.add 0
    (map Client.args_value
         (filter (fun event => (Client.args_from event =? account)%string) events)).

Definition net (account : string) (events : list Client.TransferLog) : Z :=
  inflow account events - outflow account events.

(** A log as the library decodes it: the amount is not negative, and
    the two addresses are written with the prefix [0x] (none of them is
    an array index or a name that every object inherits). *)
Definition well_formed (event : Client.TransferLog) : Prop :=
  0 <= Client.args_value event /\
  String.prefix "0x" (Client.args_from event) = true /\
  String.prefix "0x" (Client.args_to event) = true.
End Ledger.

(** ** The runs of a debounced and of a throttled function

    What a program can observe of the two closures: the calls it makes
    ([Called]) and the calls of [func] that result ([Invoked]), each with
    its time.  Between them time passes, and a pending timer may run
    once it is due. *)

Module Schedule.
Section Schedule.
Variable Args : Type.

Inductive Observed : Type :=
| Called (t : Z) (args : Args)
| Invoked (t : Z) (args : Args).

(** The times at which [func] ran. *)
Definition invocations (tr : list Observed) : list Z :=
  flat_map (fun ev => match ev with Invoked t _ => [t] | Called _ _ => [] end) tr.

(** The times at which the closure was called. *)
Definition calls (tr : list Observed) : list Z :=
  flat_map (fun ev => match ev with Called t _ => [t] | Invoked _ _ => [] end) tr.

(** [func] runs right after the call whose arguments it gets. *)
Definition synchronous (tr : list Observed) : Prop :=
  forall pre t args post,
    tr = pre ++ Invoked t args :: post -> exists pre', pre = pre' ++ [Called t args].

(** [func] runs right after the call whose arguments it gets (no other
    call lies between the two), [wait] ms later at least. *)
Definition settled_calls (wait : Z) (tr : list Observed) : Prop :=
  forall pre t args post,
    tr = pre ++ Invoked t args :: post ->
    exists pre' t0, pre = pre' ++ [Called t0 args] /\ t0 + wait <= t.

Section Debounce.
Variable wait : Z.

Definition with_loop (st : Utils.Debounced Args) (l : EventLoop.Loop Args)
  : Utils.Debounced Args :=
  {| Utils.timeout := Utils.timeout st; Utils.debounce_loop := l |}.

Inductive debounce_run : list Observed -> Utils.Debounced Args -> Prop :=
| debounce_created (t0 : Z) : debounce_run [] (Utils.debounce Args t0)
| debounce_waits tr st (t : Z) :
    debounce_run tr st -> EventLoop.time (Utils.debounce_loop st) <= t ->
    debounce_run tr (with_loop st (EventLoop.advance t (Utils.debounce_loop st)))
| debounce_called tr st (args : Args) :
    debounce_run tr st ->
    debounce_run (tr ++ [Called (EventLoop.time (Utils.debounce_loop st)) args])
                 (Utils.debounced wait args st)
| debounce_fires tr st (timer : EventLoop.Timer Args) :
    debounce_run tr st ->
    In timer (EventLoop.pending (Utils.debounce_loop st)) ->
    EventLoop.due timer <= EventLoop.time (Utils.debounce_loop st) ->
    debounce_run
      (tr ++ [Invoked (EventLoop.time (Utils.debounce_loop st))
                      (EventLoop.callback timer)])
      (with_loop st (EventLoop.without (EventLoop.handle timer)
                                       (Utils.debounce_loop st))).
End Debounce.

Section Throttle.
Variable limit : Z.

(** A run of a throttled function shows, beside the calls, how each
    call of [func] ends. *)
Inductive Step : Type :=
| seen (ev : Observed)
| ended (t : Z) (c : Utils.Completion).

Definition observed (tr : list Step) : list Observed :=
  flat_map (fun step => match step with seen ev => [ev] | ended _ _ => [] end) tr.

(** What comes right after a call of [func] that returns before the
    closure is called again, or that is still running. *)
Definition returned_at_once (next : list Step) : bool :=
  match next with
  | [] => true
  | ended _ Utils.returned :: _ => true
  | _ => false
  end.

(** [func] neither throws nor calls the closure. *)
Fixpoint well_behaved (tr : list Step) : bool :=
  match tr with
  | [] => true
  | seen (Invoked _ _) :: rest => returned_at_once rest && well_behaved rest
  | _ :: rest => well_behaved rest
  end.

Definition released (st : Utils.Throttled) (l : EventLoop.Loop unit) : Utils.Throttled :=
  Utils.release {| Utils.inThrottle := Utils.inThrottle st; Utils.throttle_loop := l |}.

Definition moved (st : Utils.Throttled) (l : EventLoop.Loop unit) : Utils.Throttled :=
  {| Utils.inThrottle := Utils.inThrottle st; Utils.throttle_loop := l |}.

(** The runs, with the number of calls of [func] that have not ended
    yet: it is more than one when [func] calls the closure and the
    closure calls [func] again.  Time may pass at any point; a timer
    runs only when no call is under way. *)
Inductive throttle_run : list Step -> Utils.Throttled -> nat -> Prop :=
| throttle_created (t0 : Z) : throttle_run [] (Utils.throttle t0) O
| throttle_waits tr st depth (t : Z) :
    throttle_run tr st depth -> EventLoop.time (Utils.throttle_loop st) <= t ->
    throttle_run tr (moved st (EventLoop.advance t (Utils.throttle_loop st))) depth
| throttle_dropped tr st depth (args : Args) :
    throttle_run tr st depth ->
    Utils.throttled_calls st = false ->
    throttle_run (tr ++ [seen (Called (EventLoop.time (Utils.throttle_loop st)) args)])
                 st depth
| throttle_enters tr st depth (args : Args) :
    throttle_run tr st depth ->
    Utils.throttled_calls st = true ->
    throttle_run
      (tr ++ [seen (Called (EventLoop.time (Utils.throttle_loop st)) args);
              seen (Invoked (EventLoop.time (Utils.throttle_loop st)) args)])
      st (S depth)
| throttle_leaves tr st depth (c : Utils.Completion) :
    throttle_run tr st (S depth) ->
    throttle_run (tr ++ [ended (EventLoop.time (Utils.throttle_loop st)) c])
                 (Utils.throttled_after limit c st) depth
| throttle_fires tr st (timer : EventLoop.Timer unit) :
    throttle_run tr st O ->
    In timer (EventLoop.pending (Utils.throttle_loop st)) ->
    EventLoop.due timer <= EventLoop.time (Utils.throttle_loop st) ->
    throttle_run tr
      (released st (EventLoop.without (EventLoop.handle timer) (Utils.throttle_loop st)))
      O.
End Throttle.
End Schedule.
End Schedule.

(** * Properties *)

(** ** The retry helper *)

Section RetryFacts.
Import Runtime Utils.
Context {env : Environment}.
Variables E T : Type.
Variable f : World -> (E + T) * World.
Variables maxRetries delay : Z.

Lemma op_run (s : St) :
  op f s = (fst (f (world s)),
            {| world := snd (f (world s)); trace := trace s ++ [EvOp] |}).
Proof. unfold op. destruct (f (world s)); reflexivity. Qed.

Lemma attempt_success tries s v :
  fst (f (world s)) = inr v ->
  attempt (op f) maxRetries delay tries s
  = (inr v, {| world := snd (f (world s)); trace := trace s ++ [EvOp] |}).
Proof.
  intros Hf. simp attempt. rewrite op_run, Hf. simp attempt. reflexivity.
Qed.

Lemma attempt_last_failure tries s e :
  fst (f (world s)) = inl e -> tries + 1 >= maxRetries ->
  attempt (op f) maxRetries delay tries s
  = (inl e, {| world := snd (f (world s)); trace := trace s ++ [EvOp] |}).
Proof.
  intros Hf Hn. simp attempt. rewrite op_run, Hf. simp attempt.
  destruct (Z_ge_dec (tries + 1) maxRetries); [|lia]. simp attempt. reflexivity.
Qed.

Lemma attempt_retry tries s e :
  fst (f (world s)) = inl e -> tries + 1 < maxRetries ->
  attempt (op f) maxRetries delay tries s
  = attempt (op f) maxRetries delay (tries + 1)
      (setTimeout (delay * 2 ^ tries)
         {| world := snd (f (world s)); trace := trace s ++ [EvOp] |}).
Proof.
  intros Hf Hn. rewrite attempt_equation_1 at 1. rewrite op_run, Hf. simp attempt.
  destruct (Z_ge_dec (tries + 1) maxRetries); [lia|]. simp attempt.
  replace (tries + 1 - 1) with tries by lia. reflexivity.
Qed.

Import RetrySpec.

Lemma failure_inv (r : E + T) : is_failure r -> exists e, r = inl e.
Proof. destruct r; simpl; [eauto | tauto]. Qed.

Lemma backoff_succ (k : nat) : backoff delay (S k) = delay * 2 ^ Z.of_nat k.
Proof. unfold backoff. f_equal. f_equal. lia. Qed.

(** While attempts keep failing below the cap, the run is the run of
    the closure from the state the specification predicts. *)
Lemma attempt_prefix (k : nat) w tr :
  (forall i, (i < k)%nat -> is_failure (fst (f (world_before f delay i w)))) ->
  (k = 0%nat \/ Z.of_nat k < maxRetries) ->
  attempt (op f) maxRetries delay 0 (mkSt w tr)
  = attempt (op f) maxRetries delay (Z.of_nat k)
      (mkSt (world_before f delay k w) (tr ++ failed_attempts delay k)).
Proof.
  induction k as [|k IH]; intros Hfail Hcap.
  - simpl. rewrite app_nil_r. reflexivity.
  - destruct Hcap as [Hz|Hcap]; [discriminate|].
    rewrite IH by (auto with arith; right; lia).
    destruct (failure_inv _ (Hfail k (Nat.lt_succ_diag_r k))) as [e He].
    rewrite attempt_retry with (e := e) by (cbn [world]; first [exact He | lia]).
    replace (Z.of_nat k + 1) with (Z.of_nat (S k)) by lia.
    f_equal. unfold setTimeout. cbn [world trace world_before failed_attempts].
    rewrite backoff_succ, <- !app_assoc. reflexivity.
Qed.

Lemma invocations_app tr1 tr2 :
  invocations (tr1 ++ tr2) = (invocations tr1 + invocations tr2)%nat.
Proof. unfold invocations. rewrite filter_app, length_app. reflexivity. Qed.

Lemma invocations_failed_attempts k :
  invocations (failed_attempts delay k) = k.
Proof.
  induction k as [|k IH]; [reflexivity|].
  cbn [failed_attempts]. rewrite invocations_app, IH. cbn. lia.
Qed.

Lemma timers_app tr1 tr2 : timers (tr1 ++ tr2) = timers tr1 ++ timers tr2.
Proof. unfold timers. apply flat_map_app. Qed.

Lemma total_wait_app tr1 tr2 :
  total_wait (tr1 ++ tr2) = total_wait tr1 + total_wait tr2.
Proof.
  unfold total_wait. rewrite timers_app.
  induction (timers tr1) as [|x l IH]; simpl; lia.
Qed.

Lemma timers_failed_attempts k :
  List.length (timers (failed_attempts delay k)) = k.
Proof.
  induction k as [|k IH]; [reflexivity|].
  cbn [failed_attempts]. rewrite timers_app, length_app, IH. cbn. lia.
Qed.

Lemma total_wait_failed_attempts k :
  total_wait (failed_attempts delay k) = delay * (2 ^ Z.of_nat k - 1).
Proof.
  induction k as [|k IH]; [cbn; lia|].
  cbn [failed_attempts]. rewrite total_wait_app, IH, backoff_succ.
  replace (total_wait [EvOp; EvTimer (delay * 2 ^ Z.of_nat k)])
    with (delay * 2 ^ Z.of_nat k) by (unfold total_wait; cbn; lia).
  rewrite Nat2Z.inj_succ, Z.pow_succ_r by lia. lia.
Qed.

(** Every run of the closure starts by invoking the operation, and
    only adds to the trace. *)
Lemma attempt_trace tries s :
  exists rest,
    trace (snd (attempt (op f) maxRetries delay tries s)) = trace s ++ EvOp :: rest.
Proof.
  remember (Z.to_nat (maxRetries - tries)) as n eqn:Hn.
  revert tries s Hn.
  induction n as [n IH] using lt_wf_ind. intros tries s Hn.
  destruct (fst (f (world s))) as [e|v] eqn:Hf.
  - destruct (Z_ge_dec (tries + 1) maxRetries) as [Hge|Hlt].
    + rewrite attempt_last_failure with (e := e) by assumption. exists []. reflexivity.
    + rewrite attempt_retry with (e := e) by first [assumption | lia].
      edestruct (IH (Z.to_nat (maxRetries - (tries + 1)))) as [rest Hrest];
        [lia | reflexivity |].
      rewrite Hrest. unfold setTimeout. cbn [trace].
      exists (EvTimer (delay * 2 ^ tries) :: EvOp :: rest).
      rewrite <- !app_assoc. reflexivity.
  - rewrite attempt_success with (v := v) by assumption. exists []. reflexivity.
Qed.
End RetryFacts.

Section RetryClaims.
Import Runtime Utils RetrySpec.
Context {env : Environment}.
Variables E T : Type.
Variable f : World -> (E + T) * World.

(** C1 (retry termination).  An operation that fails on every
    invocation is invoked exactly [N] times by [retry f N D], for
    [N >= 1] and [D >= 0], and the promise is then rejected with the
    very error of the [N]-th invocation. *)
Theorem retry_always_failing (N D : Z) (w : World) (tr : list Event) :
  1 <= N -> 0 <= D ->
  (forall w', is_failure (fst (f w'))) ->
  exists e s',
    retry (op f) N D (mkSt w tr) = (inl e, s') /\
    nth_outcome f D (Z.to_nat N) w = inl e /\
    invocations (trace s') = (invocations tr + Z.to_nat N)%nat /\
    trace s' = tr ++ failed_attempts D (Z.to_nat N - 1) ++ [EvOp].
Proof.
  intros HN HD Hfail.
  set (k := (Z.to_nat N - 1)%nat).
  destruct (failure_inv _ (Hfail (world_before f D k w))) as [e He].
  exists e. eexists. unfold retry.
  rewrite attempt_prefix with (k := k) by (auto; right; lia).
  rewrite attempt_last_failure with (e := e) by (cbn [world]; first [exact He | lia]).
  repeat split; cbn [world trace].
  - unfold nth_outcome. replace (Nat.pred (Z.to_nat N)) with k by lia. exact He.
  - rewrite !invocations_app, invocations_failed_attempts. cbn. lia.
  - rewrite <- app_assoc. reflexivity.
Qed.

(** C2 (retry short-circuit).  If the operation succeeds on attempt
    [K <= N], after failing on the attempts before it, [retry] resolves
    with the result of that attempt: the operation has been invoked
    exactly [K] times, and the trace ends with the [K]-th invocation, so
    nothing is invoked or scheduled after the success. *)
Theorem retry_short_circuit (N D : Z) (K : nat) (w : World) (tr : list Event) (v : T) :
  1 <= N -> (1 <= K)%nat -> Z.of_nat K <= N ->
  (forall i, (1 <= i < K)%nat -> is_failure (nth_outcome f D i w)) ->
  nth_outcome f D K w = inr v ->
  exists s',
    retry (op f) N D (mkSt w tr) = (inr v, s') /\
    trace s' = tr ++ failed_attempts D (K - 1) ++ [EvOp] /\
    invocations (trace s') = (invocations tr + K)%nat /\
    List.length (timers (trace s')) = (List.length (timers tr) + (K - 1))%nat.
Proof.
  intros HN HK HKN Hfail Hok. unfold nth_outcome in Hok.
  replace (Nat.pred K) with (K - 1)%nat in Hok by lia.
  eexists. unfold retry.
  rewrite attempt_prefix with (k := (K - 1)%nat).
  - rewrite attempt_success with (v := v) by exact Hok.
    repeat split; cbn [world trace].
    + rewrite <- app_assoc. reflexivity.
    + rewrite !invocations_app, invocations_failed_attempts. cbn. lia.
    + rewrite !timers_app, !length_app, timers_failed_attempts. cbn. lia.
  - intros i Hi. specialize (Hfail (S i)). unfold nth_outcome in Hfail.
    apply Hfail. lia.
  - destruct (Nat.eq_dec K 1); [left|right]; lia.
Qed.

(** C3 (backoff schedule).  When attempt [K >= 1] fails and is not the
    last one allowed, the timer set before attempt [K+1] is exactly
    [D * 2^(K-1)] milliseconds; the waits accumulated before attempt
    [K+1] add up to [D * (2^K - 1)], which is [D * (2^(K'-1) - 1)] for
    attempt [K' = K+1 > 1]. *)
Theorem retry_backoff_schedule (N D : Z) (K : nat) (w : World) (tr : list Event) :
  0 <= D -> (1 <= K)%nat -> Z.of_nat K < N ->
  (forall i, (1 <= i <= K)%nat -> is_failure (nth_outcome f D i w)) ->
  exists rest,
    trace (snd (retry (op f) N D (mkSt w tr)))
    = tr ++ failed_attempts D (K - 1)
         ++ [EvOp; EvTimer (D * 2 ^ (Z.of_nat K - 1)); EvOp] ++ rest /\
    total_wait (failed_attempts D (K - 1) ++ [EvOp; EvTimer (D * 2 ^ (Z.of_nat K - 1))])
    = D * (2 ^ (Z.of_nat (K + 1) - 1) - 1).
Proof.
  intros HD HK HKN Hfail. unfold retry.
  rewrite attempt_prefix with (k := K).
  - destruct (attempt_trace f N D (Z.of_nat K)
                (mkSt (world_before f D K w) (tr ++ failed_attempts D K)))
      as [rest Hrest].
    exists rest. rewrite Hrest. cbn [trace].
    destruct K as [|K]; [lia|].
    replace (S K - 1)%nat with K by lia.
    replace (Z.of_nat (S K) - 1) with (Z.of_nat K) by lia.
    replace (Z.of_nat (S K + 1) - 1) with (Z.of_nat (S K)) by lia.
    split.
    + cbn [failed_attempts]. rewrite backoff_succ, <- !app_assoc. reflexivity.
    + rewrite <- (total_wait_failed_attempts D (S K)).
      cbn [failed_attempts]. rewrite backoff_succ. reflexivity.
  - intros i Hi. specialize (Hfail (S i)). unfold nth_outcome in Hfail.
    apply Hfail. lia.
  - right. lia.
Qed.

(** C10.  With [maxRetries <= 1] (zero and negative values included)
    the operation is invoked exactly once: the promise settles as that
    invocation did, so a first failure is rejected at once with that
    error, and no timer is set. *)
Theorem retry_single_attempt (maxRetries delay : Z) (w : World) (tr : list Event) :
  maxRetries <= 1 ->
  retry (op f) maxRetries delay (mkSt w tr)
  = (fst (f w), mkSt (snd (f w)) (tr ++ [EvOp])).
Proof.
  intros Hn. unfold retry.
  destruct (fst (f w)) as [e|v] eqn:Hf.
  - rewrite attempt_last_failure with (e := e) by (cbn [world]; first [exact Hf | lia]).
    reflexivity.
  - rewrite attempt_success with (v := v) by exact Hf. reflexivity.
Qed.
End RetryClaims.

Lemma retry_always_failing_witness :
  exists e s',
    Utils.retry (Runtime.op Examples.always_down) 3 1000 Examples.start = (inl e, s') /\
    RetrySpec.nth_outcome Examples.always_down 1000 (Z.to_nat 3) 0 = inl e /\
    RetrySpec.invocations (Runtime.trace s')
    = (RetrySpec.invocations [] + Z.to_nat 3)%nat /\
    Runtime.trace s' = [] ++ RetrySpec.failed_attempts 1000 (Z.to_nat 3 - 1) ++ [EvOp].
Proof.
  apply (@retry_always_failing Examples.clock Z Z Examples.always_down 3 1000 0 []).
  - lia.
  - lia.
  - intros w'. exact I.
Defined.

Lemma retry_short_circuit_witness :
  exists s',
    Utils.retry (Runtime.op (Examples.up_after 3000)) 5 1000 Examples.start
    = (inr 3002, s') /\
    Runtime.trace s' = [] ++ RetrySpec.failed_attempts 1000 (3 - 1) ++ [EvOp] /\
    RetrySpec.invocations (Runtime.trace s') = (RetrySpec.invocations [] + 3)%nat /\
    List.length (RetrySpec.timers (Runtime.trace s'))
    = (List.length (RetrySpec.timers []) + (3 - 1))%nat.
Proof.
  apply (@retry_short_circuit Examples.clock Z Z (Examples.up_after 3000) 5 1000 3%nat
      0 [] 3002).
  - lia.
  - lia.
  - lia.
  - intros i Hi. assert (i = 1 \/ i = 2)%nat as [-> | ->] by lia; exact I.
  - reflexivity.
Defined.

Lemma retry_backoff_schedule_witness :
  exists rest,
    Runtime.trace (snd (Utils.retry (Runtime.op Examples.always_down) 4 1000
        Examples.start))
    = [] ++ RetrySpec.failed_attempts 1000 (2 - 1)
         ++ [EvOp; EvTimer (1000 * 2 ^ (Z.of_nat 2 - 1)); EvOp] ++ rest /\
    RetrySpec.total_wait
      (RetrySpec.failed_attempts 1000 (2 - 1) ++ [EvOp; EvTimer (1000 * 2 ^ (Z.of_nat 2
          - 1))])
    = 1000 * (2 ^ (Z.of_nat (2 + 1) - 1) - 1).
Proof.
  apply (@retry_backoff_schedule Examples.clock Z Z Examples.always_down 4 1000 2%nat 0
      []).
  - lia.
  - lia.
  - lia.
  - intros i Hi. exact I.
Defined.

Lemma retry_single_attempt_witness :
  Utils.retry (Runtime.op Examples.always_down) (-2) 1000 Examples.start
  = (fst (Examples.always_down 0),
     @Runtime.mkSt Examples.clock (snd (Examples.always_down 0)) ([] ++ [EvOp])).
Proof.
  apply (@retry_single_attempt Examples.clock Z Z Examples.always_down (-2) 1000 0 []).
  lia.
Defined.

(** ** Amounts *)

Section AmountClaims.
Import Runtime Errors.
Context {env : Environment}.

Lemma empty_or_zero_cond (a : string) :
  (JS.falsy a || (a =? "0")%string) = Spec.empty_or_zero a.
Proof. reflexivity. Qed.

(** C8 (amended).  An amount-taking operation that receives an empty
    amount or the literal "0" ([extendLicense]: a number not above zero)
    fails with the [InvalidAmountError] of that amount, whose code is
    INVALID_AMOUNT, thrown as it is; the state of the outside world and
    the trace are untouched, so nothing was requested before. *)
Theorem invalid_amount_fails_fast :
  (forall tokenA tokenB amountA amountB (s : St),
      Spec.empty_or_zero amountA = true \/ Spec.empty_or_zero amountB = true ->
      PolygonDeFiManager.addLiquidity tokenA tokenB amountA amountB s
      = (inl (InvalidAmountError (amountA ++ "-" ++ amountB)), s)) /\
  (forall tokenA tokenB lpTokenAmount (s : St),
      Spec.empty_or_zero lpTokenAmount = true ->
      PolygonDeFiManager.removeLiquidity tokenA tokenB lpTokenAmount s
      = (inl (InvalidAmountError lpTokenAmount), s)) /\
  (forall tokenIn tokenOut amountIn amountOutMin (s : St),
      Spec.empty_or_zero amountIn = true ->
      PolygonDeFiManager.swap tokenIn tokenOut amountIn amountOutMin s
      = (inl (InvalidAmountError amountIn), s)) /\
  (forall tokenIn tokenOut amountIn amountOutMin (s : St),
      Spec.empty_or_zero amountIn = false ->
      Spec.empty_or_zero amountOutMin = true ->
      PolygonDeFiManager.swap tokenIn tokenOut amountIn amountOutMin s
      = (inl (InvalidAmountError amountOutMin), s)) /\
  (forall tokenIn tokenOut amountIn (s : St),
      Spec.empty_or_zero amountIn = true ->
      PolygonDeFiManager.getQuote tokenIn tokenOut amountIn s
      = (inl (InvalidAmountError amountIn), s)) /\
  (forall licenseId (additionalTime : Z) (s : St),
      additionalTime <= 0 ->
      PolygonLicenseManager.extendLicense licenseId (JS.Int additionalTime) s
      = (inl (InvalidAmountError (JS.toString additionalTime)), s)) /\
  (forall amount, code (InvalidAmountError amount) = Some "INVALID_AMOUNT").
Proof.
  repeat split.
  - intros tokenA tokenB amountA amountB s H.
    unfold PolygonDeFiManager.addLiquidity, try_catch, bind, when.
    rewrite <- orb_assoc, !empty_or_zero_cond.
    replace (Spec.empty_or_zero amountA || Spec.empty_or_zero amountB) with true
      by (destruct H as [-> | ->]; [reflexivity | rewrite orb_true_r; reflexivity]).
    reflexivity.
  - intros tokenA tokenB lp s H.
    unfold PolygonDeFiManager.removeLiquidity, try_catch, bind, when.
    rewrite empty_or_zero_cond, H. reflexivity.
  - intros tokenIn tokenOut amountIn amountOutMin s H.
    unfold PolygonDeFiManager.swap, try_catch, bind, when.
    rewrite !empty_or_zero_cond, H. reflexivity.
  - intros tokenIn tokenOut amountIn amountOutMin s H1 H2.
    unfold PolygonDeFiManager.swap, try_catch, bind, when.
    rewrite !empty_or_zero_cond, H1, H2. reflexivity.
  - intros tokenIn tokenOut amountIn s H.
    unfold PolygonDeFiManager.getQuote, try_catch, bind, when.
    rewrite empty_or_zero_cond, H. reflexivity.
  - intros licenseId z s H.
    unfold PolygonLicenseManager.extendLicense, try_catch, bind, when, JS.le_zero.
    replace (z <=? 0) with true by (symmetry; apply Z.leb_le; exact H).
    reflexivity.
Qed.
End AmountClaims.

Lemma invalid_amount_fails_fast_witness :
  PolygonDeFiManager.swap "WMATIC" "USDC" "0" "1" Examples.start
  = (inl (Errors.InvalidAmountError "0"), Examples.start) /\
  PolygonLicenseManager.extendLicense "license-1" (JS.Int (-5)) Examples.start
  = (inl (Errors.InvalidAmountError (JS.toString (-5))), Examples.start).
Proof.
  split.
  - apply (proj1 (proj2 (proj2 (@invalid_amount_fails_fast Examples.clock)))).
      reflexivity.
  - apply (proj1 (proj2 (proj2 (proj2 (proj2 (proj2 (@invalid_amount_fails_fast
      Examples.clock))))))).
    lia.
Defined.

(** C8 as stated fails: an amount that does not parse is not detected.
    [swap] with the amount "abc" reaches the placeholder and fails with
    the code SWAP_ERROR. *)
Lemma invalid_amount_counterexample :
  ~ (forall tokenIn tokenOut amountIn amountOutMin (s : @Runtime.St Examples.clock),
        Spec.invalid_amount amountIn = true ->
        exists e s',
          PolygonDeFiManager.swap tokenIn tokenOut amountIn amountOutMin s = (inl e, s')
          /\ Errors.code e = Some "INVALID_AMOUNT").
Proof.
  intros H.
  destruct (H "WMATIC" "USDC" "abc" "1" Examples.start eq_refl) as (e & s' & Hrun & Hcode).
  vm_compute in Hrun. inversion Hrun; subst. discriminate Hcode.
Qed.

(** ** Signing identity *)

Section SignerClaims.
Import Runtime Errors Types Client.
Context {env : Environment} {chain : Chain}.

Lemma token_constructor_no_key (config : PolygonConfig) (s : St) :
  Spec.no_private_key config = true ->
  PolygonTokenManager.constructor config s
  = (inr {| PolygonTokenManager.config := config; PolygonTokenManager.signer := None
      |}, s).
Proof.
  unfold Spec.no_private_key, PolygonTokenManager.constructor.
  destruct (privateKey config) as [key|]; [intros ->|]; reflexivity.
Qed.

Lemma contract_constructor_no_key (config : PolygonConfig) (s : St) :
  Spec.no_private_key config = true ->
  PolygonContractManager.constructor config s
  = (inr {| PolygonContractManager.config := config;
            PolygonContractManager.signer := None |}, s).
Proof.
  unfold Spec.no_private_key, PolygonContractManager.constructor.
  destruct (privateKey config) as [key|]; [intros ->|]; reflexivity.
Qed.

Lemma wallet_constructor_no_key (config : PolygonConfig) (s : St) :
  Spec.no_private_key config = true ->
  PolygonWalletManager.constructor config s
  = (inr {| PolygonWalletManager.config := config;
            PolygonWalletManager.wallet := None |}, s).
Proof.
  unfold Spec.no_private_key, PolygonWalletManager.constructor.
  destruct (privateKey config) as [key|]; [intros ->|]; reflexivity.
Qed.

(** C7 (amended).  On managers built from a configuration without a
    private key, token transfer, approval and transferFrom, contract
    deployment and contract transactions fail with the code
    SIGNER_REQUIRED, and sending a native transaction fails with the code
    WALLET_NOT_INITIALIZED; in each case the outside world and the trace
    are as before the call, so no request was made. *)
Theorem signer_required_before_network (config : PolygonConfig) (s0 : St) :
  Spec.no_private_key config = true ->
  (exists self,
      PolygonTokenManager.constructor config s0 = (inr self, s0) /\
      (forall tokenAddress toAddress amount gasLimit s,
          PolygonTokenManager.transferToken self tokenAddress toAddress amount gasLimit
              s
          = (inl (PolygonError "Signer required for token transfer" "SIGNER_REQUIRED"), s)) /\
      (forall tokenAddress spenderAddress amount gasLimit s,
          PolygonTokenManager.approveToken self tokenAddress spenderAddress amount
              gasLimit s
          = (inl (PolygonError "Signer required for token approval" "SIGNER_REQUIRED"), s)) /\
      (forall tokenAddress fromAddress toAddress amount gasLimit s,
          PolygonTokenManager.transferFromToken self tokenAddress fromAddress toAddress
                                                amount gasLimit s
          = (inl (PolygonError "Signer required for transferFrom" "SIGNER_REQUIRED"), s))) /\
  (exists self,
      PolygonContractManager.constructor config s0 = (inr self, s0) /\
      (forall bytecode abi constructorArgs gasLimit s,
          PolygonContractManager.deployContract self bytecode abi constructorArgs
              gasLimit s
          = (inl (PolygonError "Signer required for contract deployment" "SIGNER_REQUIRED"), s)) /\
      (forall contractAddress abi methodName args options s,
          PolygonContractManager.sendContractTransaction self contractAddress abi
                                                         methodName args options s
          = (inl (PolygonError "Signer required for contract transactions" "SIGNER_REQUIRED"),
             s))) /\
  (exists self,
      PolygonWalletManager.constructor config s0 = (inr self, s0) /\
      (forall to value gasLimit gasPrice s,
          PolygonWalletManager.sendTransaction self to value gasLimit gasPrice s
          = (inl (PolygonError "Wallet not initialized" "WALLET_NOT_INITIALIZED"), s))).
Proof.
  intros Hkey. repeat split.
  - eexists. split; [apply token_constructor_no_key, Hkey|].
    repeat split; intros; reflexivity.
  - eexists. split; [apply contract_constructor_no_key, Hkey|].
    repeat split; intros; reflexivity.
  - eexists. split; [apply wallet_constructor_no_key, Hkey|].
    intros; reflexivity.
Qed.

(** The guard [if (error instanceof PolygonError) throw error] lets an
    error of the taxonomy raised in the [try] block through as it is,
    whatever the handler does otherwise. *)
Lemma guard_passes_through {A} (body : M JsError A) (otherwise : JsError -> M JsError A)
      (s s' : St) (e : JsError) :
  body s = (inl e, s') -> instanceof_PolygonError e = true ->
  try_catch body
            (fun error => if instanceof_PolygonError error then throw error
                          else otherwise error) s
  = (inl e, s').
Proof.
  intros Hbody Hinst. unfold try_catch. rewrite Hbody, Hinst. reflexivity.
Qed.

(** The guarded sibling of [signMessage]: [sendTransaction] lets the
    typed error of a missing wallet through as it is. *)
Lemma sendTransaction_passes_wallet_error (self : PolygonWalletManager.t)
      to value gasLimit gasPrice (s : St) :
  PolygonWalletManager.wallet self = None ->
  PolygonWalletManager.sendTransaction self to value gasLimit gasPrice s
  = (inl (PolygonError "Wallet not initialized" "WALLET_NOT_INITIALIZED"), s).
Proof.
  intros H. unfold PolygonWalletManager.sendTransaction, try_catch. rewrite H.
      reflexivity.
Qed.

(** C6 at its failing input.  [signMessage] on a manager without a wallet
    raises inside its [try] block a [PolygonError] with the code
    WALLET_NOT_INITIALIZED; what the caller gets is another error, with the
    code SIGNING_FAILED, that carries the first one as its data. *)
Theorem signMessage_rewraps_typed_error (self : PolygonWalletManager.t)
        (message : string) (s : St) :
  PolygonWalletManager.wallet self = None ->
  PolygonWalletManager.signMessage self message s
  = (inl (PolygonError_with "Failed to sign message" "SIGNING_FAILED"
            (original (PolygonError "Wallet not initialized" "WALLET_NOT_INITIALIZED"))),
     s).
Proof.
  intros H. unfold PolygonWalletManager.signMessage, try_catch. rewrite H. reflexivity.
Qed.

(** [signTransaction] does the same. *)
Lemma signTransaction_rewraps_typed_error (self : PolygonWalletManager.t)
      (transaction : any) (s : St) :
  PolygonWalletManager.wallet self = None ->
  PolygonWalletManager.signTransaction self transaction s
  = (inl (PolygonError_with "Failed to sign transaction" "SIGNING_FAILED"
            (original (PolygonError "Wallet not initialized" "WALLET_NOT_INITIALIZED"))),
     s).
Proof.
  intros H. unfold PolygonWalletManager.signTransaction, try_catch. rewrite H. reflexivity.
Qed.

(** A request that fails.  [getContractCode] catches the exception of the
    library, and the [new PolygonNetworkError(..)] of its handler throws
    in its turn; [isContract] catches that exception and its handler
    does the same: the caller gets the [TypeError], and neither the
    message of the library nor a code. *)
Lemma isContract_network_failure (self : PolygonContractManager.t)
      (address msg : string) (s : St) (w' : World) :
  request (getCode address) (world s) = (inl msg, w') ->
  fst (PolygonContractManager.isContract self address s)
  = inl (not_a_constructor "PolygonNetworkError").
Proof.
  intros H.
  unfold PolygonContractManager.isContract, PolygonContractManager.getContractCode,
    try_catch, bind, call.
  rewrite H. reflexivity.
Qed.

(** ** Transaction records *)

Lemma status_of_receipt (status : option Z) :
  PolygonContractManager.status_of status
  = match status with
    | Some z => if z =? 1 then success else failed
    | None => failed
    end.
Proof.
  destruct status as [[|[p|p|]|p]|]; reflexivity.
Qed.

(** With a receipt, the record carries the status of the receipt: success
    for the status code 1, failed for any other. *)
Lemma getTransaction_with_receipt (self : PolygonContractManager.t) (txHash : string)
      (s : St) tx receipt (w1 w2 : World) :
  request (getTransaction txHash) (world s) = (inr (Some tx), w1) ->
  request (getTransactionReceipt txHash) w1 = (inr (Some receipt), w2) ->
  exists record s',
    PolygonContractManager.getTransaction self txHash s = (inr (Some record), s') /\
    Records.status record
    = match status receipt with
      | Some z => if z =? 1 then success else failed
      | None => failed
      end.
Proof.
  intros Htx Hreceipt.
  unfold PolygonContractManager.getTransaction, try_catch, bind, call.
  rewrite Htx. cbn [world trace]. rewrite Hreceipt. cbn [world trace].
  eexists. eexists. split; [reflexivity|].
  cbn [Records.status]. apply status_of_receipt.
Qed.

(** C9 at its failing input.  When the transaction is known and has no
    receipt yet, the record [getTransaction] returns has the status
    [failed], not [pending]. *)
Theorem getTransaction_without_receipt (self : PolygonContractManager.t) (txHash :
    string)
        (s : St) tx (w1 w2 : World) :
  request (getTransaction txHash) (world s) = (inr (Some tx), w1) ->
  request (getTransactionReceipt txHash) w1 = (inr None, w2) ->
  exists record s',
    PolygonContractManager.getTransaction self txHash s = (inr (Some record), s') /\
    Records.status record = failed.
Proof.
  intros Htx Hreceipt.
  unfold PolygonContractManager.getTransaction, try_catch, bind, call.
  rewrite Htx. cbn [world trace]. rewrite Hreceipt. cbn [world trace].
  eexists. eexists. split; reflexivity.
Qed.
End SignerClaims.

Lemma signer_required_before_network_witness :
  (exists self,
      PolygonWalletManager.constructor (chain := Examples.offline) Examples.read_only
                                       Examples.start
      = (inr self, Examples.start) /\
      (forall to value gasLimit gasPrice s,
          PolygonWalletManager.sendTransaction (chain := Examples.offline)
                                               self to value gasLimit gasPrice s
          = (inl (Errors.PolygonError "Wallet not initialized" "WALLET_NOT_INITIALIZED"), s))).
Proof.
  exact (proj2 (proj2 (@signer_required_before_network Examples.clock Examples.offline
                         Examples.read_only Examples.start eq_refl))).
Defined.

(** C7 as stated fails for the native transaction send: on a wallet
    manager built without a private key the code of the error is
    WALLET_NOT_INITIALIZED, not SIGNER_REQUIRED. *)
Lemma signer_required_counterexample :
  ~ (forall config self to value gasLimit gasPrice (s : @Runtime.St Examples.clock),
        Spec.no_private_key config = true ->
        PolygonWalletManager.constructor (chain := Examples.offline) config s = (inr
            self, s) ->
        exists e s',
          PolygonWalletManager.sendTransaction (chain := Examples.offline)
                                               self to value gasLimit gasPrice s = (inl
                                                   e, s')
          /\ Errors.code e = Some "SIGNER_REQUIRED").
Proof.
  intros H.
  destruct (H Examples.read_only
              {| PolygonWalletManager.config := Examples.read_only;
                 PolygonWalletManager.wallet := None |}
              "0x5DF9B87991262F6BA471F09758CDE1c0FC1De734" "1.5" None None
              Examples.start eq_refl eq_refl)
    as (e & s' & Hrun & Hcode).
  vm_compute in Hrun. inversion Hrun; subst. discriminate Hcode.
Qed.

Lemma signMessage_rewraps_typed_error_witness :
  PolygonWalletManager.signMessage (chain := Examples.offline)
    {| PolygonWalletManager.config := Examples.read_only;
       PolygonWalletManager.wallet := None |}
    "hello" Examples.start
  = (inl (Errors.PolygonError_with "Failed to sign message" "SIGNING_FAILED"
            (Errors.original
               (Errors.PolygonError "Wallet not initialized" "WALLET_NOT_INITIALIZED"))),
     Examples.start).
Proof.
  apply (@signMessage_rewraps_typed_error Examples.clock Examples.offline).
  reflexivity.
Defined.

Lemma getTransaction_without_receipt_witness :
  exists record s',
    PolygonContractManager.getTransaction (chain := Examples.mempool)
      {| PolygonContractManager.config := Examples.read_only;
         PolygonContractManager.signer := None |}
      (Client.hash Examples.sample_tx) Examples.start
    = (inr (Some record), s') /\
    Records.status record = Types.failed.
Proof.
  apply (@getTransaction_without_receipt Examples.clock Examples.mempool _ _ _
           Examples.sample_tx 0 0); reflexivity.
Defined.

(** ** Error codes *)

Section ErrorCodes.
Import Runtime Errors Types Client Spec.
Context {env : Environment} {chain : Chain}.

Lemma throws_ret {A} P (a : A) : throws P (ret a).
Proof. intros s e s' H. discriminate H. Qed.

Lemma throws_throw {A} (P : JsError -> Prop) e : P e -> throws P (@throw _ _ A e).
Proof. intros HP s e' s' H. inversion H; subst. exact HP. Qed.

Lemma throws_bind {A B} P (m : M JsError A) (k : A -> M JsError B) :
  throws P m -> (forall a, throws P (k a)) -> throws P (bind m k).
Proof.
  intros Hm Hk s e s' H. unfold bind in H.
  destruct (m s) as [[e0|a] s1] eqn:Hms.
  - inversion H; subst. eapply Hm; eassumption.
  - eapply Hk; eassumption.
Qed.

Lemma throws_try_catch {A} (P Q : JsError -> Prop) (body : M JsError A) handler :
  throws Q body -> (forall e, Q e -> throws P (handler e)) ->
  throws P (try_catch body handler).
Proof.
  intros Hb Hh s e s' H. unfold try_catch in H.
  destruct (body s) as [[e0|a] s1] eqn:Hbs.
  - eapply Hh; [eapply Hb|]; eassumption.
  - discriminate H.
Qed.

Lemma throws_when P cond body : throws P body -> throws P (when cond body).
Proof. intros Hb. destruct cond; [exact Hb | apply throws_ret]. Qed.

Lemma throws_call {A} (P : JsError -> Prop) (r : Request A) :
  (forall msg, P (Error msg)) -> throws P (call r).
Proof.
  intros HP s e s' H. unfold call in H.
  destruct (request r (world s)) as [[msg|a] w']; inversion H; subst. apply HP.
Qed.

Lemma throws_lift {A} (P : JsError -> Prop) (r : JsError + A) :
  (forall e, r = inl e -> P e) -> throws P (lift r).
Proof. intros HP s e s' H. unfold lift in H. inversion H; subst. apply HP. reflexivity.
    Qed.

Lemma throws_attempt {A} (P : JsError -> Prop) (fn : M JsError A) maxRetries delay :
  throws P fn ->
  forall tries s e s', Utils.attempt fn maxRetries delay tries s = (inl e, s') -> P e.
Proof.
  intros Hfn tries s. funelim (Utils.attempt fn maxRetries delay tries s).
  - intros e0 s0 H. discriminate H.
  - intros e0 s0 H. inversion H; subst. eapply Hfn; eassumption.
  - intros e0 s0 H0. exact (H P Hfn e0 s0 H0).
Qed.

(** [retry] throws nothing but what the operation throws. *)
Lemma throws_retry {A} (P : JsError -> Prop) (fn : M JsError A) maxRetries delay :
  throws P fn -> throws P (Utils.retry fn maxRetries delay).
Proof. intros Hfn s e s' H. eapply throws_attempt; eassumption. Qed.

Lemma settled_returns {A} (m : M JsError A) s e s' :
  settled m s = (inl e, s') -> False.
Proof. unfold settled. destruct (m s). discriminate. Qed.

Lemma settled_inl {A} (P : JsError -> Prop) (m : M JsError A) s e s' :
  throws P m -> settled m s = (inr (inl e), s') -> P e.
Proof.
  intros Hm H. unfold settled in H. destruct (m s) as [r s1] eqn:Hms.
  inversion H; subst. eapply Hm; eassumption.
Qed.

Lemma throws_Promise_all4 {A B C D} P (a : M JsError A) (b : M JsError B)
      (c : M JsError C) (d : M JsError D) :
  throws P a -> throws P b -> throws P c -> throws P d ->
  throws P (Promise_all4 a b c d).
Proof.
  intros Ha Hb Hc Hd s e s' H. unfold Promise_all4, bind in H.
  destruct (settled a s) as [[e1|ra] s1] eqn:H1;
    [destruct (settled_returns _ _ H1)|].
  destruct (settled b s1) as [[e2|rb] s2] eqn:H2;
    [destruct (settled_returns _ _ H2)|].
  destruct (settled c s2) as [[e3|rc] s3] eqn:H3;
    [destruct (settled_returns _ _ H3)|].
  destruct (settled d s3) as [[e4|rd] s4] eqn:H4;
    [destruct (settled_returns _ _ H4)|].
  destruct ra as [ea|xa];
    [inversion H; subst; eapply settled_inl with (m := a); eassumption|].
  destruct rb as [eb|xb];
    [inversion H; subst; eapply settled_inl with (m := b); eassumption|].
  destruct rc as [ec|xc];
    [inversion H; subst; eapply settled_inl with (m := c); eassumption|].
  destruct rd as [ed|xd];
    [inversion H; subst; eapply settled_inl with (m := d); eassumption|].
  discriminate H.
Qed.

Lemma throws_Promise_all3 {A B C} P (a : M JsError A) (b : M JsError B)
      (c : M JsError C) :
  throws P a -> throws P b -> throws P c -> throws P (Promise_all3 a b c).
Proof.
  intros Ha Hb Hc s e s' H. unfold Promise_all3, bind in H.
  destruct (settled a s) as [[e1|ra] s1] eqn:H1;
    [destruct (settled_returns _ _ H1)|].
  destruct (settled b s1) as [[e2|rb] s2] eqn:H2;
    [destruct (settled_returns _ _ H2)|].
  destruct (settled c s2) as [[e3|rc] s3] eqn:H3;
    [destruct (settled_returns _ _ H3)|].
  destruct ra as [ea|xa];
    [inversion H; subst; eapply settled_inl with (m := a); eassumption|].
  destruct rb as [eb|xb];
    [inversion H; subst; eapply settled_inl with (m := b); eassumption|].
  destruct rc as [ec|xc];
    [inversion H; subst; eapply settled_inl with (m := c); eassumption|].
  discriminate H.
Qed.

Lemma throws_or_throw {A} (P : JsError -> Prop) (r : option A) msg :
  (forall m, P (Error m)) -> throws P (or_throw r msg).
Proof.
  intros HP. unfold or_throw. destruct r; [apply throws_ret | apply throws_throw, HP].
Qed.

Lemma throws_new_Filter (P : JsError -> Prop) contract eventName :
  (forall msg, P (TypeError msg)) -> throws P (new_Filter contract eventName).
Proof.
  intros HP. unfold new_Filter. destruct (hasEvent (contract_abi contract) eventName);
    [apply throws_ret | apply throws_throw, HP].
Qed.

Lemma throws_new_Wallet (P : JsError -> Prop) key :
  (forall msg, P (Error msg)) -> throws P (new_Wallet key).
Proof.
  intros HP. unfold new_Wallet. apply throws_or_throw, HP.
Qed.

Lemma throws_new_Contract (P : JsError -> Prop) address abi signer :
  (forall msg, P (Error msg)) -> throws P (new_Contract address abi signer).
Proof.
  intros HP. unfold new_Contract. destruct (isAbi abi);
    [apply throws_ret | apply throws_throw, HP].
Qed.

Lemma throws_new_ContractFactory (P : JsError -> Prop) abi bytecode signer :
  (forall msg, P (Error msg)) -> throws P (new_ContractFactory abi bytecode signer).
Proof.
  intros HP. unfold new_ContractFactory. destruct (isAbi abi && isBytecode bytecode);
    [apply throws_ret | apply throws_throw, HP].
Qed.

Lemma throws_getDeployTransaction (P : JsError -> Prop) factory args :
  (forall msg, P (Error msg)) -> throws P (getDeployTransaction factory args).
Proof.
  intros HP. unfold getDeployTransaction. destruct (deployData factory args);
    [apply throws_ret | apply throws_throw, HP].
Qed.

Lemma throws_then_on_object {A B} (P : JsError -> Prop) (value : A)
      (f : A -> M JsError B) :
  (forall msg, P (TypeError msg)) -> throws P (then_on_object value f).
Proof. intros HP. apply throws_throw, HP. Qed.

Lemma throws_state {A} P (k : St -> A) : throws P (fun s => ret (k s) s).
Proof. intros s e s' H. discriminate H. Qed.

(** The conversions of the library throw plain exceptions. *)
Lemma parseFixed_raw value decimals e :
  Ethers.parseFixed value decimals = inl e -> exists msg, e = Error msg.
Proof.
  unfold Ethers.parseFixed, Ethers.getMultiplier. intros H.
  repeat match type of H with
         | context [if ?c then _ else _] => destruct c
         end;
    inversion H; eauto.
Qed.

Lemma parseUnits_raw value decimals e :
  Utils.parseUnits value decimals = inl e -> exists msg, e = Error msg.
Proof.
  unfold Utils.parseUnits, Ethers.parseUnits. intros H.
  destruct (Ethers.parseFixed value decimals) as [e0|wei] eqn:Hp; [|discriminate H].
  inversion H; subst. eapply parseFixed_raw; eassumption.
Qed.

Lemma formatUnits_raw value decimals e :
  Utils.formatUnits value decimals = inl e -> exists msg, e = Error msg.
Proof.
  unfold Utils.formatUnits, Ethers.formatUnits, Ethers.BigNumber_from,
    Ethers.formatFixed, Ethers.getMultiplier.
  cbv zeta. intros H.
  repeat match type of H with
         | context [if ?c then _ else _] => destruct c
         | context [match ?l with [] => _ | _ :: _ => _ end] => destruct l
         end;
    inversion H; eauto.
Qed.

Lemma raw_or_Error allowed msg : raw_or allowed (Error msg).
Proof. left. reflexivity. Qed.

Lemma raw_or_TypeError allowed msg : raw_or allowed (TypeError msg).
Proof. left. reflexivity. Qed.

Lemma raw_or_PolygonError allowed msg c :
  In c allowed -> raw_or allowed (PolygonError msg c).
Proof. intros Hin. right. split; [reflexivity|]. exists c. split; [reflexivity|exact
    Hin]. Qed.

Lemma typed_wrapped allowed cls msg c d :
  In c allowed -> typed allowed (Polygon cls msg c d).
Proof. intros Hin. split; [reflexivity|]. exists c. split; [reflexivity|exact Hin]. Qed.

Lemma typed_weaken allowed allowed' e :
  incl allowed allowed' -> typed allowed e -> typed allowed' e.
Proof.
  intros Hincl [Hinst (c & Hc & Hin)]. split; [exact Hinst|].
  exists c. split; [exact Hc|apply Hincl, Hin].
Qed.

Lemma throws_weaken {A} (P Q : JsError -> Prop) (m : M JsError A) :
  (forall e, P e -> Q e) -> throws P m -> throws Q m.
Proof. intros HPQ Hm s e s' H. apply HPQ. eapply Hm; eassumption. Qed.

Lemma throws_anything {A} (m : M JsError A) : throws (fun _ => True) m.
Proof. intros s e s' H. exact I. Qed.

(** [throw new PolygonNetworkError(msg, error)] *)
Lemma throws_missing {A} allowed msg e :
  throws (typed_or_missing allowed)
         (@throw_new _ A (new_PolygonNetworkError msg e)).
Proof.
  intros s e0 s' H. unfold throw_new, new_PolygonNetworkError, bind, lift in H.
  inversion H; subst. left. reflexivity.
Qed.

(** [if (error instanceof PolygonError) throw error;
     throw new PolygonNetworkError(msg, error)] *)
Lemma throws_rethrow_or {A} allowed e msg :
  raw_or allowed e ->
  throws (typed_or_missing allowed)
         (if instanceof_PolygonError e then @throw _ _ A e
          else throw_new (new_PolygonNetworkError msg e)).
Proof.
  intros [Hraw|Htyped].
  - rewrite Hraw. apply throws_missing.
  - destruct Htyped as [Hinst Hcode]. rewrite Hinst. apply throws_throw.
    right. split; assumption.
Qed.

(** [if (error instanceof PolygonError) throw error;
     throw new PolygonError(msg, code, error)] *)
Lemma throws_rethrow_typed {A} allowed e wrapped :
  typed allowed wrapped -> raw_or allowed e ->
  throws (typed_or_missing allowed)
         (if instanceof_PolygonError e then @throw _ _ A e else throw wrapped).
Proof.
  intros Hwrapped [Hraw|Htyped].
  - rewrite Hraw. apply throws_throw. right. exact Hwrapped.
  - destruct Htyped as [Hinst Hcode]. rewrite Hinst. apply throws_throw.
    right. split; assumption.
Qed.

Lemma failure_of_throws {A} (P : JsError -> Prop) (m : M JsError A) s e :
  throws P m -> Operations.failure_of m s = Some e -> P e.
Proof.
  intros Hm. unfold Operations.failure_of.
  destruct (m s) as [[e0|a] s'] eqn:Hms; simpl; intros H; inversion H; subst.
  eapply Hm; eassumption.
Qed.

Lemma throws_not_implemented {A} : throws placeholder_error (@Stub.not_implemented _ A).
Proof. apply throws_throw. left. eexists. reflexivity. Qed.

Lemma throws_invalid_amount {A} amount :
  throws placeholder_error (@throw _ _ A (InvalidAmountError amount)).
Proof. apply throws_throw. right. eexists. reflexivity. Qed.

(** [if (error instanceof InvalidAmountError) throw error; throw new
    PolygonError(msg, code)] *)
Lemma throws_amount_guard {A} allowed e (msg : string -> string) c :
  In "INVALID_AMOUNT" allowed -> In c allowed -> placeholder_error e ->
  throws (typed_or_missing allowed)
         (if instanceof_InvalidAmountError e then @throw _ _ A e
          else throw (PolygonError (msg (message e)) c)).
Proof.
  intros Hamount Hc [[m ->]|[amount ->]]; simpl; apply throws_throw;
    right; apply typed_wrapped; assumption.
Qed.

(** A method of the managers called from the [try] block of another. *)
Lemma throws_callee {A} inner outer (m : M JsError A) :
  throws (typed_or_missing inner) m -> incl inner outer -> throws (raw_or outer) m.
Proof.
  intros Hm Hincl. eapply throws_weaken; [|exact Hm].
  intros e [-> | He]; [left; reflexivity|].
  right. eapply typed_weaken; eassumption.
Qed.

Ltac in_list := simpl; tauto.

Ltac included := intros ? ?; simpl in *; tauto.

Ltac callee := fail.

Ltac head_of t :=
  lazymatch t with
  | ?f _ => head_of f
  | _ => t
  end.

Ltac raw_or_tac :=
  first [ apply raw_or_Error | apply raw_or_TypeError
        | apply raw_or_PolygonError; in_list ].

Ltac throws_body :=
  cbv zeta;
  repeat first
    [ apply throws_ret
    | apply throws_state
    | apply throws_throw; raw_or_tac
    | apply throws_when
    | apply throws_call; intros ?; raw_or_tac
    | apply throws_new_Contract; intros ?; raw_or_tac
    | apply throws_new_Wallet; intros ?; raw_or_tac
    | apply throws_new_ContractFactory; intros ?; raw_or_tac
    | apply throws_getDeployTransaction; intros ?; raw_or_tac
    | apply throws_then_on_object; intros ?; raw_or_tac
    | apply throws_retry
    | apply throws_Promise_all3
    | apply throws_Promise_all4
    | apply throws_new_Filter; intros ?; raw_or_tac
    | apply throws_or_throw; intros ?; raw_or_tac
    | callee
    | apply throws_lift; intros ? ?;
      match goal with
      | Hl : Utils.parseUnits _ _ = inl _ |- _ =>
          destruct (parseUnits_raw _ _ Hl) as [? ->]
      | Hl : Ethers.parseEther _ = inl _ |- _ =>
          destruct (parseFixed_raw _ _ Hl) as [? ->]
      | Hl : Ethers.parseUnits _ _ = inl _ |- _ =>
          destruct (parseFixed_raw _ _ Hl) as [? ->]
      | Hl : Utils.formatUnits _ _ = inl _ |- _ =>
          destruct (formatUnits_raw _ _ Hl) as [? ->]
      end; raw_or_tac
    | apply throws_bind; [|intros ?]
    | match goal with
      | |- throws _ (match ?x with _ => _ end) => destruct x
      end ].

Lemma getContract_throws (self : PolygonContractManager.t) address abi :
  throws (typed_or_missing ["INVALID_ADDRESS"])
         (PolygonContractManager.getContract self address abi).
Proof.
  unfold PolygonContractManager.getContract.
  apply throws_try_catch with (Q := raw_or ["INVALID_ADDRESS"]).
  - throws_body.
  - intros e He. apply throws_rethrow_or. exact He.
Qed.

Lemma getWalletBalance_throws (self : PolygonWalletManager.t) address :
  throws (typed_or_missing ["INVALID_ADDRESS"])
         (PolygonWalletManager.getWalletBalance self address).
Proof.
  unfold PolygonWalletManager.getWalletBalance.
  apply throws_try_catch with (Q := raw_or ["INVALID_ADDRESS"]).
  - throws_body.
  - intros e He. apply throws_rethrow_or. exact He.
Qed.

Lemma getWalletTransactionCount_throws (self : PolygonWalletManager.t) address :
  throws (typed_or_missing ["INVALID_ADDRESS"])
         (PolygonWalletManager.getWalletTransactionCount self address).
Proof.
  unfold PolygonWalletManager.getWalletTransactionCount.
  apply throws_try_catch with (Q := raw_or ["INVALID_ADDRESS"]).
  - throws_body.
  - intros e He. apply throws_rethrow_or. exact He.
Qed.

Ltac callee ::=
  first [ apply throws_callee with (1 := getContract_throws _ _ _); included
        | apply throws_callee with (1 := getWalletBalance_throws _ _); included
        | apply throws_callee with (1 := getWalletTransactionCount_throws _ _); included ].

Ltac placeholder :=
  apply throws_try_catch with (Q := placeholder_error);
  [ repeat first [ apply throws_not_implemented
                 | apply throws_invalid_amount
                 | apply throws_when
                 | apply throws_bind; [|intros ?]
                 | apply (throws_weaken (P := fun _ => False)); [tauto|apply throws_ret] ]
  | intros ? ?;
    first [ apply throws_amount_guard with (msg := fun m => _); [in_list|in_list|assumption]
          | apply throws_throw; right; apply typed_wrapped; in_list ] ].

Ltac guarded :=
  match goal with
  | |- throws (typed_or_missing ?allowed) _ =>
      apply throws_try_catch with (Q := raw_or allowed);
      [ throws_body
      | intros ? ?;
        first [ apply throws_rethrow_or; assumption
              | apply throws_rethrow_typed; [apply typed_wrapped; in_list | assumption] ] ]
  end.

Ltac wrapping :=
  apply throws_try_catch with (Q := fun _ => True);
  [ apply throws_anything
  | intros ? _;
    first [ apply throws_missing
          | apply throws_throw; right; apply typed_wrapped; in_list ] ].

(** Every failure of a public operation is the exception of
    [new PolygonNetworkError(..)] or an error of the taxonomy with one of
    the codes of the operation. *)
Lemma failures_of_operations (o : Operations.Operation) (s : St) (e : JsError) :
  Operations.invoke o s = Some e -> typed_or_missing (Operations.codes o) e.
Proof.
  intros H. destruct o; cbn [Operations.invoke Operations.codes] in *;
    (eapply failure_of_throws; [|exact H]); clear H.
  all: match goal with
       | |- throws _ ?m => let h := head_of m in unfold h
       end.
  all: try solve [placeholder].
  all: try solve [guarded].
  all: try solve [wrapping].
  all: try solve [apply throws_ret].
  all: try solve [destruct (PolygonWalletManager.wallet self); apply throws_ret].
Qed.

(** C5 (amended).  A public operation of the managers that fails
    otherwise than by the exception of [new PolygonNetworkError(..)], a
    class that [errors.ts] does not declare, fails with an instance of
    [PolygonError], never with a plain exception, and the code of that
    error is one of those its source gives it ([Operations.codes]). *)
Theorem failures_are_typed (o : Operations.Operation) (s : St) (e : JsError) :
  Operations.invoke o s = Some e ->
  e <> not_a_constructor "PolygonNetworkError" ->
  typed (Operations.codes o) e.
Proof.
  intros H Hother. destruct (failures_of_operations o s H) as [Hmissing | Htyped].
  - contradiction.
  - exact Htyped.
Qed.
End ErrorCodes.

(** C5 as stated fails: [getPools] fails with the code GET_POOLS_ERROR,
    which is not one of the nine codes of the closed set. *)
Lemma closed_taxonomy_counterexample :
  ~ (forall (o : @Operations.Operation) (s : @Runtime.St Examples.clock) e,
        Operations.invoke (chain := Examples.offline) o s = Some e ->
        exists c, Errors.code e = Some c /\ In c Errors.taxonomy).
Proof.
  intros H.
  destruct (H Operations.DeFi_getPools Examples.start _ eq_refl) as (c & Hc & Hin).
  vm_compute in Hc. inversion Hc; subst c.
  simpl in Hin. repeat (destruct Hin as [Hin|Hin]; [discriminate Hin|]). exact Hin.
Qed.

Lemma failures_are_typed_witness :
  Spec.typed ["GET_POOLS_ERROR"]
    (Errors.PolygonError
       ("Failed to get pools: "
          ++ "Not implemented - requires Polygon-specific implementation")
       "GET_POOLS_ERROR").
Proof.
  apply (@failures_are_typed Examples.clock Examples.offline
           Operations.DeFi_getPools Examples.start).
  - reflexivity.
  - discriminate.
Defined.

(** ** Unit conversions *)

Section Digits.
Import Ethers.

Lemma digit_is_digit k : 0 <= k < 10 -> is_digit (JS.digit k) = true.
Proof.
  intros H.
  assert (k = 0 \/ k = 1 \/ k = 2 \/ k = 3 \/ k = 4 \/ k = 5 \/ k = 6 \/ k = 7
          \/ k = 8 \/ k = 9) as Hk by lia.
  repeat (destruct Hk as [-> | Hk]; [reflexivity|]). subst. reflexivity.
Qed.

Lemma digit_value_digit k : 0 <= k < 10 -> digit_value (JS.digit k) = k.
Proof.
  intros H.
  assert (k = 0 \/ k = 1 \/ k = 2 \/ k = 3 \/ k = 4 \/ k = 5 \/ k = 6 \/ k = 7
          \/ k = 8 \/ k = 9) as Hk by lia.
  repeat (destruct Hk as [-> | Hk]; [reflexivity|]). subst. reflexivity.
Qed.

Lemma digit_not_sign c : is_digit c = true -> is_minus c = false /\ is_dot c = false.
Proof.
  destruct c as [[] [] [] [] [] [] [] []]; intros H; try discriminate H; split;
      reflexivity.
Qed.

Lemma zero_char c : is_zero_char c = true -> c = "0"%char.
Proof. apply Ascii.eqb_eq. Qed.

Lemma value_of_acc (l : list ascii) (acc : Z) :
  fold_left (fun a c => 10 * a + digit_value c) l acc
  = acc * 10 ^ Z.of_nat (List.length l) + value_of l.
Proof.
  unfold value_of. revert acc.
  induction l as [|c l IH]; intros acc.
  - simpl. lia.
  - cbn [fold_left List.length]. rewrite IH, (IH (10 * 0 + digit_value c)).
    rewrite Nat2Z.inj_succ, Z.pow_succ_r by lia. lia.
Qed.

Lemma value_of_app (l1 l2 : list ascii) :
  value_of (l1 ++ l2) = value_of l1 * 10 ^ Z.of_nat (List.length l2) + value_of l2.
Proof. unfold value_of at 1. rewrite fold_left_app. apply value_of_acc. Qed.

Lemma value_of_zeros k : value_of (repeat "0"%char k) = 0.
Proof.
  induction k as [|k IH]; [reflexivity|].
  change (repeat "0"%char (S k)) with (["0"%char] ++ repeat "0"%char k).
  rewrite value_of_app, IH. reflexivity.
Qed.

Lemma digits_small n : n < 10 -> JS.digits n = [JS.digit n].
Proof.
  intros H. rewrite JS.digits_equation_1.
  destruct (Z_lt_dec n 10); [reflexivity | contradiction].
Qed.

Lemma digits_large n :
  10 <= n -> JS.digits n = JS.digits (n / 10) ++ [JS.digit (n mod 10)].
Proof.
  intros H. rewrite JS.digits_equation_1 at 1.
  destruct (Z_lt_dec n 10); [lia | reflexivity].
Qed.

(** Induction on a non-negative integer along its decimal digits. *)
Lemma decimal_ind (P : Z -> Prop) :
  (forall n, 0 <= n < 10 -> P n) ->
  (forall n, 10 <= n -> P (n / 10) -> P n) ->
  forall n, 0 <= n -> P n.
Proof.
  intros Hsmall Hlarge n Hn.
  pattern n. apply (Zlt_0_ind (fun n => P n)); [|exact Hn].
  intros x IH Hx.
  destruct (Z_lt_dec x 10) as [Hlt|Hge].
  - apply Hsmall. lia.
  - apply Hlarge; [lia|]. apply IH.
    split; [apply Z.div_pos; lia | apply Z.div_lt; lia].
Qed.

Lemma value_of_digits n : 0 <= n -> value_of (JS.digits n) = n.
Proof.
  intros Hn. pattern n. apply decimal_ind; [| |exact Hn]; clear n Hn.
  - intros n Hn. rewrite digits_small by lia. unfold value_of. simpl.
    rewrite digit_value_digit by lia. lia.
  - intros n Hn IH. rewrite digits_large by lia.
    rewrite value_of_app, IH. unfold value_of at 1. simpl.
    rewrite digit_value_digit by (apply Z.mod_pos_bound; lia).
    pose proof (Z.div_mod n 10). lia.
Qed.

Lemma digits_are_digits n : 0 <= n -> forallb is_digit (JS.digits n) = true.
Proof.
  intros Hn. pattern n. apply decimal_ind; [| |exact Hn]; clear n Hn.
  - intros n Hn. rewrite digits_small by lia. simpl.
    rewrite digit_is_digit by lia. reflexivity.
  - intros n Hn IH. rewrite digits_large by lia.
    rewrite forallb_app, IH. simpl.
    rewrite digit_is_digit by (apply Z.mod_pos_bound; lia). reflexivity.
Qed.

Lemma digits_nonempty n : JS.digits n <> [].
Proof.
  rewrite JS.digits_equation_1. destruct (Z_lt_dec n 10); simpl.
  - discriminate.
  - intros H. apply app_eq_nil in H. destruct H as [_ H]. discriminate H.
Qed.

Lemma digits_length n (d : nat) :
  0 <= n < 10 ^ Z.of_nat d -> (1 <= d)%nat -> (List.length (JS.digits n) <= d)%nat.
Proof.
  intros [Hn Hlt]. revert d Hlt. pattern n. apply decimal_ind; [| |exact Hn]; clear n
      Hn.
  - intros n Hn d Hlt Hd. rewrite digits_small by lia. simpl. lia.
  - intros n Hn IH d Hlt Hd. rewrite digits_large by lia.
    rewrite length_app. simpl.
    destruct d as [|d]; [lia|].
    destruct d as [|d]; [simpl in Hlt; lia|].
    assert (List.length (JS.digits (n / 10)) <= S d)%nat; [|lia].
    apply IH; [|lia].
    rewrite Nat2Z.inj_succ, Z.pow_succ_r in Hlt by lia.
    apply Z.div_lt_upper_bound; lia.
Qed.
End Digits.

Section Fractions.
Import Ethers.

Lemma repeat_snoc {A} (x : A) k : repeat x k ++ [x] = x :: repeat x k.
Proof. induction k as [|k IH]; [reflexivity|]. simpl. rewrite IH. reflexivity. Qed.

Lemma rev_zeros k : rev (repeat "0"%char k) = repeat "0"%char k.
Proof.
  induction k as [|k IH]; [reflexivity|]. simpl. rewrite IH. apply repeat_snoc.
Qed.

(** The zeros [drop_zeros] removes, put back. *)
Lemma drop_zeros_split rl :
  rl = repeat "0"%char (List.length rl - List.length (drop_zeros rl)) ++ drop_zeros rl
  /\ (List.length (drop_zeros rl) <= List.length rl)%nat.
Proof.
  induction rl as [|c rl [IH Hlen]]; [split; reflexivity|].
  cbn [drop_zeros]. destruct (is_zero_char c) eqn:Hc.
  - apply zero_char in Hc. subst c. split; [|simpl; lia].
    replace (List.length ("0"%char :: rl) - List.length (drop_zeros rl))%nat
      with (S (List.length rl - List.length (drop_zeros rl)))
      by (cbn [List.length]; lia).
    cbn [repeat app]. f_equal. exact IH.
  - split; [|lia]. rewrite Nat.sub_diag. reflexivity.
Qed.

Lemma drop_zeros_idempotent rl : drop_zeros (drop_zeros rl) = drop_zeros rl.
Proof.
  induction rl as [|c rl IH]; [reflexivity|].
  cbn [drop_zeros]. destruct (is_zero_char c) eqn:Hc; [exact IH|].
  cbn [drop_zeros]. rewrite Hc. reflexivity.
Qed.

Lemma trim_end_split l :
  l = trim_end l ++ repeat "0"%char (List.length l - List.length (trim_end l))
  /\ (List.length (trim_end l) <= List.length l)%nat.
Proof.
  unfold trim_end. destruct (drop_zeros_split (rev l)) as [Hsplit Hlen].
  rewrite length_rev in Hsplit, Hlen. rewrite !length_rev.
  split; [|exact Hlen].
  rewrite <- (rev_involutive l) at 1. rewrite Hsplit at 1.
  rewrite rev_app_distr, rev_zeros. reflexivity.
Qed.

Lemma trim_end_idempotent l : trim_end (trim_end l) = trim_end l.
Proof. unfold trim_end. rewrite rev_involutive, drop_zeros_idempotent. reflexivity. Qed.

Lemma trim_end_in l c : In c (trim_end l) -> In c l.
Proof.
  intros H. destruct (trim_end_split l) as [Hsplit _].
  rewrite Hsplit. apply in_or_app. left. exact H.
Qed.

Lemma pad_end_trimmed l :
  pad_end (List.length l) (trim_end l) = l.
Proof. unfold pad_end. symmetry. apply (trim_end_split l). Qed.

(** What [parseFixed] makes of the fraction [formatFixed] printed: the
    digits [formatFixed] started from. *)
Lemma fraction_round_trip (F : list ascii) :
  F <> [] ->
  let printed := strip_fraction F in
  let fraction := match printed with [] => ["0"%char] | _ => printed end in
  let fraction := trim_end fraction in
  (List.length F <? List.length fraction)%nat = false /\
  pad_end (List.length F)
          (match fraction with [] => ["0"%char] | _ => fraction end) = F.
Proof.
  intros HF. cbv zeta. unfold strip_fraction.
  destruct (trim_end_split F) as [Hsplit Hlen].
  destruct (trim_end F) as [|c t] eqn:Htrim.
  - (* only zeros *)
    change (trim_end ["0"%char]) with (@nil ascii). split.
    + apply Nat.ltb_ge. simpl. lia.
    + simpl in Hsplit. rewrite Nat.sub_0_r in Hsplit.
      destruct (List.length F) as [|k] eqn:Hk.
      * destruct F; [contradiction | discriminate Hk].
      * rewrite Hsplit. unfold pad_end. simpl. rewrite Nat.sub_0_r. reflexivity.
  - rewrite <- Htrim, trim_end_idempotent, Htrim. split.
    + apply Nat.ltb_ge. exact Hlen.
    + rewrite <- Htrim. apply pad_end_trimmed.
Qed.

Lemma pad_start_length (d : nat) l :
  (List.length l <= d)%nat -> List.length (pad_start d l) = d.
Proof. intros H. unfold pad_start. rewrite length_app, repeat_length. lia. Qed.

Lemma value_of_pad_start d l : value_of (pad_start d l) = value_of l.
Proof. unfold pad_start. rewrite value_of_app, value_of_zeros. lia. Qed.

Lemma pad_start_digits d l :
  forallb is_digit l = true -> forallb is_digit (pad_start d l) = true.
Proof.
  intros H. unfold pad_start. rewrite forallb_app, H, andb_true_r.
  induction (d - List.length l)%nat as [|k IH]; [reflexivity|]. simpl. exact IH.
Qed.

Lemma strip_fraction_digits l :
  forallb is_digit l = true -> forallb is_digit (strip_fraction l) = true.
Proof.
  intros H. unfold strip_fraction.
  destruct (trim_end l) as [|c t] eqn:Htrim; [reflexivity|].
  rewrite <- Htrim. apply forallb_forall. intros x Hx.
  apply trim_end_in in Hx. rewrite forallb_forall in H. apply H, Hx.
Qed.

Lemma strip_fraction_nonempty l : strip_fraction l <> [].
Proof. unfold strip_fraction. destruct (trim_end l); discriminate. Qed.

Lemma split_dot_digits l :
  forallb is_digit l = true -> split_dot l = [l].
Proof.
  induction l as [|c l IH]; [reflexivity|].
  cbn [forallb split_dot]. intros H. apply andb_prop in H. destruct H as [Hc Hl].
  destruct (digit_not_sign _ Hc) as [_ Hdot]. rewrite Hdot, IH by exact Hl. reflexivity.
Qed.

Lemma split_dot_app whole fraction :
  forallb is_digit whole = true -> forallb is_digit fraction = true ->
  split_dot (whole ++ "."%char :: fraction) = [whole; fraction].
Proof.
  intros Hw Hf. induction whole as [|c whole IH].
  - simpl. rewrite split_dot_digits by exact Hf. reflexivity.
  - cbn [forallb] in Hw. apply andb_prop in Hw. destruct Hw as [Hc Hw].
    destruct (digit_not_sign _ Hc) as [_ Hdot].
    cbn [app split_dot]. rewrite Hdot, IH by exact Hw. reflexivity.
Qed.

Lemma digits_or_dots l :
  forallb is_digit l = true -> forallb (fun c => is_digit c || is_dot c) l = true.
Proof.
  intros H. apply forallb_forall. intros x Hx.
  rewrite forallb_forall in H. rewrite (H x Hx). reflexivity.
Qed.
End Fractions.

Section UnitsRoundTrip.
Import Ethers Spec.

Lemma toString_nonneg n :
  0 <= n -> JS.toString n = string_of_list_ascii (JS.digits n).
Proof.
  intros H. unfold JS.toString.
  replace (n <? 0) with false by (symmetry; apply Z.ltb_ge; exact H). reflexivity.
Qed.

Lemma first_digit (W : list ascii) :
  W <> [] -> forallb is_digit W = true ->
  exists c W', W = c :: W' /\ is_minus c = false /\ is_dot c = false.
Proof.
  intros HW Hd. destruct W as [|c W']; [contradiction|].
  cbn [forallb] in Hd. apply andb_prop in Hd. destruct Hd as [Hc _].
  destruct (digit_not_sign _ Hc). eauto.
Qed.

Lemma BigNumber_from_toString n : 0 <= n -> BigNumber_from (JS.toString n) = inr n.
Proof.
  intros Hn. unfold BigNumber_from. cbv zeta.
  rewrite toString_nonneg, list_ascii_of_string_of_list_ascii by exact Hn.
  destruct (first_digit (digits_nonempty n) (digits_are_digits Hn))
    as (c & W' & HW & Hminus & _).
  pose proof (digits_are_digits Hn) as Hd. pose proof (value_of_digits Hn) as Hv.
  rewrite HW in *. cbn [starts_with_minus]. rewrite Hminus, Hd, Hv. reflexivity.
Qed.

Lemma getMultiplier_ok decimals :
  0 <= decimals <= 256 -> getMultiplier decimals = inr (Z.to_nat decimals).
Proof.
  intros H. unfold getMultiplier.
  replace (0 <=? decimals) with true by (symmetry; apply Z.leb_le; lia).
  replace (decimals <=? 256) with true by (symmetry; apply Z.leb_le; lia).
  reflexivity.
Qed.

Lemma formatFixed_nonneg n decimals :
  0 <= n -> 0 <= decimals <= 256 ->
  formatFixed n decimals = inr (string_of_list_ascii (printed n decimals)).
Proof.
  intros Hn Hd. unfold formatFixed, printed. rewrite getMultiplier_ok by exact Hd.
  cbv zeta. rewrite Z2Nat.id by lia.
  replace (n <? 0) with false by (symmetry; apply Z.ltb_ge; exact Hn).
  reflexivity.
Qed.

Lemma parseFixed_whole (W : list ascii) :
  W <> [] -> forallb is_digit W = true ->
  parseFixed (string_of_list_ascii W) 0 = inr (value_of W).
Proof.
  intros HW Hd. unfold parseFixed. rewrite getMultiplier_ok by lia. cbv zeta.
  rewrite list_ascii_of_string_of_list_ascii.
  destruct (first_digit HW Hd) as (c & W' & -> & Hminus & Hdot).
  cbn [starts_with_minus]. rewrite Hminus.
  rewrite (digits_or_dots _ Hd). cbn [negb].
  cbn [forallb]. rewrite Hdot. cbn [andb].
  rewrite split_dot_digits by exact Hd.
  cbn [List.length nth]. change (trim_end ["0"%char]) with (@nil ascii).
  change (Z.to_nat 0) with 0%nat. change (pad_end 0 ["0"%char]) with ["0"%char].
  change (value_of ["0"%char]) with 0. cbn [List.length Nat.ltb Nat.leb].
  change (value_of (pad_end 0 ["0"%char])) with 0.
  change (10 ^ Z.of_nat 0) with 1. f_equal. lia.
Qed.

Lemma parseFixed_fraction (W F : list ascii) (decimals : Z) :
  W <> [] -> forallb is_digit W = true -> forallb is_digit F = true ->
  0 <= decimals <= 256 -> F <> [] -> List.length F = Z.to_nat decimals ->
  parseFixed (string_of_list_ascii (W ++ "."%char :: strip_fraction F)) decimals
  = inr (value_of W * 10 ^ decimals + value_of F).
Proof.
  intros HW Hd HF Hdec HFne Hlen.
  pose proof (strip_fraction_digits _ HF) as HSF.
  destruct (first_digit HW Hd) as (c & W' & HWeq & Hminus & Hdot).
  set (chars := W ++ "."%char :: strip_fraction F).
  assert (Hneg : starts_with_minus chars = false).
  { subst chars. rewrite HWeq. exact Hminus. }
  assert (Hregex : match chars with
                   | [] => false
                   | _ :: _ => forallb (fun c => is_digit c || is_dot c) chars
                   end = true).
  { assert (Hall : forallb (fun c => is_digit c || is_dot c) chars = true).
    { subst chars. rewrite forallb_app, (digits_or_dots _ Hd). cbn [forallb andb].
      rewrite (digits_or_dots _ HSF). reflexivity. }
    rewrite Hall. subst chars. rewrite HWeq. reflexivity. }
  assert (Hdots : forallb is_dot chars = false).
  { subst chars. rewrite HWeq. cbn [app forallb]. rewrite Hdot. reflexivity. }
  assert (Hsplit : split_dot chars = [W; strip_fraction F]).
  { subst chars. apply split_dot_app; assumption. }
  destruct (fraction_round_trip HFne) as [Hfit Hpad]. cbv zeta in Hfit, Hpad.
  rewrite Hlen in Hfit, Hpad.
  unfold parseFixed. rewrite getMultiplier_ok by lia. cbv zeta.
  rewrite list_ascii_of_string_of_list_ascii. fold chars.
  rewrite Hneg. cbv iota. rewrite Hregex, Hdots, Hsplit.
  cbn [negb andb List.length nth]. change (2 <? 2)%nat with false. cbv iota.
  rewrite Hfit, Hpad, Z2Nat.id by lia.
  rewrite HWeq. reflexivity.
Qed.

(** [parseFixed] reads back what [formatFixed] printed. *)
Lemma parseFixed_printed n decimals :
  0 <= n -> 0 <= decimals <= 256 ->
  parseFixed (string_of_list_ascii (printed n decimals)) decimals = inr n.
Proof.
  intros Hn Hd. unfold printed. cbv zeta.
  assert (Hpow : 0 < 10 ^ decimals) by (apply Z.pow_pos_nonneg; lia).
  assert (Hwhole : 0 <= n / 10 ^ decimals) by (apply Z.div_pos; lia).
  destruct (Z.to_nat decimals =? 0)%nat eqn:Hzero.
  - apply Nat.eqb_eq in Hzero. assert (decimals = 0) by lia. subst decimals.
    rewrite parseFixed_whole
      by (first [apply digits_nonempty | apply digits_are_digits; exact Hwhole]).
    rewrite value_of_digits by exact Hwhole.
    change (10 ^ 0) with 1. rewrite Z.div_1_r. reflexivity.
  - apply Nat.eqb_neq in Hzero.
    pose proof (Z.mod_pos_bound n (10 ^ decimals) Hpow) as Hmod.
    assert (HFlen : List.length (pad_start (Z.to_nat decimals)
                                           (JS.digits (n mod 10 ^ decimals)))
                    = Z.to_nat decimals).
    { apply pad_start_length, digits_length; [|lia].
      rewrite Z2Nat.id by lia. exact Hmod. }
    rewrite parseFixed_fraction.
    + rewrite value_of_digits, value_of_pad_start, value_of_digits by lia.
      f_equal. pose proof (Z.div_mod n (10 ^ decimals)). lia.
    + apply digits_nonempty.
    + apply digits_are_digits. exact Hwhole.
    + apply pad_start_digits, digits_are_digits. lia.
    + exact Hd.
    + intros Hnil. rewrite Hnil in HFlen. simpl in HFlen. lia.
    + exact HFlen.
Qed.

(** C4 (unit round trip).  For every non-negative integer [x], written
    in decimal, and every number of decimals between 0 and 30,
    [formatUnits] succeeds and [parseUnits] gives [x] back from what it
    printed; 10^18 at 18 decimals prints as "1.0", which reads back as
    10^18. *)
Theorem units_round_trip (x decimals : Z) :
  0 <= x -> 0 <= decimals <= 30 ->
  (exists formatted,
      Utils.formatUnits (JS.toString x) decimals = inr formatted /\
      Utils.parseUnits formatted decimals = inr (JS.toString x)) /\
  Utils.formatUnits "1000000000000000000" 18 = inr "1.0" /\
  Utils.parseUnits "1.0" 18 = inr "1000000000000000000".
Proof.
  intros Hx Hd. split; [|split; reflexivity].
  exists (string_of_list_ascii (printed x decimals)).
  unfold Utils.formatUnits, Utils.parseUnits, formatUnits, parseUnits.
  rewrite BigNumber_from_toString by exact Hx.
  rewrite formatFixed_nonneg by lia.
  rewrite parseFixed_printed by lia.
  split; reflexivity.
Qed.
End UnitsRoundTrip.

Lemma units_round_trip_witness :
  (exists formatted,
      Utils.formatUnits (JS.toString 1234500) 3 = inr formatted /\
      Utils.parseUnits formatted 3 = inr (JS.toString 1234500)) /\
  Utils.formatUnits "1000000000000000000" 18 = inr "1.0" /\
  Utils.parseUnits "1.0" 18 = inr "1000000000000000000".
Proof.
  apply (@units_round_trip 1234500 3); lia.
Defined.

(** * The other helpers of [utils.ts] *)

(** ** Strings as sequences *)

Section StringFacts.
Import Str.

Lemma chars_of_chars l : chars (of_chars l) = l.
Proof. apply list_ascii_of_string_of_list_ascii. Qed.

Lemma of_chars_chars s : of_chars (chars s) = s.
Proof. apply string_of_list_ascii_of_string. Qed.

Lemma chars_app (a b : string) : chars (a ++ b) = chars a ++ chars b.
Proof. induction a as [|c a IH]; [reflexivity|]. cbn. f_equal. exact IH. Qed.

Lemma of_chars_app l1 l2 : of_chars (l1 ++ l2) = (of_chars l1 ++ of_chars l2)%string.
Proof.
  rewrite <- (of_chars_chars (of_chars l1 ++ of_chars l2)).
  rewrite chars_app, !chars_of_chars. reflexivity.
Qed.

Lemma chars_inj s1 s2 : chars s1 = chars s2 -> s1 = s2.
Proof.
  intros H. rewrite <- (of_chars_chars s1), <- (of_chars_chars s2), H. reflexivity.
Qed.

Lemma append_assoc (a b c : string) : ((a ++ b) ++ c = a ++ b ++ c)%string.
Proof. apply chars_inj. rewrite !chars_app. symmetry. apply app_assoc. Qed.

Lemma len_of_chars l : len (of_chars l) = Z.of_nat (List.length l).
Proof. unfold len. rewrite chars_of_chars. reflexivity. Qed.

(** [l.slice(0, n)] and [l.slice(-n)] within the sequence. *)
Lemma slice_prefix {T} (l : list T) (n : Z) :
  0 <= n -> slice_chars l 0 (Some n) = firstn (Z.to_nat n) l.
Proof.
  intros Hn. unfold slice_chars, relative. cbn [skipn Z.to_nat].
  change (0 <? 0) with false. cbv iota.
  destruct (n <? 0) eqn:Hneg; [lia|].
  rewrite (Z.min_l 0) by lia. rewrite Z.sub_0_r. cbn [Z.to_nat skipn].
  destruct (Z.le_ge_cases n (Z.of_nat (List.length l))) as [Hle|Hge].
  - rewrite Z.min_l by lia. reflexivity.
  - rewrite Z.min_r by lia. rewrite Nat2Z.id.
    rewrite !firstn_all2 by lia. reflexivity.
Qed.

Lemma slice_suffix {T} (l : list T) (n : Z) :
  0 < n <= Z.of_nat (List.length l) ->
  slice_chars l (- n) None = skipn (List.length l - Z.to_nat n) l.
Proof.
  intros Hn. unfold slice_chars, relative.
  destruct (- n <? 0) eqn:Hneg; [|lia].
  rewrite Z.max_l by lia.
  replace (Z.to_nat (Z.of_nat (List.length l) + - n))
    with (List.length l - Z.to_nat n)%nat by lia.
  apply firstn_all2. rewrite length_skipn. lia.
Qed.

(** [l.slice(-0)] is [l.slice(0)]: the whole sequence. *)
Lemma slice_minus_zero {T} (l : list T) : slice_chars l (- 0) None = l.
Proof.
  unfold slice_chars, relative. cbn. rewrite Z.min_l by lia.
  cbn. apply firstn_all2. lia.
Qed.
End StringFacts.

(** ** [chunkArray] *)

Section ChunkFacts.
Import Utils.
Variable T : Type.
Variable array : list T.
Variable chunkSize : Z.
Hypothesis positive : 0 < chunkSize.

Let size : Z := Z.of_nat (List.length array).

Lemma chunk_at i :
  0 <= i < size ->
  Str.slice_chars array i (Some (i + chunkSize))
  = firstn (Z.to_nat chunkSize) (skipn (Z.to_nat i) array).
Proof.
  intros Hi. unfold Str.slice_chars, Str.relative. fold size.
  destruct (i <? 0) eqn:H1; [lia|].
  destruct (i + chunkSize <? 0) eqn:H2; [lia|].
  rewrite (Z.min_l i) by lia.
  destruct (Z.le_ge_cases (i + chunkSize) size) as [Hle|Hge].
  - rewrite Z.min_l by lia. f_equal. lia.
  - rewrite Z.min_r by lia.
    rewrite !firstn_all2; [reflexivity | |]; rewrite length_skipn; unfold size in *; lia.
Qed.

(** What the loop adds to [chunks] from index [i] on. *)
Lemma chunk_loop_spec fuel : forall i chunks result,
  0 <= i ->
  chunk_loop fuel array chunkSize i chunks = Some result ->
  exists rest,
    result = chunks ++ rest /\
    List.concat rest = skipn (Z.to_nat i) array /\
    Forall (fun c => 1 <= Z.of_nat (List.length c) <= chunkSize) rest /\
    Forall (fun c => Z.of_nat (List.length c) = chunkSize) (removelast rest) /\
    Z.of_nat (List.length rest) = (Z.max 0 (size - i) + chunkSize - 1) / chunkSize.
Proof.
  induction fuel as [|fuel IH]; intros i chunks result Hi Hrun; [discriminate|].
  cbn [chunk_loop] in Hrun. fold size in Hrun.
  destruct (i <? size) eqn:Hlt.
  - apply IH in Hrun; [|lia].
    destruct Hrun as (rest & -> & Hcat & Hall & Hfull & Hcount).
    rewrite chunk_at in * by lia.
    set (chunk := firstn (Z.to_nat chunkSize) (skipn (Z.to_nat i) array)) in *.
    assert (Hlen : Z.of_nat (List.length chunk) = Z.min chunkSize (size - i)).
    { unfold chunk. rewrite length_firstn, length_skipn. unfold size. lia. }
    exists (chunk :: rest). repeat split.
    + rewrite <- app_assoc. reflexivity.
    + cbn [List.concat]. rewrite Hcat. unfold chunk.
      replace (Z.to_nat (i + chunkSize)) with (Z.to_nat chunkSize + Z.to_nat i)%nat by lia.
      rewrite <- skipn_skipn. apply firstn_skipn.
    + constructor; [lia | exact Hall].
    + destruct rest as [|c rest]; [constructor|].
      change (removelast (chunk :: c :: rest)) with (chunk :: removelast (c :: rest)).
      constructor; [|exact Hfull].
      cbn [List.length] in Hcount.
      assert (0 < (Z.max 0 (size - (i + chunkSize)) + chunkSize - 1) / chunkSize) by lia.
      destruct (Z.le_gt_cases (size - (i + chunkSize)) 0) as [Hle|Hgt]; [|lia].
      rewrite Z.max_l, Z.div_small in H by lia. lia.
    + cbn [List.length]. rewrite Nat2Z.inj_succ, Hcount.
      rewrite (Z.max_r 0 (size - i)) by lia.
      destruct (Z.le_gt_cases (size - (i + chunkSize)) 0) as [Hle|Hgt].
      * rewrite Z.max_l by lia. rewrite (Z.div_small (0 + chunkSize - 1)) by lia.
        apply Z.div_unique with (r := size - i - 1); lia.
      * rewrite Z.max_r by lia.
        replace (size - i + chunkSize - 1)
          with (size - (i + chunkSize) + chunkSize - 1 + 1 * chunkSize) by lia.
        rewrite Z.div_add by lia. lia.
  - injection Hrun as <-. exists []. rewrite app_nil_r. repeat split.
    + cbn. symmetry. apply skipn_all2. unfold size in *. lia.
    + constructor.
    + constructor.
    + cbn. rewrite Z.max_l by lia. symmetry. apply Z.div_small. lia.
Qed.

(** The loop ends once the tests of its condition are more than the
    elements left. *)
Lemma chunk_loop_ends fuel : forall i chunks,
  0 <= i -> Z.max 0 (size - i) < Z.of_nat fuel ->
  exists result, chunk_loop fuel array chunkSize i chunks = Some result.
Proof.
  induction fuel as [|fuel IH]; intros i chunks Hi Hfuel; [lia|].
  cbn [chunk_loop]. fold size.
  destruct (i <? size) eqn:Hlt; [|eauto].
  apply IH; lia.
Qed.
End ChunkFacts.

Section ChunkDivergence.
Import Utils.
Variable T : Type.

Lemma chunk_loop_runs_on (array : list T) chunkSize fuel : forall i chunks,
  chunkSize <= 0 -> i < Z.of_nat (List.length array) ->
  chunk_loop fuel array chunkSize i chunks = None.
Proof.
  induction fuel as [|fuel IH]; intros i chunks Hsize Hi; [reflexivity|].
  cbn [chunk_loop].
  destruct (i <? Z.of_nat (List.length array)) eqn:Hlt; [|lia].
  apply IH; lia.
Qed.
End ChunkDivergence.

(** X1.  [chunkArray] with a positive [chunkSize] returns, and cuts the
    array without losing, adding or reordering an element: the chunks,
    concatenated, are the array, and none of them is empty. *)
Theorem chunkArray_partitions (T : Type) (array : list T) (chunkSize : Z) (fuel : nat) :
  0 < chunkSize -> (List.length array < fuel)%nat ->
  exists chunks,
    Utils.chunkArray fuel array chunkSize = Some chunks /\
    List.concat chunks = array /\
    Forall (fun c => c <> []) chunks.
Proof.
  intros Hsize Hfuel. unfold Utils.chunkArray.
  destruct (chunk_loop_ends array Hsize fuel (i := 0) []) as [chunks Hrun]; [lia | lia |].
  exists chunks. split; [exact Hrun|].
  destruct (chunk_loop_spec array Hsize fuel (i := 0) [] (Z.le_refl 0) Hrun)
    as (rest & -> & Hcat & Hall & _).
  split; [exact Hcat|].
  cbn [app]. eapply Forall_impl; [|exact Hall].
  intros c Hc ->. cbn in Hc. lia.
Qed.

Lemma chunkArray_partitions_witness :
  exists chunks,
    Utils.chunkArray 6 [1; 2; 3; 4; 5] 2 = Some chunks /\
    List.concat chunks = [1; 2; 3; 4; 5] /\
    Forall (fun c => c <> []) chunks.
Proof.
  apply (@chunkArray_partitions Z [1; 2; 3; 4; 5] 2 6); cbn; lia.
Defined.

(** X2.  With a positive [chunkSize], [chunkArray] makes
    ceil(length / chunkSize) chunks; each of them but the last has
    exactly [chunkSize] elements, and the last one has between 1 and
    [chunkSize]. *)
Theorem chunkArray_sizes (T : Type) (array : list T) (chunkSize : Z) (fuel : nat)
        (chunks : list (list T)) :
  0 < chunkSize ->
  Utils.chunkArray fuel array chunkSize = Some chunks ->
  Z.of_nat (List.length chunks)
  = (Z.of_nat (List.length array) + chunkSize - 1) / chunkSize /\
  Forall (fun c => Z.of_nat (List.length c) = chunkSize) (removelast chunks) /\
  Forall (fun c => 1 <= Z.of_nat (List.length c) <= chunkSize) chunks.
Proof.
  intros Hsize Hrun. unfold Utils.chunkArray in Hrun.
  destruct (chunk_loop_spec array Hsize fuel (i := 0) [] (Z.le_refl 0) Hrun)
    as (rest & -> & _ & Hall & Hfull & Hcount).
  cbn [app]. rewrite Hcount, Z.sub_0_r, Z.max_r by lia. auto.
Qed.

Lemma chunkArray_sizes_witness :
  Z.of_nat (List.length [[1; 2]; [3; 4]; [5]])
  = (Z.of_nat (List.length [1; 2; 3; 4; 5]) + 2 - 1) / 2 /\
  Forall (fun c => Z.of_nat (List.length c) = 2) (removelast [[1; 2]; [3; 4]; [5]]) /\
  Forall (fun c => 1 <= Z.of_nat (List.length c) <= 2) [[1; 2]; [3; 4]; [5]].
Proof.
  apply (@chunkArray_sizes Z [1; 2; 3; 4; 5] 2 6 [[1; 2]; [3; 4]; [5]]).
  - lia.
  - reflexivity.
Defined.

(** X3.  With [chunkSize] zero or negative and an array that is not
    empty, the loop of [chunkArray] never ends: the index never reaches
    the length, so no number of tests of the condition gives a result. *)
Theorem chunkArray_never_returns (T : Type) (array : list T) (chunkSize : Z) :
  chunkSize <= 0 -> array <> [] ->
  forall fuel, Utils.chunkArray fuel array chunkSize = None.
Proof.
  intros Hsize Hne fuel. unfold Utils.chunkArray.
  apply chunk_loop_runs_on; [exact Hsize|].
  destruct array; [congruence | cbn; lia].
Qed.

Lemma chunkArray_never_returns_witness :
  0 <= 0 /\ [1; 2; 3] <> [] /\ Utils.chunkArray 1000 [1; 2; 3] 0 = None.
Proof.
  split; [lia | split; [discriminate |]].
  apply (@chunkArray_never_returns Z [1; 2; 3] 0); [lia | discriminate].
Defined.

(** ** [truncateAddress] and [truncateHash] *)

Section TruncateFacts.
Import Str Utils.

Lemma truncateHash_truncateAddress s startLength endLength :
  truncateHash s startLength endLength = truncateAddress s startLength endLength.
Proof. reflexivity. Qed.

(** The characters of a truncated string that was too long. *)
Lemma truncate_chars address startLength endLength :
  0 <= startLength -> 0 < endLength -> startLength + endLength < len address ->
  chars (truncateAddress address startLength endLength)
  = firstn (Z.to_nat startLength) (chars address)
    ++ chars "..."
    ++ skipn (List.length (chars address) - Z.to_nat endLength) (chars address).
Proof.
  intros Hs He Hlong. unfold truncateAddress, slice.
  destruct (len address <=? startLength + endLength) eqn:Hshort; [lia|].
  unfold len in Hlong.
  rewrite !chars_app, !chars_of_chars.
  rewrite slice_prefix by lia. rewrite slice_suffix by lia. reflexivity.
Qed.
End TruncateFacts.

(** X4.  For a string longer than [startLength + endLength]
    characters, with [startLength >= 0] and [endLength > 0],
    [truncateAddress] gives its first [startLength] characters, three
    dots and its last [endLength] characters:
    [startLength + 3 + endLength] characters in all. *)
Theorem truncateAddress_long (address : string) (startLength endLength : Z) :
  0 <= startLength -> 0 < endLength ->
  startLength + endLength < Str.len address ->
  Str.chars (Utils.truncateAddress address startLength endLength)
  = firstn (Z.to_nat startLength) (Str.chars address)
    ++ Str.chars "..."
    ++ skipn (List.length (Str.chars address) - Z.to_nat endLength) (Str.chars address)
  /\ Str.len (Utils.truncateAddress address startLength endLength)
     = startLength + 3 + endLength.
Proof.
  intros Hs He Hlong. split; [apply truncate_chars; assumption|].
  unfold Str.len in *. rewrite truncate_chars by assumption.
  rewrite !length_app, length_firstn, length_skipn. cbn [Str.chars list_ascii_of_string
    List.length]. lia.
Qed.

Lemma truncateAddress_long_witness :
  Str.chars (Utils.truncateAddress "0xA1E4380A3B1f749673E270229993eE55F35663b4" 6 4)
  = firstn (Z.to_nat 6) (Str.chars "0xA1E4380A3B1f749673E270229993eE55F35663b4")
    ++ Str.chars "..."
    ++ skipn (List.length (Str.chars "0xA1E4380A3B1f749673E270229993eE55F35663b4")
              - Z.to_nat 4)
         (Str.chars "0xA1E4380A3B1f749673E270229993eE55F35663b4")
  /\ Str.len (Utils.truncateAddress "0xA1E4380A3B1f749673E270229993eE55F35663b4" 6 4)
     = 6 + 3 + 4.
Proof.
  apply (@truncateAddress_long "0xA1E4380A3B1f749673E270229993eE55F35663b4" 6 4).
  - lia.
  - lia.
  - vm_compute. reflexivity.
Defined.

(** X5.  Truncating twice is truncating once: with [startLength >= 0]
    and [endLength > 0], [truncateHash] leaves what it returned as it is
    (the three dots are not counted against the two lengths, yet the
    prefix and the suffix of the result are those of the hash). *)
Theorem truncateHash_idempotent (hash : string) (startLength endLength : Z) :
  0 <= startLength -> 0 < endLength ->
  Utils.truncateHash (Utils.truncateHash hash startLength endLength)
                     startLength endLength
  = Utils.truncateHash hash startLength endLength.
Proof.
  intros Hs He.
  change (Utils.truncateAddress (Utils.truncateAddress hash startLength endLength)
                                startLength endLength
          = Utils.truncateAddress hash startLength endLength).
  destruct (Z.le_gt_cases (Str.len hash) (startLength + endLength)) as [Hshort|Hlong].
  - assert (Hid : Utils.truncateAddress hash startLength endLength = hash).
    { unfold Utils.truncateAddress.
      destruct (Str.len hash <=? startLength + endLength) eqn:H; [reflexivity | lia]. }
    rewrite Hid. exact Hid.
  - apply chars_inj.
    set (t := Utils.truncateAddress hash startLength endLength).
    assert (Ht : Str.chars t
                 = firstn (Z.to_nat startLength) (Str.chars hash)
                   ++ Str.chars "..."
                   ++ skipn (List.length (Str.chars hash) - Z.to_nat endLength)
                        (Str.chars hash))
      by (apply truncate_chars; assumption).
    unfold Str.len in Hlong.
    assert (Hp : List.length (firstn (Z.to_nat startLength) (Str.chars hash))
                 = Z.to_nat startLength) by (rewrite length_firstn; lia).
    assert (Hq : List.length (skipn (List.length (Str.chars hash) - Z.to_nat endLength)
                                (Str.chars hash))
                 = Z.to_nat endLength) by (rewrite length_skipn; lia).
    set (p := firstn (Z.to_nat startLength) (Str.chars hash)) in *.
    set (q := skipn (List.length (Str.chars hash) - Z.to_nat endLength) (Str.chars hash))
      in *.
    assert (Hlen : List.length (Str.chars t) = (Z.to_nat startLength + 3 + Z.to_nat
      endLength)%nat).
    { rewrite Ht, !length_app, Hp, Hq. cbn. lia. }
    rewrite truncate_chars; [| assumption | assumption | unfold Str.len; lia].
    rewrite Hlen, Ht. f_equal; [|f_equal].
    + rewrite firstn_app, Hp, Nat.sub_diag. cbn [firstn].
      rewrite app_nil_r. apply firstn_all2. lia.
    + replace (Z.to_nat startLength + 3 + Z.to_nat endLength - Z.to_nat endLength)%nat
        with (List.length (p ++ Str.chars "...")) by (rewrite length_app, Hp; cbn; lia).
      rewrite app_assoc. rewrite skipn_app, Nat.sub_diag, skipn_all. reflexivity.
Qed.

Lemma truncateHash_idempotent_witness :
  Utils.truncateHash
    (Utils.truncateHash
       "0x5c504ed432cb51138bcf09aa5e8a410dd4a1e204ef84bfed1be16dfba1b22060" 10 6) 10 6
  = Utils.truncateHash
      "0x5c504ed432cb51138bcf09aa5e8a410dd4a1e204ef84bfed1be16dfba1b22060" 10 6.
Proof.
  apply (@truncateHash_idempotent
           "0x5c504ed432cb51138bcf09aa5e8a410dd4a1e204ef84bfed1be16dfba1b22060" 10 6); lia.
Defined.

(** X6.  An [endLength] of 0 does not drop the end of the string:
    [slice(-0)] is the whole string, so for a string longer than
    [startLength >= 0] the result is its first [startLength]
    characters, three dots and then the whole string again; it is longer
    than the string it was to shorten. *)
Theorem truncateAddress_zero_end (address : string) (startLength : Z) :
  0 <= startLength < Str.len address ->
  Utils.truncateAddress address startLength 0
  = (Str.of_chars (firstn (Z.to_nat startLength) (Str.chars address)) ++ "..."
     ++ address)%string
  /\ Str.len address < Str.len (Utils.truncateAddress address startLength 0).
Proof.
  intros Hs.
  assert (Heq : Utils.truncateAddress address startLength 0
                = (Str.of_chars (firstn (Z.to_nat startLength) (Str.chars address))
                   ++ "..." ++ address)%string).
  { unfold Utils.truncateAddress, Str.slice.
    destruct (Str.len address <=? startLength + 0) eqn:H; [lia|].
    rewrite slice_prefix by lia. rewrite slice_minus_zero, of_chars_chars. reflexivity. }
  split; [exact Heq|].
  rewrite Heq. unfold Str.len. rewrite !chars_app, !length_app. cbn. lia.
Qed.

Lemma truncateAddress_zero_end_witness :
  Utils.truncateAddress "0xA1E4380A3B1f" 6 0
  = (Str.of_chars (firstn (Z.to_nat 6) (Str.chars "0xA1E4380A3B1f")) ++ "..."
     ++ "0xA1E4380A3B1f")%string
  /\ Str.len "0xA1E4380A3B1f" < Str.len (Utils.truncateAddress "0xA1E4380A3B1f" 6 0).
Proof.
  apply (@truncateAddress_zero_end "0xA1E4380A3B1f" 6). vm_compute. split; congruence.
Defined.

(** ** The regular expressions *)

Section RegExpFacts.
Import Str RegExp.
Variable A : Type.

Lemma times_spec (c : Class) n : forall s (k : list ascii -> option A),
  times c n s k <> None <->
  exists pre rest,
    s = pre ++ rest /\ List.length pre = n /\ forallb c pre = true /\ k rest <> None.
Proof.
  induction n as [|n IH]; intros s k; cbn [times].
  - split.
    + intros H. exists [], s. auto.
    + intros (pre & rest & -> & Hlen & _ & Hk).
      destruct pre; [exact Hk | discriminate].
  - destruct s as [|x r].
    + split; [congruence|].
      intros (pre & rest & Hs & Hlen & _).
      destruct pre; [discriminate Hlen | discriminate Hs].
    + destruct (c x) eqn:Hx.
      * rewrite IH. split.
        -- intros (pre & rest & -> & Hlen & Hall & Hk).
           exists (x :: pre), rest. cbn. rewrite Hx, Hall. auto.
        -- intros (pre & rest & Hs & Hlen & Hall & Hk).
           destruct pre as [|y pre]; [discriminate Hlen|].
           injection Hs as <- ->. cbn in Hall, Hlen.
           rewrite Hx in Hall. exists pre, rest. auto.
      * split; [congruence|].
        intros (pre & rest & Hs & Hlen & Hall & _).
        destruct pre as [|y pre]; [discriminate Hlen|].
        injection Hs as <- ->. cbn in Hall. rewrite Hx in Hall. discriminate.
Qed.

Lemma many_spec (c : Class) (k : list ascii -> option A) : forall s,
  many c k s <> None <->
  exists pre rest,
    pre <> [] /\ s = pre ++ rest /\ forallb c pre = true /\ k rest <> None.
Proof.
  induction s as [|x r IH]; cbn [many].
  - split; [congruence|].
    intros (pre & rest & Hne & Hs & _).
    destruct pre; [congruence | discriminate Hs].
  - destruct (c x) eqn:Hx.
    + split.
      * intros H. destruct (many c k r) eqn:Hm.
        -- destruct (proj1 IH) as (pre & rest & _ & -> & Hall & Hk); [discriminate|].
           exists (x :: pre), rest. cbn. rewrite Hx, Hall.
           repeat split; [discriminate | exact Hk].
        -- exists [x], r. cbn. rewrite Hx. repeat split; [discriminate | exact H].
      * intros (pre & rest & Hne & Hs & Hall & Hk).
        destruct pre as [|y pre]; [congruence|].
        injection Hs as <- ->. cbn in Hall. rewrite Hx in Hall.
        destruct pre as [|z pre].
        -- cbn [app]. destruct (many c k rest); [discriminate | exact Hk].
        -- assert (Hm : many c k ((z :: pre) ++ rest) <> None).
           { apply IH. exists (z :: pre), rest. repeat split; [discriminate|..]; auto. }
           destruct (many c k ((z :: pre) ++ rest)); [discriminate | congruence].
    + split; [congruence|].
      intros (pre & rest & Hne & Hs & Hall & _).
      destruct pre as [|y pre]; [congruence|].
      injection Hs as <- ->. cbn in Hall. rewrite Hx in Hall. discriminate.
Qed.
End RegExpFacts.

Section TestFacts.
Import Str RegExp.

(** The continuation of an anchored pattern: nothing is left. *)
Lemma at_end (r : list ascii) :
  match r with [] => Some tt | _ :: _ => None end <> None <-> r = [].
Proof. destruct r; split; congruence. Qed.

Lemma test_run p s :
  test p s = true <->
  run p (chars s) (fun r => match r with [] => Some tt | _ => None end) <> None.
Proof.
  unfold test.
  destruct (run p (chars s) _); split; congruence.
Qed.

(** [c+] up to the end of the string. *)
Lemma many_to_end (c : Class) s :
  many c (fun r => match r with [] => Some tt | _ => None end) s <> None <->
  s <> [] /\ forallb c s = true.
Proof.
  rewrite many_spec. split.
  - intros (pre & rest & Hne & -> & Hall & Hend).
    apply at_end in Hend. subst rest. rewrite app_nil_r. auto.
  - intros [Hne Hall]. exists s, []. rewrite app_nil_r.
    repeat split; auto. discriminate.
Qed.

Lemma lit_true c x : lit c x = true <-> x = c.
Proof. unfold lit. apply Ascii.eqb_eq. Qed.
End TestFacts.

(** ** Transaction hashes *)

Section TxHashFacts.
Import Str RegExp Utils.

Lemma validateTxHash_chars txHash :
  validateTxHash txHash = true <->
  exists ds,
    chars txHash = "0"%char :: "x"%char :: ds /\
    List.length ds = 64%nat /\ forallb hex ds = true.
Proof.
  unfold validateTxHash. rewrite test_run. cbn [run].
  destruct (chars txHash) as [|a [|b ds]].
  - split; [congruence | intros (ds & H & _); discriminate H].
  - split.
    + destruct (lit "0" a); congruence.
    + intros (ds & H & _). discriminate H.
  - destruct (lit "0" a) eqn:Ha.
    + destruct (lit "x" b) eqn:Hb.
      * apply lit_true in Ha, Hb. subst a b.
        rewrite times_spec. split.
        -- intros (pre & rest & -> & Hlen & Hall & Hend).
           apply at_end in Hend. subst rest. rewrite app_nil_r. eauto.
        -- intros (ds' & Hds & Hlen & Hall). injection Hds as <-.
           exists ds, []. rewrite app_nil_r. repeat split; auto. discriminate.
      * split; [congruence|].
        intros (ds' & Hds & _). injection Hds as _ -> _.
        unfold lit in Hb. cbn in Hb. discriminate.
    + split; [congruence|].
      intros (ds' & Hds & _). injection Hds as -> _ _.
      unfold lit in Ha. cbn in Ha. discriminate.
Qed.

Lemma chars_toLowerCase s : chars (toLowerCase s) = map lower (chars s).
Proof. unfold toLowerCase. apply chars_of_chars. Qed.

(** Facts on single code units, by enumeration. *)
Lemma lower_zero c : lower c = "0"%char -> c = "0"%char.
Proof.
  destruct c as [[] [] [] [] [] [] [] []]; vm_compute; intros H;
    first [reflexivity | discriminate H].
Qed.

Lemma lower_x c : lower c = "x"%char -> c = "x"%char \/ c = "X"%char.
Proof.
  destruct c as [[] [] [] [] [] [] [] []]; vm_compute; intros H;
    first [discriminate H | left; reflexivity | right; reflexivity].
Qed.

Lemma hex_lower c : hex (lower c) = hex c.
Proof. destruct c as [[] [] [] [] [] [] [] []]; reflexivity. Qed.

Lemma lower_lower c : lower (lower c) = lower c.
Proof. destruct c as [[] [] [] [] [] [] [] []]; reflexivity. Qed.

Lemma forallb_hex_lower ds : forallb hex (map lower ds) = forallb hex ds.
Proof.
  induction ds as [|d ds IH]; [reflexivity|].
  cbn. rewrite hex_lower, IH. reflexivity.
Qed.
End TxHashFacts.

(** X7.  [validateTxHash] accepts exactly the strings of 66 characters
    made of the prefix [0x], with a small x, and 64 hexadecimal digits
    of either case; nothing may come before or after them. *)
Theorem validateTxHash_spec (txHash : string) :
  Utils.validateTxHash txHash = true <->
  exists digits,
    txHash = ("0x" ++ Str.of_chars digits)%string /\
    List.length digits = 64%nat /\
    forallb RegExp.hex digits = true.
Proof.
  rewrite validateTxHash_chars. split.
  - intros (ds & Hs & Hlen & Hall). exists ds. repeat split; auto.
    apply chars_inj. rewrite Hs, chars_app, chars_of_chars. reflexivity.
  - intros (ds & -> & Hlen & Hall). exists ds. repeat split; auto.
    rewrite chars_app, chars_of_chars. reflexivity.
Qed.

(** X8.  [formatTxHash] turns into a valid hash exactly the strings made
    of [0x] or [0X] and 64 hexadecimal digits: a valid hash stays
    valid, and a hash written with a capital X, which [validateTxHash]
    rejects, becomes valid.  Formatting twice changes nothing more. *)
Theorem formatTxHash_normalizes (txHash : string) :
  (Utils.validateTxHash (Utils.formatTxHash txHash) = true <->
   exists x digits,
     Str.chars txHash = "0"%char :: x :: digits /\
     (x = "x"%char \/ x = "X"%char) /\
     List.length digits = 64%nat /\
     forallb RegExp.hex digits = true) /\
  (Utils.validateTxHash txHash = true ->
   Utils.validateTxHash (Utils.formatTxHash txHash) = true) /\
  Utils.formatTxHash (Utils.formatTxHash txHash) = Utils.formatTxHash txHash.
Proof.
  assert (Hiff : Utils.validateTxHash (Utils.formatTxHash txHash) = true <->
                 exists x digits,
                   Str.chars txHash = "0"%char :: x :: digits /\
                   (x = "x"%char \/ x = "X"%char) /\
                   List.length digits = 64%nat /\
                   forallb RegExp.hex digits = true).
  { rewrite validateTxHash_chars. unfold Utils.formatTxHash.
    rewrite chars_toLowerCase. split.
    - intros (ds & Hs & Hlen & Hall).
      destruct (Str.chars txHash) as [|a [|b digits]]; try discriminate Hs.
      cbn [map] in Hs. injection Hs as Ha Hb <-.
      apply lower_zero in Ha. apply lower_x in Hb. subst a.
      exists b, digits. rewrite length_map in Hlen.
      rewrite forallb_hex_lower in Hall. auto.
    - intros (x & digits & -> & Hx & Hlen & Hall).
      exists (map Str.lower digits).
      rewrite length_map, forallb_hex_lower.
      repeat split; auto.
      destruct Hx as [-> | ->]; reflexivity. }
  split; [exact Hiff|]. split.
  - intros Hvalid. apply Hiff. apply validateTxHash_chars in Hvalid.
    destruct Hvalid as (ds & Hs & Hlen & Hall). exists "x"%char, ds. auto.
  - unfold Utils.formatTxHash. apply chars_inj.
    rewrite !chars_toLowerCase, map_map.
    apply map_ext. intros c. apply lower_lower.
Qed.

(** ** E-mail addresses and license keys *)

Section ValidatorFacts.
Import Str RegExp Utils.

Lemma run_one A (c : Class) p s (k : list ascii -> option A) :
  run ((c, One) :: p) s k <> None <->
  exists x r, s = x :: r /\ c x = true /\ run p r k <> None.
Proof.
  cbn [run]. destruct s as [|x r].
  - split; [congruence | intros (x & r & H & _); discriminate H].
  - destruct (c x) eqn:Hx.
    + split; [eauto|]. intros (y & r' & H & _ & Hk). injection H as <- <-. exact Hk.
    + split; [congruence|].
      intros (y & r' & H & Hy & _). injection H as <- <-. congruence.
Qed.

Lemma validateLicenseKey_chars licenseKey :
  validateLicenseKey licenseKey = true <->
  List.length (chars licenseKey) = 32%nat /\
  forallb upper_or_digit (chars licenseKey) = true.
Proof.
  unfold validateLicenseKey. rewrite andb_true_iff, test_run. cbn [run].
  rewrite many_to_end. unfold len. rewrite Z.eqb_eq. split.
  - intros [Hlen [_ Hall]]. split; [lia | exact Hall].
  - intros [Hlen Hall]. split; [lia|]. split; [|exact Hall].
    destruct (chars licenseKey); [discriminate Hlen | discriminate].
Qed.
End ValidatorFacts.

(** X9.  [validateEmail] accepts exactly the strings of the shape
    [name@host.rest] in which [name], [host] and [rest] are not empty
    and hold neither white space nor the sign [@]; [host] and [rest]
    may hold further dots.  So an accepted address has one [@] only. *)
Theorem validateEmail_spec (email : string) :
  Utils.validateEmail email = true <->
  exists name host rest : list ascii,
    Str.chars email = name ++ "@"%char :: host ++ "."%char :: rest /\
    name <> [] /\ host <> [] /\ rest <> [] /\
    forallb RegExp.not_space_at name = true /\
    forallb RegExp.not_space_at host = true /\
    forallb RegExp.not_space_at rest = true.
Proof.
  unfold Utils.validateEmail. rewrite test_run.
  cbn [RegExp.run]. rewrite many_spec. split.
  - intros (name & r1 & Hname & Hs & Hall1 & Hk).
    change (RegExp.run [(RegExp.lit "@", RegExp.One);
                        (RegExp.not_space_at, RegExp.Plus);
                        (RegExp.lit ".", RegExp.One);
                        (RegExp.not_space_at, RegExp.Plus)] r1
              (fun r => match r with [] => Some tt | _ => None end) <> None) in Hk.
    apply run_one in Hk as (x & r2 & -> & Hx & Hk). apply lit_true in Hx. subst x.
    cbn [RegExp.run] in Hk. apply many_spec in Hk as (host & r3 & Hhost & -> & Hall2 & Hk).
    change (RegExp.run [(RegExp.lit ".", RegExp.One);
                        (RegExp.not_space_at, RegExp.Plus)] r3
              (fun r => match r with [] => Some tt | _ => None end) <> None) in Hk.
    apply run_one in Hk as (y & r4 & -> & Hy & Hk). apply lit_true in Hy. subst y.
    cbn [RegExp.run] in Hk. apply many_to_end in Hk as [Hrest Hall3].
    exists name, host, r4. auto 10.
  - intros (name & host & rest & Hs & Hname & Hhost & Hrest & Hall1 & Hall2 & Hall3).
    exists name, ("@"%char :: host ++ "."%char :: rest).
    repeat split; auto.
    change (RegExp.run [(RegExp.lit "@", RegExp.One);
                        (RegExp.not_space_at, RegExp.Plus);
                        (RegExp.lit ".", RegExp.One);
                        (RegExp.not_space_at, RegExp.Plus)]
              ("@"%char :: host ++ "."%char :: rest)
              (fun r => match r with [] => Some tt | _ => None end) <> None).
    apply run_one. exists "@"%char, (host ++ "."%char :: rest).
    repeat split; auto.
    cbn [RegExp.run]. apply many_spec.
    exists host, ("."%char :: rest). repeat split; auto.
    change (RegExp.run [(RegExp.lit ".", RegExp.One);
                        (RegExp.not_space_at, RegExp.Plus)]
              ("."%char :: rest)
              (fun r => match r with [] => Some tt | _ => None end) <> None).
    apply run_one. exists "."%char, rest. repeat split; auto.
    cbn [RegExp.run]. apply many_to_end. auto.
Qed.

Section LicenseKeyFacts.
Import Str RegExp Utils.
Context {env : Environment}.
Variable Math_random : World -> Q * World.
Hypothesis in_unit_interval : forall w, (0 <= fst (Math_random w) < 1)%Q.

Let chars36 : string := "ABCDEFGHIJKLMNOPQRSTUVWXYZ0123456789".

Lemma index_in_range (random : Q) :
  (0 <= random < 1)%Q -> 0 <= Qfloor (random * inject_Z 36)%Q < 36.
Proof.
  intros [H0 H1]. split.
  - change 0 with (Qfloor (inject_Z 0)). apply Qfloor_resp_le.
    change (inject_Z 0) with (0 * inject_Z 36)%Q.
    apply Qmult_le_compat_r; [exact H0 | discriminate].
  - apply Z.lt_nge. intros Hge.
    assert (H : (inject_Z 36 <= random * inject_Z 36)%Q).
    { eapply Qle_trans; [|apply Qfloor_le]. rewrite <- Zle_Qle. exact Hge. }
    assert (H' : (random * inject_Z 36 < 1 * inject_Z 36)%Q)
      by (apply Qmult_lt_compat_r; [reflexivity | exact H1]).
    apply (Qlt_irrefl (inject_Z 36)). eapply Qle_lt_trans; [exact H | exact H'].
Qed.

Lemma charAt_chars36 i :
  0 <= i < 36 ->
  exists c, charAt chars36 i = String c "" /\ upper_or_digit c = true.
Proof.
  intros Hi. unfold charAt.
  destruct (i <? 0) eqn:Hneg; [lia|].
  destruct (nth_error (chars chars36) (Z.to_nat i)) as [c|] eqn:Hnth.
  - exists c. split; [reflexivity|].
    apply nth_error_In in Hnth.
    assert (Hall : forallb upper_or_digit (chars chars36) = true) by reflexivity.
    rewrite forallb_forall in Hall. apply Hall. exact Hnth.
  - apply nth_error_None in Hnth. cbn in Hnth. lia.
Qed.

Lemma draw_chars n : forall result w,
  exists added,
    fst (draw Math_random chars36 n result w) = (result ++ of_chars added)%string /\
    List.length added = n /\ forallb upper_or_digit added = true.
Proof.
  induction n as [|n IH]; intros result w; cbn [draw].
  - exists []. cbn. split; [|auto]. apply chars_inj. rewrite chars_app. cbn.
    rewrite app_nil_r. reflexivity.
  - pose proof (in_unit_interval w) as Hr.
    destruct (Math_random w) as [random w']. cbn [fst] in Hr.
    change (Str.len chars36) with 36.
    destruct (charAt_chars36 (index_in_range Hr)) as (c & -> & Hc).
    destruct (IH (result ++ String c "")%string w') as (added & -> & Hlen & Hall).
    exists (c :: added). cbn. rewrite Hc, Hall, Hlen. repeat split.
    apply chars_inj. rewrite !chars_app. cbn. rewrite <- app_assoc. reflexivity.
Qed.
End LicenseKeyFacts.

(** X10.  Whatever numbers [Math.random] draws from [0, 1), the key
    that [generateLicenseKey] builds is accepted by
    [validateLicenseKey]: it has 32 characters, all of them capital
    letters or digits. *)
Theorem generateLicenseKey_valid {env : Environment}
        (Math_random : World -> Q * World) (w : World) :
  (forall w', (0 <= fst (Math_random w') < 1)%Q) ->
  Utils.validateLicenseKey (fst (Utils.generateLicenseKey Math_random w)) = true.
Proof.
  intros Hrange. unfold Utils.generateLicenseKey.
  destruct (draw_chars Math_random Hrange 32 "" w) as (added & -> & Hlen & Hall).
  apply validateLicenseKey_chars. cbn [append]. rewrite chars_of_chars. auto.
Qed.

Lemma generateLicenseKey_valid_witness :
  Utils.validateLicenseKey
    (fst (@Utils.generateLicenseKey Examples.clock Examples.hundredths 0)) = true.
Proof.
  apply (@generateLicenseKey_valid Examples.clock Examples.hundredths 0).
  intros w'. unfold Examples.hundredths, Qle, Qlt. cbn.
  pose proof (Z.mod_pos_bound w' 100). lia.
Defined.

(** ** [sanitizeInput] *)

Section RemoveFacts.
Import Str RegExp.

Lemma chars_replace_all p s : chars (replace_all p s) = remove p O (chars s).
Proof. unfold replace_all. apply chars_of_chars. Qed.

(** Removing matches only drops characters. *)
Lemma remove_In p : forall s skip c, In c (remove p skip s) -> In c s.
Proof.
  induction s as [|x r IH]; intros skip c H; [exact H|].
  cbn [remove] in H. destruct skip as [|n].
  - destruct (exec p (x :: r)) as [rest|].
    + destruct (List.length (x :: r) - List.length rest)%nat.
      * destruct H as [<- | H]; [left; reflexivity | right; eapply IH; exact H].
      * right. eapply IH; exact H.
    + destruct H as [<- | H]; [left; reflexivity | right; eapply IH; exact H].
  - right. eapply IH; exact H.
Qed.

Lemma remove_length p : forall s skip,
  (List.length (remove p skip s) <= List.length s)%nat.
Proof.
  induction s as [|x r IH]; intros skip; [reflexivity|].
  cbn [remove]. destruct skip as [|n].
  - destruct (exec p (x :: r)) as [rest|].
    + destruct (List.length (x :: r) - List.length rest)%nat; cbn [List.length].
      * specialize (IH O). lia.
      * specialize (IH n). lia.
    + cbn [List.length]. specialize (IH O). lia.
  - cbn [List.length]. specialize (IH n). lia.
Qed.

(** Once inside a match, the rest of the match is dropped. *)
Lemma remove_skip p w : forall rest,
  remove p (List.length w) (w ++ rest) = remove p O rest.
Proof.
  induction w as [|y w IH]; intros rest; [reflexivity|].
  cbn [List.length app remove]. apply IH.
Qed.

Lemma remove_match p h w rest :
  exec p (h :: w ++ rest) = Some rest ->
  remove p O (h :: w ++ rest) = remove p O rest.
Proof.
  intros Hexec. cbn [remove]. rewrite Hexec.
  replace (List.length (h :: w ++ rest) - List.length rest)%nat
    with (S (List.length w)) by (cbn [List.length]; rewrite length_app; lia).
  apply remove_skip.
Qed.

Lemma remove_keep p x r :
  exec p (x :: r) = None -> remove p O (x :: r) = x :: remove p O r.
Proof. intros Hexec. cbn [remove]. rewrite Hexec. reflexivity. Qed.

(** [replace(/[<>]/g, '')] drops the angle brackets and nothing else. *)
Lemma remove_angle s :
  remove [(angle, One)] O s = filter (fun c => negb (angle c)) s.
Proof.
  induction s as [|x r IH]; [reflexivity|].
  cbn [filter]. destruct (angle x) eqn:Hx; cbn [negb].
  - rewrite <- IH. apply (@remove_match [(angle, One)] x [] r).
    unfold exec. cbn [run app]. rewrite Hx. reflexivity.
  - rewrite <- IH. apply remove_keep. unfold exec. cbn [run]. rewrite Hx. reflexivity.
Qed.

(** A string in which every character of the class [c1] is followed by
    a copy of [w], a match of the pattern that a character of [c1]
    cannot start when [w] comes next: removing the matches removes the
    copies of [w] and gives the string back. *)
Lemma remove_inject (c1 c2 : Class) p' h w :
  c2 h = false ->
  (forall rest, exec ((c1, One) :: (c2, One) :: p') (h :: w ++ rest) = Some rest) ->
  forall t,
    remove ((c1, One) :: (c2, One) :: p') O
           (flat_map (fun x => if c1 x then x :: h :: w else [x]) t) = t.
Proof.
  intros Hh Hw. induction t as [|x t IH]; [reflexivity|].
  cbn [flat_map]. destruct (c1 x) eqn:Hx.
  - cbn [app]. rewrite remove_keep.
    + f_equal. rewrite remove_match by apply Hw. exact IH.
    + unfold exec. cbn [run]. rewrite Hx, Hh. reflexivity.
  - cbn [app]. rewrite remove_keep; [f_equal; exact IH|].
    unfold exec. cbn [run]. rewrite Hx. reflexivity.
Qed.

Lemma filter_all {T} (f : T -> bool) l : forallb f l = true -> filter f l = l.
Proof.
  induction l as [|x l IH]; [reflexivity|].
  cbn. destruct (f x); [|discriminate]. cbn. intros H. f_equal. auto.
Qed.

Lemma forallb_flat_map {T} (f : T -> bool) (g : T -> list T) l :
  (forall x, f x = true -> forallb f (g x) = true) ->
  forallb f l = true -> forallb f (flat_map g l) = true.
Proof.
  intros Hg. induction l as [|x l IH]; [reflexivity|].
  cbn. rewrite forallb_app, andb_true_iff. intros [Hx Hl]. rewrite andb_true_iff. auto.
Qed.
End RemoveFacts.

(** X11.  [sanitizeInput] only removes characters, and what it returns
    holds neither [<] nor [>]. *)
Theorem sanitizeInput_no_angle (input : string) :
  (forall c, In c (Str.chars (Utils.sanitizeInput input)) ->
             c <> "<"%char /\ c <> ">"%char /\ In c (Str.chars input)) /\
  Str.len (Utils.sanitizeInput input) <= Str.len input.
Proof.
  unfold Utils.sanitizeInput. split.
  - intros c Hc. rewrite !chars_replace_all in Hc.
    do 2 apply remove_In in Hc. rewrite remove_angle in Hc.
    apply filter_In in Hc as [Hin Hangle].
    repeat split; [| |exact Hin]; intros ->; discriminate Hangle.
  - unfold Str.len. rewrite !chars_replace_all.
    pose proof (remove_length
                  (RegExp.literal_i "on"
                   ++ [(RegExp.word, RegExp.Plus); (RegExp.lit_i "=", RegExp.One)]) 
                  (RegExp.remove (RegExp.literal_i "javascript:") 0
                     (RegExp.remove [(RegExp.angle, RegExp.One)] 0 (Str.chars input))) O).
    pose proof (remove_length (RegExp.literal_i "javascript:")
                  (RegExp.remove [(RegExp.angle, RegExp.One)] 0 (Str.chars input)) O).
    pose proof (remove_length [(RegExp.angle, RegExp.One)] (Str.chars input) O).
    lia.
Qed.

(** X12.  Beyond that, [sanitizeInput] promises nothing: every string
    without [<] and [>] is what it returns for some input, so its result
    can hold [javascript:] or an [on...=] handler again (the text of a
    match may come together out of what is left around a removed
    match, and a later pass does not look at it again). *)
Theorem sanitizeInput_onto (output : string) :
  forallb (fun c => negb (RegExp.angle c)) (Str.chars output) = true ->
  exists input, Utils.sanitizeInput input = output.
Proof.
  intros Hclean.
  set (handler := fun x : ascii =>
                    if RegExp.lit_i "o" x then x :: Str.chars "onx=" else [x]).
  set (scheme := fun x : ascii =>
                   if RegExp.lit_i "j" x then x :: Str.chars "javascript:" else [x]).
  exists (Str.of_chars (flat_map scheme (flat_map handler (Str.chars output)))).
  unfold Utils.sanitizeInput. apply chars_inj.
  rewrite !chars_replace_all, chars_of_chars, remove_angle.
  rewrite filter_all.
  - unfold scheme.
    rewrite (@remove_inject (RegExp.lit_i "j") (RegExp.lit_i "a")
               (RegExp.literal_i "vascript:") "j"%char (Str.chars "avascript:")
               eq_refl (fun rest => eq_refl)).
    unfold handler.
    apply (@remove_inject (RegExp.lit_i "o") (RegExp.lit_i "n")
             [(RegExp.word, RegExp.Plus); (RegExp.lit_i "=", RegExp.One)]
             "o"%char (Str.chars "nx=") eq_refl (fun rest => eq_refl)).
  - apply forallb_flat_map.
    + intros x Hx. unfold scheme. destruct (RegExp.lit_i "j" x); cbn; rewrite Hx;
        reflexivity.
    + apply forallb_flat_map; [|exact Hclean].
      intros x Hx. unfold handler. destruct (RegExp.lit_i "o" x); cbn; rewrite Hx;
        reflexivity.
Qed.

Lemma sanitizeInput_onto_witness :
  exists input, Utils.sanitizeInput input = "javascript:alert(1)".
Proof.
  apply (@sanitizeInput_onto "javascript:alert(1)"). vm_compute. reflexivity.
Defined.

(** ** [formatDuration] and [formatBytes] *)

(** X13.  [formatDuration] prints the two largest units of a duration
    given in whole seconds: seconds alone below a minute (a negative
    number is printed as it is); minutes and seconds below an hour,
    which lose nothing; hours and minutes below a day, which drop less
    than a minute; days and hours from a day on, which drop less than
    an hour.  The smaller part stays below 60 (below 24 for hours). *)
Theorem formatDuration_parts (seconds : Z) :
  (seconds < 60 -> Utils.formatDuration seconds = (JS.toString seconds ++ "s")%string) /\
  (60 <= seconds < 3600 ->
   exists m s,
     Utils.formatDuration seconds
     = (JS.toString m ++ "m " ++ JS.toString s ++ "s")%string /\
     1 <= m <= 59 /\ 0 <= s <= 59 /\ seconds = 60 * m + s) /\
  (3600 <= seconds < 86400 ->
   exists h m,
     Utils.formatDuration seconds
     = (JS.toString h ++ "h " ++ JS.toString m ++ "m")%string /\
     1 <= h <= 23 /\ 0 <= m <= 59 /\
     3600 * h + 60 * m <= seconds < 3600 * h + 60 * m + 60) /\
  (86400 <= seconds ->
   exists d h,
     Utils.formatDuration seconds
     = (JS.toString d ++ "d " ++ JS.toString h ++ "h")%string /\
     1 <= d /\ 0 <= h <= 23 /\
     86400 * d + 3600 * h <= seconds < 86400 * d + 3600 * h + 3600).
Proof.
  unfold Utils.formatDuration. repeat split.
  - intros H. destruct (seconds <? 60) eqn:H1; [reflexivity | lia].
  - intros H. destruct (seconds <? 60) eqn:H1; [lia|].
    destruct (seconds <? 3600) eqn:H2; [|lia].
    exists (seconds / 60), (Z.rem seconds 60).
    split; [reflexivity|]. rewrite Z.rem_mod_nonneg by lia. Z.div_mod_to_equations. lia.
  - intros H. destruct (seconds <? 60) eqn:H1; [lia|].
    destruct (seconds <? 3600) eqn:H2; [lia|].
    destruct (seconds <? 86400) eqn:H3; [|lia].
    exists (seconds / 3600), (Z.rem seconds 3600 / 60).
    split; [reflexivity|]. rewrite Z.rem_mod_nonneg by lia. Z.div_mod_to_equations. lia.
  - intros H. destruct (seconds <? 60) eqn:H1; [lia|].
    destruct (seconds <? 3600) eqn:H2; [lia|].
    destruct (seconds <? 86400) eqn:H3; [lia|].
    exists (seconds / 86400), (Z.rem seconds 86400 / 3600).
    split; [reflexivity|]. rewrite Z.rem_mod_nonneg by lia. Z.div_mod_to_equations. lia.
Qed.

Section BytesFacts.
Import Utils.

Lemma scale_continue size i :
  (1024 <= size)%Q -> (i < 5)%nat -> scale size i = scale (size / 1024)%Q (S i).
Proof.
  intros Hs Hi. rewrite scale_equation_1 at 1.
  destruct (Qlt_le_dec size 1024) as [Hlt|Hge].
  - exfalso. apply (Qlt_irrefl size). eapply Qlt_le_trans; eauto.
  - cbn. destruct (lt_dec i 5); [reflexivity | contradiction].
Qed.

Lemma scale_stop size i :
  (size < 1024)%Q \/ (5 <= i)%nat -> scale size i = (size, i).
Proof.
  intros H. rewrite scale_equation_1.
  destruct (Qlt_le_dec size 1024) as [Hlt|Hge]; [reflexivity|].
  cbn. destruct (lt_dec i 5) as [Hi|Hi]; [|reflexivity].
  destruct H as [H|H]; [|lia].
  exfalso. apply (Qlt_irrefl size). eapply Qlt_le_trans; eauto.
Qed.

(** [size] is the fraction [bytes / p]. *)
Lemma size_ge size bytes p :
  (size == bytes # p)%Q -> (1024 <= size)%Q <-> 1024 * Zpos p <= bytes.
Proof. intros ->. unfold Qle. cbn [Qnum Qden]. lia. Qed.

Lemma size_lt size bytes p :
  (size == bytes # p)%Q -> (size < 1024)%Q <-> bytes < 1024 * Zpos p.
Proof. intros ->. unfold Qlt. cbn [Qnum Qden]. lia. Qed.

Lemma size_div size bytes p :
  (size == bytes # p)%Q -> (size / 1024 == bytes # (p * 1024))%Q.
Proof.
  intros ->. unfold Qeq, Qdiv, Qmult, Qinv. cbn [Qnum Qden].
  rewrite !Pos2Z.inj_mul. lia.
Qed.

Lemma tenths_fraction size bytes p :
  (size == bytes # p)%Q -> tenths size = (20 * bytes + Zpos p) / (2 * Zpos p).
Proof.
  intros H. unfold tenths. rewrite H.
  unfold Qfloor, Qplus, Qmult. cbn [Qnum Qden].
  rewrite !Pos2Z.inj_mul. f_equal; lia.
Qed.

Lemma scale_fraction bytes n : forall size i p,
  (size == bytes # p)%Q -> Zpos p = 1024 ^ Z.of_nat i ->
  (i + n <= 5)%nat ->
  (forall j, (i <= j < i + n)%nat -> 1024 ^ Z.of_nat (S j) <= bytes) ->
  ((i + n < 5)%nat -> bytes < 1024 ^ Z.of_nat (S (i + n))) ->
  exists size' p',
    scale size i = (size', (i + n)%nat) /\
    (size' == bytes # p')%Q /\ Zpos p' = 1024 ^ Z.of_nat (i + n).
Proof.
  induction n as [|n IH]; intros size i p Hsize Hp Hmax Hge Hlt.
  - rewrite Nat.add_0_r in *. exists size, p. split; [|auto].
    apply scale_stop. destruct (le_lt_dec 5 i) as [H5|H5]; [right; exact H5 | left].
    apply (size_lt Hsize). rewrite Hp.
    rewrite <- Z.pow_succ_r, <- Nat2Z.inj_succ by lia. auto.
  - assert (Hstep : 1024 ^ Z.of_nat (S i) <= bytes) by (apply Hge; lia).
    rewrite scale_continue; [| |lia].
    + replace (i + S n)%nat with (S i + n)%nat in * by lia.
      apply (IH (size / 1024)%Q (S i) (p * 1024)%positive).
      * apply size_div. exact Hsize.
      * rewrite Pos2Z.inj_mul, Hp, Nat2Z.inj_succ, Z.pow_succ_r by lia. lia.
      * lia.
      * intros j Hj. apply Hge. lia.
      * exact Hlt.
    + apply (size_ge Hsize). rewrite Hp.
      rewrite Nat2Z.inj_succ, Z.pow_succ_r in Hstep by lia. exact Hstep.
Qed.

Lemma toFixed1_fraction size bytes p :
  (size == bytes # p)%Q -> 0 <= bytes ->
  toFixed1 size
  = (JS.toString ((20 * bytes + Zpos p) / (2 * Zpos p) / 10) ++ "."
     ++ JS.toString (((20 * bytes + Zpos p) / (2 * Zpos p)) mod 10))%string.
Proof.
  intros Hsize Hb. unfold toFixed1.
  destruct (Qlt_le_dec size 0) as [Hneg|Hpos].
  - exfalso. rewrite Hsize in Hneg. unfold Qlt in Hneg. cbn [Qnum Qden] in Hneg. lia.
  - rewrite (tenths_fraction Hsize). reflexivity.
Qed.

(** What [formatBytes] prints for [bytes >= 0] in the unit of index [k]. *)
Lemma formatBytes_unit bytes (k : nat) :
  0 <= bytes -> (k <= 5)%nat ->
  (k = 0%nat \/ 1024 ^ Z.of_nat k <= bytes) ->
  ((k < 5)%nat -> bytes < 1024 ^ Z.of_nat (S k)) ->
  formatBytes bytes
  = (let n := (20 * bytes + 1024 ^ Z.of_nat k) / (2 * 1024 ^ Z.of_nat k) in
     JS.toString (n / 10) ++ "." ++ JS.toString (n mod 10) ++ " "
     ++ nth k units "undefined")%string.
Proof.
  intros Hb Hk Hge Hlt. unfold formatBytes.
  destruct (@scale_fraction bytes k (inject_Z bytes) 0%nat 1%positive)
    as (size' & p' & Hscale & Hsize & Hp).
  - reflexivity.
  - reflexivity.
  - exact Hk.
  - intros j Hj. destruct Hge as [->|Hge]; [lia|].
    eapply Z.le_trans; [|exact Hge]. apply Z.pow_le_mono_r; lia.
  - exact Hlt.
  - cbn [Nat.add] in *. rewrite Hscale.
    rewrite (toFixed1_fraction Hsize Hb), Hp. cbv zeta.
    rewrite !append_assoc. reflexivity.
Qed.
End BytesFacts.

(** X14.  [formatBytes] chooses the unit before it rounds: a size that
    lies less than a twentieth of a unit below the next unit is printed
    as 1024.0 of the smaller unit (1048575 bytes are "1024.0 KB"), not
    as 1.0 of the next one. *)
Theorem formatBytes_rounds_up_to_1024 (bytes : Z) (k : nat) :
  (k < 5)%nat ->
  20479 * 1024 ^ Z.of_nat k <= 20 * bytes ->
  bytes < 1024 ^ Z.of_nat (S k) ->
  Utils.formatBytes bytes = ("1024.0 " ++ nth k Utils.units "undefined")%string.
Proof.
  intros Hk Hlow Hhigh.
  assert (Hpos : 0 < 1024 ^ Z.of_nat k) by (apply Z.pow_pos_nonneg; lia).
  rewrite (@formatBytes_unit bytes k) by lia. cbv zeta.
  replace ((20 * bytes + 1024 ^ Z.of_nat k) / (2 * 1024 ^ Z.of_nat k)) with 10240.
  - reflexivity.
  - rewrite Nat2Z.inj_succ, Z.pow_succ_r in Hhigh by lia.
    apply Z.div_unique with (r := 20 * bytes + 1024 ^ Z.of_nat k
                                  - 20480 * 1024 ^ Z.of_nat k); lia.
Qed.

Lemma formatBytes_rounds_up_to_1024_witness :
  Utils.formatBytes 1048575 = ("1024.0 " ++ nth 1 Utils.units "undefined")%string.
Proof.
  apply (@formatBytes_rounds_up_to_1024 1048575 1); [lia | vm_compute | vm_compute].
  - discriminate.
  - reflexivity.
Defined.

(** X15.  For a size that is not negative, [formatBytes] prints the
    size in the largest unit that does not exceed it (bytes below 1024,
    petabytes from 1024^5 on), rounded to the nearest tenth of that
    unit: the tenths [n] it prints differ from the exact value by half
    a tenth at most. *)
Theorem formatBytes_nearest_tenth (bytes : Z) (k : nat) :
  0 <= bytes -> (k <= 5)%nat ->
  (k = 0%nat \/ 1024 ^ Z.of_nat k <= bytes) ->
  ((k < 5)%nat -> bytes < 1024 ^ Z.of_nat (S k)) ->
  exists n,
    Utils.formatBytes bytes
    = (JS.toString (n / 10) ++ "." ++ JS.toString (n mod 10) ++ " "
       ++ nth k Utils.units "undefined")%string /\
    2 * Z.abs (10 * bytes - n * 1024 ^ Z.of_nat k) <= 1024 ^ Z.of_nat k.
Proof.
  intros Hb Hk Hge Hlt.
  exists ((20 * bytes + 1024 ^ Z.of_nat k) / (2 * 1024 ^ Z.of_nat k)).
  split; [apply formatBytes_unit; assumption|].
  assert (Hpos : 0 < 1024 ^ Z.of_nat k) by (apply Z.pow_pos_nonneg; lia).
  pose proof (Z.div_mod (20 * bytes + 1024 ^ Z.of_nat k) (2 * 1024 ^ Z.of_nat k)).
  pose proof (Z.mod_pos_bound (20 * bytes + 1024 ^ Z.of_nat k) (2 * 1024 ^ Z.of_nat k)).
  nia.
Qed.

Lemma formatBytes_nearest_tenth_witness :
  exists n,
    Utils.formatBytes 1536
    = (JS.toString (n / 10) ++ "." ++ JS.toString (n mod 10) ++ " "
       ++ nth 1 Utils.units "undefined")%string /\
    2 * Z.abs (10 * 1536 - n * 1024 ^ Z.of_nat 1) <= 1024 ^ Z.of_nat 1.
Proof.
  apply (@formatBytes_nearest_tenth 1536 1).
  - lia.
  - lia.
  - right. vm_compute. discriminate.
  - intros _. vm_compute. reflexivity.
Defined.

(** ** Gas arithmetic *)

Section BigIntFacts.
Import Str Utils.

Lemma drop_space_clean l :
  forallb (fun c => negb (RegExp.space c)) l = true -> drop_space l = l.
Proof.
  destruct l as [|c l]; [reflexivity|].
  cbn. destruct (RegExp.space c); [discriminate | reflexivity].
Qed.

Lemma trim_clean l :
  forallb (fun c => negb (RegExp.space c)) l = true -> trim l = l.
Proof.
  intros H. unfold trim. rewrite (drop_space_clean l H).
  rewrite drop_space_clean; [apply rev_involutive|].
  rewrite forallb_forall in *. intros c Hc. apply H. apply in_rev. exact Hc.
Qed.

Lemma drop_space_In l c : In c l -> RegExp.space c = false -> In c (drop_space l).
Proof.
  intros Hin Hc. induction l as [|x l IH]; [contradiction|].
  cbn. destruct (RegExp.space x) eqn:Hx.
  - destruct Hin as [-> | Hin]; [congruence | auto].
  - exact Hin.
Qed.

Lemma trim_In l c : In c l -> RegExp.space c = false -> In c (trim l).
Proof.
  intros Hin Hc. unfold trim. apply in_rev. rewrite rev_involutive.
  apply drop_space_In; [|exact Hc]. apply -> in_rev. apply drop_space_In; assumption.
Qed.

(** Facts on single code units, by enumeration. *)
Lemma digit_char c :
  Ethers.is_digit c = true ->
  RegExp.space c = false /\ Ascii.eqb c "-" = false /\ Ascii.eqb c "+" = false /\
  Ascii.eqb (lower c) "x" = false /\ Ascii.eqb (lower c) "o" = false /\
  Ascii.eqb (lower c) "b" = false /\
  digit_in 10 c = Some (Ethers.digit_value c).
Proof.
  destruct c as [[] [] [] [] [] [] [] []]; vm_compute; intros H;
    first [discriminate H | repeat split].
Qed.

Lemma digits_in_decimal l : forall acc,
  forallb Ethers.is_digit l = true ->
  digits_in 10 acc l
  = Some (fold_left (fun a c => 10 * a + Ethers.digit_value c) l acc).
Proof.
  induction l as [|c l IH]; intros acc H; [reflexivity|].
  cbn [forallb] in H. apply andb_prop in H as [Hc Hl].
  cbn [digits_in fold_left].
  destruct (digit_char c Hc) as (_ & _ & _ & _ & _ & _ & ->).
  rewrite IH by exact Hl. do 2 f_equal. lia.
Qed.

Lemma numeral_decimal l :
  l <> [] -> forallb Ethers.is_digit l = true ->
  numeral 10 l = Some (Ethers.value_of l).
Proof.
  intros Hne H. destruct l as [|c l]; [contradiction|].
  unfold numeral. apply digits_in_decimal. exact H.
Qed.

Lemma integer_literal_decimal l :
  l <> [] -> forallb Ethers.is_digit l = true ->
  integer_literal l = Some (Ethers.value_of l).
Proof.
  intros Hne H. destruct l as [|c r]; [contradiction|].
  pose proof H as Hall.
  cbn [forallb] in H. apply andb_prop in H as [Hc Hr].
  destruct (digit_char c Hc) as (_ & Hminus & Hplus & _).
  cbn [integer_literal]. rewrite Hminus, Hplus.
  destruct (Ascii.eqb c "0") eqn:Hzero; [|apply numeral_decimal; [discriminate | exact Hall]].
  destruct r as [|p ds].
  - apply Ascii.eqb_eq in Hzero. subst c. reflexivity.
  - cbn [forallb] in Hr. apply andb_prop in Hr as [Hp _].
    destruct (digit_char p Hp) as (_ & _ & _ & -> & -> & -> & _).
    apply numeral_decimal; [discriminate | exact Hall].
Qed.

Lemma digits_clean n :
  0 <= n -> forallb (fun c => negb (RegExp.space c)) (JS.digits n) = true.
Proof.
  intros Hn. pose proof (digits_are_digits Hn) as H.
  rewrite forallb_forall in *. intros c Hc.
  destruct (digit_char c (H c Hc)) as (-> & _). reflexivity.
Qed.

(** [BigInt] reads back what [toString] prints. *)
Lemma BigInt_toString z : BigInt (JS.toString z) = inr z.
Proof.
  unfold BigInt, JS.toString. destruct (z <? 0) eqn:Hneg.
  - change (chars (String "-" (string_of_list_ascii (JS.digits (- z)))))
      with ("-"%char :: chars (of_chars (JS.digits (- z)))).
    rewrite chars_of_chars.
    rewrite trim_clean by (cbn [forallb]; rewrite digits_clean by lia; reflexivity).
    cbn [integer_literal]. change (Ascii.eqb "-" "-") with true. cbv iota.
    rewrite numeral_decimal; [| apply digits_nonempty | apply digits_are_digits; lia].
    rewrite value_of_digits by lia. cbn. f_equal. lia.
  - change (chars (string_of_list_ascii (JS.digits z)))
      with (chars (of_chars (JS.digits z))).
    rewrite chars_of_chars, trim_clean by (apply digits_clean; lia).
    rewrite integer_literal_decimal;
      [| apply digits_nonempty | apply digits_are_digits; lia].
    rewrite value_of_digits by lia. reflexivity.
Qed.

Lemma lower_not_point p :
  Ascii.eqb (lower p) "x" = true \/ Ascii.eqb (lower p) "o" = true
  \/ Ascii.eqb (lower p) "b" = true ->
  p <> "."%char.
Proof. intros H ->. vm_compute in H. destruct H as [H | [H | H]]; discriminate H. Qed.

Lemma digits_in_point radix l : forall acc,
  In "."%char l -> digits_in radix acc l = None.
Proof.
  induction l as [|c l IH]; intros acc Hin; [contradiction|].
  cbn [digits_in]. destruct Hin as [-> | Hin].
  - unfold digit_in. change (between 48 57 ".") with false.
    change (between 97 102 ".") with false. change (between 65 70 ".") with false.
    cbv iota. rewrite Z.ltb_irrefl. reflexivity.
  - destruct (digit_in radix c); [apply IH; exact Hin | reflexivity].
Qed.

Lemma numeral_point radix l : In "."%char l -> numeral radix l = None.
Proof.
  intros Hin. destruct l; [contradiction|]. unfold numeral.
  apply digits_in_point. exact Hin.
Qed.

Lemma integer_literal_point l : In "."%char l -> integer_literal l = None.
Proof.
  intros Hin. destruct l as [|c r]; [contradiction|].
  cbn [integer_literal].
  destruct (Ascii.eqb c "-") eqn:Hminus.
  { apply Ascii.eqb_eq in Hminus. subst c.
    destruct Hin as [H | Hin]; [discriminate H|].
    rewrite numeral_point by exact Hin. reflexivity. }
  destruct (Ascii.eqb c "+") eqn:Hplus.
  { apply Ascii.eqb_eq in Hplus. subst c.
    destruct Hin as [H | Hin]; [discriminate H|].
    apply numeral_point. exact Hin. }
  destruct (Ascii.eqb c "0") eqn:Hzero; [|apply numeral_point; exact Hin].
  apply Ascii.eqb_eq in Hzero. subst c.
  destruct Hin as [H | Hin]; [discriminate H|].
  destruct r as [|p ds]; [contradiction|].
  assert (Hds : p <> "."%char -> In "."%char ds).
  { intros Hp. destruct Hin as [H | H]; [congruence | exact H]. }
  destruct (Ascii.eqb (lower p) "x") eqn:Hx.
  { apply numeral_point, Hds, lower_not_point. auto. }
  destruct (Ascii.eqb (lower p) "o") eqn:Ho.
  { apply numeral_point, Hds, lower_not_point. auto. }
  destruct (Ascii.eqb (lower p) "b") eqn:Hb.
  { apply numeral_point, Hds, lower_not_point. auto. }
  apply numeral_point. right. exact Hin.
Qed.

Lemma BigInt_point s : In "."%char (chars s) -> exists e, BigInt s = inl e.
Proof.
  intros Hin. unfold BigInt.
  rewrite integer_literal_point; [eauto|].
  apply trim_In; [exact Hin | reflexivity].
Qed.
End BigIntFacts.

(** X16.  On the decimal text of two integers, negative ones
    included, [calculateGasCost] and [calculateGasPrice] return the
    decimal text of their exact product: [BigInt] reads back what
    [toString] prints, and nothing is rounded. *)
Theorem gas_product (a b : Z) :
  Utils.calculateGasCost (JS.toString a) (JS.toString b) = inr (JS.toString (a * b)) /\
  Utils.calculateGasPrice (JS.toString a) (JS.toString b) = inr (JS.toString (a * b)).
Proof.
  unfold Utils.calculateGasCost, Utils.calculateGasPrice.
  rewrite !BigInt_toString. split; reflexivity.
Qed.

(** X17.  An argument with a decimal point makes both functions throw,
    whatever the other argument is: [BigInt] takes integer literals
    only, so a gas price such as "1.5" is an error, not a number. *)
Theorem gas_decimal_point_throws (a b : string) :
  In "."%char (Str.chars a) \/ In "."%char (Str.chars b) ->
  (exists e, Utils.calculateGasCost a b = inl e) /\
  (exists e, Utils.calculateGasPrice a b = inl e).
Proof.
  intros H. unfold Utils.calculateGasCost, Utils.calculateGasPrice.
  destruct H as [H | H]; destruct (BigInt_point _ H) as [e He].
  - rewrite He. eauto.
  - rewrite He. destruct (Utils.BigInt a); eauto.
Qed.

Lemma gas_decimal_point_throws_witness :
  (exists e, Utils.calculateGasCost "21000" "1.5" = inl e) /\
  (exists e, Utils.calculateGasPrice "21000" "1.5" = inl e).
Proof.
  apply (@gas_decimal_point_throws "21000" "1.5"). right. vm_compute. auto.
Defined.

(** ** Explorer links, webhook signatures, contract detection *)

(** X18.  The link of a transaction is the address of an explorer
    followed by the hash.  The network is looked up without regard to
    the case of its letters; [mumbai] and [testnet] give the Mumbai
    explorer, and every other name, known or not, gives the explorer of
    the main network, except the two names that every object
    inherits: [constructor] gives the text of the function [Object]
    instead of an address, and [__proto__] gives [[object Object]]. *)
Theorem getBlockExplorerUrl_cases (Object_text txHash network : string) :
  let key := Str.toLowerCase network in
  Utils.getBlockExplorerUrl Object_text txHash network
  = ((if (key =? "mumbai") || (key =? "testnet")
      then "https://mumbai.polygonscan.com/tx/"
      else if (key =? "constructor") then Object_text
      else if (key =? "__proto__") then "[object Object]"
      else "https://polygonscan.com/tx/") ++ txHash)%string.
Proof.
  intros key. unfold Utils.getBlockExplorerUrl, Utils.tx_explorers, Utils.or_else.
  fold key.
  destruct (key =? "polygon")%string eqn:H1.
  { apply String.eqb_eq in H1. rewrite H1. reflexivity. }
  destruct (key =? "mumbai")%string eqn:H2; [reflexivity|].
  destruct (key =? "mainnet")%string eqn:H3.
  { apply String.eqb_eq in H3. rewrite H3. reflexivity. }
  destruct (key =? "testnet")%string eqn:H4; [reflexivity|].
  destruct (key =? "constructor")%string eqn:H5; [reflexivity|].
  destruct (key =? "__proto__")%string eqn:H6; reflexivity.
Qed.

(** X19.  [verifyWebhookSignature] accepts a signature exactly when it
    is the one [createWebhookSignature] computes; and since the payload
    and the secret are joined without a separator, the signature of
    [payload ++ tail] under [secret] is also the signature of [payload]
    under [tail ++ secret]: it is accepted for both. *)
Theorem webhook_signature_boundary
        (toUtf8Bytes : string -> list Byte.byte) (sha256 : list Byte.byte -> string)
        (payload tail secret signature : string) :
  (Utils.verifyWebhookSignature toUtf8Bytes sha256 payload signature secret = true <->
   signature = Utils.createWebhookSignature toUtf8Bytes sha256 payload secret) /\
  Utils.verifyWebhookSignature toUtf8Bytes sha256 payload
    (Utils.createWebhookSignature toUtf8Bytes sha256 (payload ++ tail) secret)
    (tail ++ secret) = true.
Proof.
  unfold Utils.verifyWebhookSignature, Utils.createWebhookSignature. split.
  - apply String.eqb_eq.
  - rewrite append_assoc. apply String.eqb_refl.
Qed.

(** * The managers *)

(** ** The placeholders *)

(** X20.  No operation of the license, NFT and DeFi managers ever
    returns a result: each of them is rejected, whatever its arguments,
    and leaves the outside world and the trace as they were (no request,
    no timer). *)
Theorem placeholders_never_resolve {env : Environment} {chain : Client.Chain}
        (o : Operations.Operation) (s : Runtime.St) :
  Effects.placeholder o = true ->
  Operations.invoke o s <> None /\ Effects.after o s = s.
Proof.
  intros H. destruct o; try discriminate H; clear H;
    unfold Operations.invoke, Effects.after, Operations.failure_of, Effects.state_after;
    cbv beta iota delta
        [PolygonLicenseManager.createLicense PolygonLicenseManager.getLicense
         PolygonLicenseManager.updateLicense PolygonLicenseManager.revokeLicense
         PolygonLicenseManager.getLicensesByOwner PolygonLicenseManager.getLicenseCount
         PolygonLicenseManager.isLicenseValid PolygonLicenseManager.extendLicense
         PolygonNFTManager.mint PolygonNFTManager.getNFT PolygonNFTManager.transfer
         PolygonNFTManager.getNFTsByOwner PolygonNFTManager.getTotalSupply
         PolygonNFTManager.getOwner PolygonNFTManager.approve
         PolygonNFTManager.getApproved PolygonNFTManager.setApprovalForAll
         PolygonNFTManager.isApprovedForAll PolygonNFTManager.getTokenURI
         PolygonNFTManager.setTokenURI
         PolygonDeFiManager.getPools PolygonDeFiManager.getPool
         PolygonDeFiManager.addLiquidity PolygonDeFiManager.removeLiquidity
         PolygonDeFiManager.swap PolygonDeFiManager.getQuote
         PolygonDeFiManager.getReserves PolygonDeFiManager.getPrice
         PolygonDeFiManager.getLiquidity
         Runtime.try_catch Runtime.bind Runtime.when Runtime.throw Runtime.ret
         Stub.not_implemented];
    repeat match goal with
           | |- context [if ?b then _ else _] => destruct b
           end;
    cbn; split; first [discriminate | reflexivity].
Qed.

Lemma placeholders_never_resolve_witness :
  @Operations.invoke Examples.clock Examples.offline
     (Operations.DeFi_swap "0xA" "0xB" "10" "9") Examples.start <> None /\
  @Effects.after Examples.clock Examples.offline
     (Operations.DeFi_swap "0xA" "0xB" "10" "9") Examples.start = Examples.start.
Proof.
  apply (@placeholders_never_resolve Examples.clock Examples.offline
           (Operations.DeFi_swap "0xA" "0xB" "10" "9") Examples.start).
  reflexivity.
Defined.

(** ** Validation before any request *)

Section ManagerFacts.
Import Runtime Errors Types Client.
Context {env : Environment} {chain : Chain}.

(** The closure of [retry], for any asynchronous function. *)
Lemma attempt_resolves E T (fn : M E T) maxRetries delay tries s v s' :
  fn s = (inr v, s') -> Utils.attempt fn maxRetries delay tries s = (inr v, s').
Proof. intros H. simp attempt. rewrite H. simp attempt. reflexivity. Qed.

Lemma attempt_gives_up E T (fn : M E T) maxRetries delay tries s e s' :
  fn s = (inl e, s') -> tries + 1 >= maxRetries ->
  Utils.attempt fn maxRetries delay tries s = (inl e, s').
Proof.
  intros H Hn. simp attempt. rewrite H. simp attempt.
  destruct (Z_ge_dec (tries + 1) maxRetries); [|lia]. simp attempt. reflexivity.
Qed.

Lemma attempt_again E T (fn : M E T) maxRetries delay tries s e s' :
  fn s = (inl e, s') -> tries + 1 < maxRetries ->
  Utils.attempt fn maxRetries delay tries s
  = Utils.attempt fn maxRetries delay (tries + 1) (setTimeout (delay * 2 ^ tries) s').
Proof.
  intros H Hn. rewrite Utils.attempt_equation_1 at 1. rewrite H. simp attempt.
  destruct (Z_ge_dec (tries + 1) maxRetries); [lia|]. simp attempt.
  replace (tries + 1 - 1) with tries by lia. reflexivity.
Qed.

(** With the defaults of [retry], a function that fails three times in
    a row has been called three times, 1000 and then 2000 ms apart. *)
Lemma retry_three_failures E T (fn : M E T) s e1 s1 e2 s2 e3 s3 :
  fn s = (inl e1, s1) ->
  fn (setTimeout 1000 s1) = (inl e2, s2) ->
  fn (setTimeout 2000 s2) = (inl e3, s3) ->
  Utils.retry fn 3 1000 s = (inl e3, s3).
Proof.
  intros H1 H2 H3. unfold Utils.retry.
  rewrite (@attempt_again E T fn 3 1000 0 s e1 s1 H1) by lia.
  change (1000 * 2 ^ 0) with 1000. change (0 + 1) with 1.
  rewrite (@attempt_again E T fn 3 1000 1 _ e2 s2 H2) by lia.
  change (1000 * 2 ^ 1) with 2000. change (1 + 1) with 2.
  apply (@attempt_gives_up E T fn 3 1000 2 _ e3 s3 H3). lia.
Qed.

Lemma call_run A (r : Request A) (s : St) :
  call r s
  = (match fst (request r (world s)) with
     | inl msg => inl (Error msg)
     | inr a => inr a
     end,
     {| world := snd (request r (world s));
        trace := trace s ++ [EvClient (request_name r)] |}).
Proof. unfold call. destruct (request r (world s)). reflexivity. Qed.
End ManagerFacts.

(** X21.  The operations that validate an address reject an address
    that [validateAddress] refuses with the code INVALID_ADDRESS before
    they make any request: the outside world and the trace are as
    before the call.  This holds for [getTokenInfo], for [getContract]
    and the three contract operations built on it (the transaction
    needs a signer, whose absence is reported first), and for the
    balance, the transaction count, the information and the sending of
    the wallet manager (which needs a wallet, for the same reason). *)
Theorem invalid_address_before_network {env : Environment} {chain : Client.Chain}
        (address : string) (s : Runtime.St) :
  Utils.validateAddress address = false ->
  (forall self,
      PolygonTokenManager.getTokenInfo self address s
      = (inl (Errors.PolygonError "Invalid token address" "INVALID_ADDRESS"), s)) /\
  (forall self abi,
      PolygonContractManager.getContract self address abi s
      = (inl (Errors.PolygonError "Invalid contract address" "INVALID_ADDRESS"), s)) /\
  (forall self abi methodName args,
      PolygonContractManager.callContractMethod self address abi methodName args s
      = (inl (Errors.PolygonError "Invalid contract address" "INVALID_ADDRESS"), s)) /\
  (forall self abi eventName fromBlock toBlock,
      PolygonContractManager.getContractEvents self address abi eventName
                                               fromBlock toBlock s
      = (inl (Errors.PolygonError "Invalid contract address" "INVALID_ADDRESS"), s)) /\
  (forall self abi methodName args options,
      PolygonContractManager.signer self <> None ->
      PolygonContractManager.sendContractTransaction self address abi methodName
                                                     args options s
      = (inl (Errors.PolygonError "Invalid contract address" "INVALID_ADDRESS"), s)) /\
  (forall self,
      PolygonWalletManager.getWalletBalance self address s
      = (inl (Errors.PolygonError "Invalid address" "INVALID_ADDRESS"), s)) /\
  (forall self,
      PolygonWalletManager.getWalletTransactionCount self address s
      = (inl (Errors.PolygonError "Invalid address" "INVALID_ADDRESS"), s)) /\
  (forall self,
      PolygonWalletManager.getWalletInfo self address s
      = (inl (Errors.PolygonError "Invalid address" "INVALID_ADDRESS"), s)) /\
  (forall self value gasLimit gasPrice,
      PolygonWalletManager.wallet self <> None ->
      PolygonWalletManager.sendTransaction self address value gasLimit gasPrice s
      = (inl (Errors.PolygonError "Invalid recipient address" "INVALID_ADDRESS"), s)).
Proof.
  intros Hbad. repeat split; intros.
  - unfold PolygonTokenManager.getTokenInfo, Runtime.try_catch, Runtime.bind.
    rewrite Hbad. reflexivity.
  - unfold PolygonContractManager.getContract, Runtime.try_catch, Runtime.bind.
    rewrite Hbad. reflexivity.
  - unfold PolygonContractManager.callContractMethod, PolygonContractManager.getContract,
      Runtime.try_catch, Runtime.bind.
    rewrite Hbad. reflexivity.
  - unfold PolygonContractManager.getContractEvents, PolygonContractManager.getContract,
      Runtime.try_catch, Runtime.bind.
    rewrite Hbad. reflexivity.
  - unfold PolygonContractManager.sendContractTransaction,
      PolygonContractManager.getContract, Runtime.try_catch, Runtime.bind.
    destruct (PolygonContractManager.signer self); [|contradiction].
    rewrite Hbad. reflexivity.
  - unfold PolygonWalletManager.getWalletBalance, Runtime.try_catch, Runtime.bind.
    rewrite Hbad. reflexivity.
  - unfold PolygonWalletManager.getWalletTransactionCount, Runtime.try_catch,
      Runtime.bind.
    rewrite Hbad. reflexivity.
  - unfold PolygonWalletManager.getWalletInfo, Runtime.try_catch, Runtime.bind.
    rewrite Hbad. reflexivity.
  - unfold PolygonWalletManager.sendTransaction, Runtime.try_catch, Runtime.bind.
    destruct (PolygonWalletManager.wallet self); [|contradiction].
    rewrite Hbad. reflexivity.
Qed.

Lemma invalid_address_before_network_witness :
  (forall self,
      @PolygonTokenManager.getTokenInfo Examples.clock Examples.picky self "0x123"
        Examples.start
      = (inl (Errors.PolygonError "Invalid token address" "INVALID_ADDRESS"),
         Examples.start)) /\
  (forall self,
      @PolygonWalletManager.getWalletInfo Examples.clock Examples.picky self "0x123"
        Examples.start
      = (inl (Errors.PolygonError "Invalid address" "INVALID_ADDRESS"),
         Examples.start)).
Proof.
  pose proof (@invalid_address_before_network Examples.clock Examples.picky "0x123"
                Examples.start eq_refl) as H.
  split; [apply H | apply H].
Defined.

(** ** Retries inside the managers *)

(** X22.  [transferToken] asks for the decimals once and then tries the
    transfer three times, waiting 1000 and then 2000 ms, when the node
    rejects every transfer.  What the caller then gets is not an error
    of the taxonomy around the error of the third try: the handler's
    [new PolygonNetworkError(..)] throws a [TypeError], since
    [errors.ts] declares no such class. *)
Theorem transferToken_gives_up_after_three {env : Environment} {chain : Client.Chain}
        (self : PolygonTokenManager.t) (signer : Client.Wallet)
        (tokenAddress toAddress amount transferAmount : string)
        (gasLimit : option Z) (decimals : Z) (s : Runtime.St) :
  PolygonTokenManager.signer self = Some signer ->
  Client.isAbi ["function transfer(address,uint256) returns (bool)";
                "function decimals() view returns (uint8)"] = true ->
  (forall contract w, exists w',
      Client.request (Client.erc20_decimals contract) w = (inr decimals, w')) ->
  Utils.parseUnits amount decimals = inr transferAmount ->
  (forall contract w, exists msg w',
      Client.request (Client.erc20_transfer contract toAddress transferAmount gasLimit) w
      = (inl msg, w')) ->
  exists s',
    PolygonTokenManager.transferToken self tokenAddress toAddress amount gasLimit s
    = (inl (Errors.not_a_constructor "PolygonNetworkError"), s')
    /\ Runtime.trace s'
       = Runtime.trace s
         ++ [EvClient "contract.decimals";
             EvClient "contract.transfer"; EvTimer 1000;
             EvClient "contract.transfer"; EvTimer 2000;
             EvClient "contract.transfer"].
Proof.
  intros Hsigner Habi Hdecimals Hamount Hfail.
  unfold PolygonTokenManager.transferToken, Runtime.try_catch, Runtime.bind.
  rewrite Hsigner. unfold Client.new_Contract. rewrite Habi. unfold Runtime.ret at 1.
  set (contract := {| Client.contract_address := tokenAddress;
                      Client.contract_abi := _;
                      Client.contract_signer := Some signer |}).
  rewrite call_run.
  destruct (Hdecimals contract (Runtime.world s)) as [w0 Hd]. rewrite Hd.
  cbn [fst snd]. unfold Client.lift at 1. rewrite Hamount.
  set (s0 := {| Runtime.world := w0; Runtime.trace := _ |}).
  set (fn := Client.call (Client.erc20_transfer contract toAddress transferAmount
                            gasLimit)).
  destruct (Hfail contract (Runtime.world s0)) as (m1 & w1 & H1).
  assert (F1 : fn s0 = (inl (Errors.Error m1),
                        {| Runtime.world := w1;
                           Runtime.trace := Runtime.trace s0
                                            ++ [EvClient "contract.transfer"] |})).
  { unfold fn. rewrite call_run, H1. reflexivity. }
  set (s1 := {| Runtime.world := w1; Runtime.trace := _ |}) in F1.
  destruct (Hfail contract (Runtime.world (Runtime.setTimeout 1000 s1)))
    as (m2 & w2 & H2).
  assert (F2 : fn (Runtime.setTimeout 1000 s1)
               = (inl (Errors.Error m2),
                  {| Runtime.world := w2;
                     Runtime.trace := Runtime.trace (Runtime.setTimeout 1000 s1)
                                      ++ [EvClient "contract.transfer"] |})).
  { unfold fn. rewrite call_run, H2. reflexivity. }
  set (s2 := {| Runtime.world := w2; Runtime.trace := _ |}) in F2.
  destruct (Hfail contract (Runtime.world (Runtime.setTimeout 2000 s2)))
    as (m3 & w3 & H3).
  assert (F3 : fn (Runtime.setTimeout 2000 s2)
               = (inl (Errors.Error m3),
                  {| Runtime.world := w3;
                     Runtime.trace := Runtime.trace (Runtime.setTimeout 2000 s2)
                                      ++ [EvClient "contract.transfer"] |})).
  { unfold fn. rewrite call_run, H3. reflexivity. }
  erewrite retry_three_failures; [| exact F1 | exact F2 | exact F3].
  eexists. split; [reflexivity|].
  cbn [Runtime.trace Runtime.setTimeout s2 s1 s0]. rewrite <- !app_assoc. reflexivity.
Qed.

Lemma transferToken_gives_up_after_three_witness :
  exists s',
    @PolygonTokenManager.transferToken Examples.clock Examples.congested
      {| PolygonTokenManager.config := Examples.read_only;
         PolygonTokenManager.signer := Some Examples.funded |}
      "0x2791Bca1f2de4661ED88A30C99A7a9449Aa84174"
      "0x5DF9B87991262F6BA471F09758CDE1c0FC1De734" "1.5" None Examples.start
    = (inl (Errors.not_a_constructor "PolygonNetworkError"), s')
    /\ Runtime.trace s'
       = Runtime.trace Examples.start
         ++ [EvClient "contract.decimals";
             EvClient "contract.transfer"; EvTimer 1000;
             EvClient "contract.transfer"; EvTimer 2000;
             EvClient "contract.transfer"].
Proof.
  apply (@transferToken_gives_up_after_three Examples.clock Examples.congested
           _ Examples.funded _ _ "1.5" "150" None 2 Examples.start).
  - reflexivity.
  - reflexivity.
  - intros contract w. exists w. reflexivity.
  - vm_compute. reflexivity.
  - intros contract w. exists "replacement fee too low", w. reflexivity.
Defined.

(** X23.  [sendTransaction] parses the amount inside the function that
    it hands to [retry]: an amount that [parseEther] rejects is parsed
    three times, so the call waits 1000 and then 2000 ms and only then
    fails, without having made a request; and it fails with the
    [TypeError] of [new PolygonNetworkError(..)], which does not tell
    the caller that the amount was wrong. *)
Theorem sendTransaction_retries_bad_value {env : Environment} {chain : Client.Chain}
        (self : PolygonWalletManager.t) (wallet : Client.Wallet)
        (to value msg : string) (gasLimit : option Z) (gasPrice : option string)
        (s : Runtime.St) :
  PolygonWalletManager.wallet self = Some wallet ->
  Utils.validateAddress to = true ->
  Ethers.parseEther value = inl (Errors.Error msg) ->
  PolygonWalletManager.sendTransaction self to value gasLimit gasPrice s
  = (inl (Errors.not_a_constructor "PolygonNetworkError"),
     {| Runtime.world := elapse 2000 (elapse 1000 (Runtime.world s));
        Runtime.trace := Runtime.trace s ++ [EvTimer 1000; EvTimer 2000] |}).
Proof.
  intros Hwallet Hto Hvalue.
  unfold PolygonWalletManager.sendTransaction, Runtime.try_catch.
  rewrite Hwallet, Hto. cbn [negb Runtime.when]. unfold Runtime.bind at 1.
  unfold Runtime.ret at 1. unfold Runtime.bind at 1.
  match goal with
  | |- context [Utils.retry ?f 3 1000] =>
      assert (F : forall s0, f s0 = (inl (Errors.Error msg), s0))
        by (intros s0; unfold Runtime.bind, Client.lift; rewrite Hvalue; reflexivity)
  end.
  erewrite retry_three_failures; [| apply F | apply F | apply F].
  cbn [Errors.instanceof_PolygonError]. unfold Runtime.throw, Runtime.setTimeout.
  cbn [Runtime.world Runtime.trace]. rewrite <- app_assoc. reflexivity.
Qed.

Lemma sendTransaction_retries_bad_value_witness :
  @PolygonWalletManager.sendTransaction Examples.clock Examples.offline
      {| PolygonWalletManager.config := Examples.read_only;
         PolygonWalletManager.wallet := Some Examples.funded |}
      "0x5DF9B87991262F6BA471F09758CDE1c0FC1De734" "one" None None Examples.start
    = (inl (Errors.not_a_constructor "PolygonNetworkError"),
       {| Runtime.world := @elapse Examples.clock 2000
                             (@elapse Examples.clock 1000
                                (Runtime.world Examples.start));
          Runtime.trace := Runtime.trace Examples.start
                           ++ [EvTimer 1000; EvTimer 2000] |}).
Proof.
  eapply (@sendTransaction_retries_bad_value Examples.clock Examples.offline
            _ Examples.funded _ "one" _ None None Examples.start).
  - reflexivity.
  - reflexivity.
  - vm_compute. reflexivity.
Defined.

(** ** The holders of a token *)

Section HolderFacts.
Import PolygonTokenManager Ledger.

Lemma lookup_assign_same l k v : balance_or_zero (assign l k v) k = v.
Proof.
  induction l as [|[k' b] l IH]; cbn.
  - rewrite String.eqb_refl. reflexivity.
  - destruct (k' =? k)%string eqn:H; cbn; rewrite H; [reflexivity | exact IH].
Qed.

Lemma lookup_assign_other l k v a :
  k <> a -> balance_or_zero (assign l k v) a = balance_or_zero l a.
Proof.
  intros Hne. induction l as [|[k' b] l IH]; cbn.
  - apply String.eqb_neq in Hne. rewrite Hne. reflexivity.
  - destruct (k' =? k)%string eqn:H; cbn.
    + apply String.eqb_eq in H. subst k'.
      apply String.eqb_neq in Hne. rewrite Hne. reflexivity.
    + rewrite IH. reflexivity.
Qed.

Lemma keys_assign l k v a :
  In a (map fst (assign l k v)) <-> a = k \/ In a (map fst l).
Proof.
  induction l as [|[k' b] l IH]; cbn.
  - intuition.
  - destruct (k' =? k)%string eqn:H; cbn.
    + apply String.eqb_eq in H. subst k'. intuition.
    + rewrite IH. intuition.
Qed.

Lemma NoDup_assign l k v : NoDup (map fst l) -> NoDup (map fst (assign l k v)).
Proof.
  induction l as [|[k' b] l IH]; cbn; intros Hnd.
  - constructor; [intros [] | constructor].
  - inversion Hnd as [|? ? Hnot Hrest]; subst.
    destruct (k' =? k)%string eqn:H; cbn.
    + constructor; assumption.
    + constructor; [|apply IH; exact Hrest].
      rewrite keys_assign. intros [-> | Hin]; [|contradiction].
      rewrite String.eqb_refl in H. discriminate.
Qed.

Lemma In_lookup l a b : NoDup (map fst l) -> In (a, b) l -> balance_or_zero l a = b.
Proof.
  induction l as [|[k' b'] l IH]; cbn; intros Hnd Hin; [contradiction|].
  inversion Hnd as [|? ? Hnot Hrest]; subst.
  destruct Hin as [Heq | Hin].
  - injection Heq as -> ->. rewrite String.eqb_refl. reflexivity.
  - destruct (k' =? a)%string eqn:H; [|apply IH; assumption].
    apply String.eqb_eq in H. subst k'. exfalso. apply Hnot.
    apply (in_map fst) in Hin. exact Hin.
Qed.

Lemma lookup_In l a : balance_or_zero l a <> 0 -> In (a, balance_or_zero l a) l.
Proof.
  induction l as [|[k' b'] l IH]; cbn; intros H; [congruence|].
  destruct (k' =? a)%string eqn:Hk.
  - apply String.eqb_eq in Hk. subst k'. left. reflexivity.
  - right. apply IH. exact H.
Qed.

Lemma BigInt_value v :
  0 <= v -> BigInt (JS.toString v) = inr v.
Proof.
  intros Hv. unfold BigInt.
  rewrite BigNumber_from_toString by exact Hv.
  unfold JS.falsy. rewrite toString_nonneg by exact Hv.
  destruct (JS.digits v) as [|c l] eqn:Hd; [|reflexivity].
  exfalso. apply (digits_nonempty v Hd).
Qed.

Lemma net_cons account event events :
  net account (event :: events)
  = (if (Client.args_to event =? account)%string then Client.args_value event else 0)
    - (if (Client.args_from event =? account)%string then Client.args_value event else 0)
    + net account events.
Proof.
  unfold net, inflow, outflow. cbn [filter].
  destruct (Client.args_to event =? account)%string;
    destruct (Client.args_from event =? account)%string; cbn [map fold_right]; lia.
Qed.

(** The loop over the transfers: every account but the zero address
    ends with what it had plus what the logs moved. *)
Lemma tally_spec events : forall balances,
  Forall well_formed events ->
  NoDup (map fst balances) ->
  ~ In zero_address (map fst balances) ->
  exists balances',
    tally (map transfer_of_event events) balances = inr balances' /\
    NoDup (map fst balances') /\
    ~ In zero_address (map fst balances') /\
    forall account,
      account <> zero_address ->
      balance_or_zero balances' account
      = balance_or_zero balances account + net account events.
Proof.
  induction events as [|event events IH]; intros balances Hwf Hnd Hzero.
  - exists balances. cbn. repeat split; auto. intros. unfold net. cbn. lia.
  - inversion Hwf as [|? ? [Hv _] Hrest]; subst.
    cbn [map tally]. unfold transfer_of_event at 1. cbn [Records.transfer_value
      Records.transfer_from Records.transfer_to].
    rewrite BigInt_value by exact Hv.
    set (from := Client.args_from event). set (to := Client.args_to event).
    set (value := Client.args_value event).
    set (b1 := if negb (from =? zero_address)%string
               then assign balances from (balance_or_zero balances from - value)
               else balances).
    set (b2 := if negb (to =? zero_address)%string
               then assign b1 to (balance_or_zero b1 to + value)
               else b1).
    assert (Hnd1 : NoDup (map fst b1)).
    { unfold b1. destruct (from =? zero_address)%string; cbn [negb];
        [exact Hnd | apply NoDup_assign; exact Hnd]. }
    assert (Hz1 : ~ In zero_address (map fst b1)).
    { unfold b1. destruct (from =? zero_address)%string eqn:Hf; cbn [negb];
        [exact Hzero|].
      rewrite keys_assign. intros [H | H]; [|contradiction].
      rewrite <- H, String.eqb_refl in Hf. discriminate. }
    assert (Hnd2 : NoDup (map fst b2)).
    { unfold b2. destruct (to =? zero_address)%string; cbn [negb];
        [exact Hnd1 | apply NoDup_assign; exact Hnd1]. }
    assert (Hz2 : ~ In zero_address (map fst b2)).
    { unfold b2. destruct (to =? zero_address)%string eqn:Ht; cbn [negb];
        [exact Hz1|].
      rewrite keys_assign. intros [H | H]; [|contradiction].
      rewrite <- H, String.eqb_refl in Ht. discriminate. }
    destruct (IH b2 Hrest Hnd2 Hz2) as (balances' & Hrun & Hnd' & Hz' & Hbal).
    exists balances'. repeat split; auto.
    intros account Hacc. rewrite (Hbal account Hacc), net_cons.
    fold from to value.
    assert (H1 : balance_or_zero b1 account
                 = balance_or_zero balances account
                   - (if (from =? account)%string then value else 0)).
    { unfold b1. destruct (from =? zero_address)%string eqn:Hf; cbn [negb].
      - apply String.eqb_eq in Hf.
        destruct (from =? account)%string eqn:Hfa; [|lia].
        apply String.eqb_eq in Hfa. congruence.
      - destruct (from =? account)%string eqn:Hfa.
        + apply String.eqb_eq in Hfa. subst account.
          rewrite lookup_assign_same. reflexivity.
        + apply String.eqb_neq in Hfa. rewrite lookup_assign_other by exact Hfa. lia. }
    assert (H2 : balance_or_zero b2 account
                 = balance_or_zero b1 account
                   + (if (to =? account)%string then value else 0)).
    { unfold b2. destruct (to =? zero_address)%string eqn:Ht; cbn [negb].
      - apply String.eqb_eq in Ht.
        destruct (to =? account)%string eqn:Hta; [|lia].
        apply String.eqb_eq in Hta. congruence.
      - destruct (to =? account)%string eqn:Hta.
        + apply String.eqb_eq in Hta. subst account.
          rewrite lookup_assign_same. reflexivity.
        + apply String.eqb_neq in Hta. rewrite lookup_assign_other by exact Hta. lia. }
    lia.
Qed.
End HolderFacts.

(** X24.  [getTokenHolders] nets the Transfer logs that the node
    returns: its result lists an account exactly when the account is
    not the zero address and has received more than it has sent in
    those logs, with that difference as its balance, and lists no
    account twice.  Accounts whose net balance is zero or negative
    (they received some of their tokens before [fromBlock]) are left
    out. *)
Theorem getTokenHolders_net {env : Environment} {chain : Client.Chain}
        (self : PolygonTokenManager.t) (tokenAddress : string)
        (fromBlock toBlock : option Z) (events : list Client.TransferLog)
        (s : Runtime.St) (w' : World) :
  Client.isAbi
    ["event Transfer(address indexed from, address indexed to, uint256 value)"] = true ->
  Client.request
    (Client.queryTransfers
       {| Client.contract_address := tokenAddress;
          Client.contract_abi :=
            ["event Transfer(address indexed from, address indexed to, uint256 value)"];
          Client.contract_signer := None |}
       None None fromBlock toBlock)
    (Runtime.world s) = (inr events, w') ->
  Forall Ledger.well_formed events ->
  exists holders s',
    PolygonTokenManager.getTokenHolders self tokenAddress fromBlock toBlock s
    = (inr holders, s') /\
    NoDup (map fst holders) /\
    forall account balance,
      In (account, balance) holders <->
      account <> PolygonTokenManager.zero_address /\
      0 < Ledger.net account events /\
      balance = JS.toString (Ledger.net account events).
Proof.
  intros Habi Hquery Hwf.
  destruct (@tally_spec events [] Hwf) as (balances & Hrun & Hnd & Hzero & Hbal);
    [constructor | intros [] |].
  unfold PolygonTokenManager.getTokenHolders, PolygonTokenManager.getTokenTransfers,
    Runtime.try_catch, Runtime.bind, Client.new_Contract.
  rewrite Habi. unfold Runtime.ret at 1. rewrite call_run, Hquery. cbn [fst snd].
  unfold Runtime.ret at 1. unfold Client.lift. rewrite Hrun. unfold Runtime.ret.
  eexists. eexists. split; [reflexivity|]. split.
  - rewrite map_map. cbn [fst].
    assert (Hsub : forall l : list (string * Z),
               NoDup (map fst l) ->
               NoDup (map (fun x => fst x) (filter (fun entry => 0 <? snd entry) l))).
    { induction l as [|[k b] l IHl]; cbn; intros H; [constructor|].
      inversion H as [|? ? Hnot Hrest]; subst.
      destruct (0 <? b); cbn; [constructor|]; auto.
      intros Hin. apply Hnot. apply in_map_iff in Hin as ([k' b'] & Hk & Hin).
      apply filter_In in Hin as [Hin _]. cbn in Hk. subst k'.
      apply (in_map fst) in Hin. exact Hin. }
    apply Hsub. exact Hnd.
  - intros account balance. rewrite in_map_iff. split.
    + intros ([k b] & Heq & Hin). cbn [fst snd] in Heq. injection Heq as -> <-.
      apply filter_In in Hin as [Hin Hpos]. cbn [snd] in Hpos.
      assert (Hacc : account <> PolygonTokenManager.zero_address).
      { intros ->. apply Hzero. apply (in_map fst) in Hin. exact Hin. }
      pose proof (In_lookup _ _ _ Hnd Hin) as Hlook.
      rewrite (Hbal account Hacc) in Hlook. cbn [PolygonTokenManager.balance_or_zero]
        in Hlook.
      replace (Ledger.net account events) with b by lia.
      repeat split; [exact Hacc | lia].
    + intros (Hacc & Hpos & ->).
      pose proof (Hbal account Hacc) as Hlook.
      cbn [PolygonTokenManager.balance_or_zero] in Hlook.
      exists (account, Ledger.net account events). split; [reflexivity|].
      apply filter_In. split; [|cbn [snd]; lia].
      rewrite Z.add_0_l in Hlook. rewrite <- Hlook.
      apply lookup_In. lia.
Qed.

Lemma getTokenHolders_net_witness :
  exists holders s',
    @PolygonTokenManager.getTokenHolders Examples.clock Examples.archive
      {| PolygonTokenManager.config := Examples.read_only;
         PolygonTokenManager.signer := None |}
      "0x2791Bca1f2de4661ED88A30C99A7a9449Aa84174" None None Examples.start
    = (inr holders, s') /\
    NoDup (map fst holders) /\
    forall account balance,
      In (account, balance) holders <->
      account <> PolygonTokenManager.zero_address /\
      0 < Ledger.net account [Examples.minted; Examples.sent] /\
      balance = JS.toString (Ledger.net account [Examples.minted; Examples.sent]).
Proof.
  apply (@getTokenHolders_net Examples.clock Examples.archive _
           "0x2791Bca1f2de4661ED88A30C99A7a9449Aa84174" None None
           [Examples.minted; Examples.sent] Examples.start 0).
  - reflexivity.
  - reflexivity.
  - repeat constructor; cbn; lia.
Defined.

(** ** The wallet of the wallet manager *)

(** X25.  The life of the wallet in the wallet manager.  [setWallet]
    with a key that the library refuses fails with the code
    INVALID_PRIVATE_KEY, without a request.  With a key that it accepts,
    the manager holds the wallet of that key: [getCurrentWallet] gives
    its address and keys, always with an empty mnemonic and index 0.
    After [disconnect], [getCurrentWallet] gives [null], [signMessage]
    fails with SIGNING_FAILED and [sendTransaction] with
    WALLET_NOT_INITIALIZED, none of them with a request. *)
Theorem wallet_lifecycle {env : Environment} {chain : Client.Chain}
        (self : PolygonWalletManager.t) (privateKey : string) (s : Runtime.St) :
  match Client.walletOfKey privateKey with
  | None =>
      PolygonWalletManager.setWallet self privateKey s
      = (inl (Errors.PolygonError "Invalid private key" "INVALID_PRIVATE_KEY"), s)
  | Some wallet =>
      exists connected disconnected,
        PolygonWalletManager.setWallet self privateKey s = (inr connected, s) /\
        PolygonWalletManager.getCurrentWallet connected s
        = (inr (Some {| Records.wallet_address := Client.wallet_address wallet;
                        Records.wallet_privateKey := Client.wallet_privateKey wallet;
                        Records.wallet_mnemonic := "";
                        Records.wallet_publicKey := Client.wallet_publicKey wallet;
                        Records.wallet_index := 0 |}), s) /\
        PolygonWalletManager.disconnect connected s = (inr disconnected, s) /\
        PolygonWalletManager.getCurrentWallet disconnected s = (inr None, s) /\
        (forall message,
            PolygonWalletManager.signMessage disconnected message s
            = (inl (Errors.PolygonError_with "Failed to sign message" "SIGNING_FAILED"
                      (Errors.original
                         (Errors.PolygonError "Wallet not initialized"
                                              "WALLET_NOT_INITIALIZED"))), s)) /\
        (forall to value gasLimit gasPrice,
            PolygonWalletManager.sendTransaction disconnected to value gasLimit gasPrice s
            = (inl (Errors.PolygonError "Wallet not initialized"
                                        "WALLET_NOT_INITIALIZED"), s))
  end.
Proof.
  destruct (Client.walletOfKey privateKey) as [wallet|] eqn:Hkey.
  - exists {| PolygonWalletManager.config := PolygonWalletManager.config self;
              PolygonWalletManager.wallet := Some wallet |},
           {| PolygonWalletManager.config := PolygonWalletManager.config self;
              PolygonWalletManager.wallet := None |}.
    repeat split.
    unfold PolygonWalletManager.setWallet, Runtime.try_catch, Runtime.bind,
      Utils.validatePrivateKey, Client.new_Wallet.
    rewrite Hkey. reflexivity.
  - unfold PolygonWalletManager.setWallet, Runtime.try_catch, Runtime.bind,
      Utils.validatePrivateKey.
    rewrite Hkey. reflexivity.
Qed.

(** ** Transactions and gas of the contract manager *)

(** X26.  For a transaction that the node does not know,
    [getTransaction] returns [null] after this one request: it does not
    ask for a receipt. *)
Theorem getTransaction_unknown {env : Environment} {chain : Client.Chain}
        (self : PolygonContractManager.t) (txHash : string)
        (s : Runtime.St) (w' : World) :
  Client.request (Client.getTransaction txHash) (Runtime.world s) = (inr None, w') ->
  PolygonContractManager.getTransaction self txHash s
  = (inr None,
     {| Runtime.world := w';
        Runtime.trace := Runtime.trace s ++ [EvClient "provider.getTransaction"] |}).
Proof.
  intros H. unfold PolygonContractManager.getTransaction, Runtime.try_catch, Runtime.bind.
  rewrite call_run, H. reflexivity.
Qed.

Lemma getTransaction_unknown_witness :
  @PolygonContractManager.getTransaction Examples.clock Examples.fresh
    {| PolygonContractManager.config := Examples.read_only;
       PolygonContractManager.signer := None |}
    "0x5c504ed432cb51138bcf09aa5e8a410dd4a1e204ef84bfed1be16dfba1b22060" Examples.start
  = (inr None,
     @Runtime.mkSt Examples.clock 0
       (Runtime.trace Examples.start ++ [EvClient "provider.getTransaction"])).
Proof.
  apply (@getTransaction_unknown Examples.clock Examples.fresh _
           "0x5c504ed432cb51138bcf09aa5e8a410dd4a1e204ef84bfed1be16dfba1b22060"
           Examples.start 0).
  reflexivity.
Defined.

(** X27.  [deployContract] never deploys a contract and never makes a
    request.  Without a signer it fails with the code SIGNER_REQUIRED.
    With a signer, the function it hands to [retry] throws in each of
    its three tries, before the estimate of the gas and before the
    deployment: [getDeployTransaction] returns a transaction request, no
    promise, so [.then] on it is no function.  The call waits 1000 and
    then 2000 ms and fails with the [TypeError] of
    [new PolygonNetworkError(..)]; it fails with it at once when the
    factory refuses the ABI or the bytecode. *)
Theorem deployContract_never_deploys {env : Environment} {chain : Client.Chain}
        (self : PolygonContractManager.t) (bytecode : string) (abi : Client.Abi)
        (constructorArgs : list string) (gasLimit : option Z) (s : Runtime.St) :
  PolygonContractManager.deployContract self bytecode abi constructorArgs gasLimit s
  = match PolygonContractManager.signer self with
    | None =>
        (inl (Errors.PolygonError "Signer required for contract deployment"
                                  "SIGNER_REQUIRED"), s)
    | Some _ =>
        (inl (Errors.not_a_constructor "PolygonNetworkError"),
         if Client.isAbi abi && Client.isBytecode bytecode
         then {| Runtime.world := elapse 2000 (elapse 1000 (Runtime.world s));
                 Runtime.trace := Runtime.trace s ++ [EvTimer 1000; EvTimer 2000] |}
         else s)
    end.
Proof.
  unfold PolygonContractManager.deployContract, Runtime.try_catch.
  destruct (PolygonContractManager.signer self) as [signer|]; [|reflexivity].
  unfold Runtime.bind at 1. unfold Client.new_ContractFactory.
  destruct (Client.isAbi abi && Client.isBytecode bytecode); [|reflexivity].
  unfold Runtime.ret at 1. unfold Runtime.bind at 1.
  match goal with
  | |- context [Utils.retry ?f 3 1000] =>
      assert (F : forall s0, exists e, f s0 = (inl e, s0)
                                       /\ Errors.instanceof_PolygonError e = false)
  end.
  { intros s0. unfold Runtime.bind, Client.getDeployTransaction,
      Client.then_on_object.
    destruct (Client.deployData _ constructorArgs);
      eexists; split; reflexivity. }
  destruct (F s) as (e1 & F1 & _).
  destruct (F (Runtime.setTimeout 1000 s)) as (e2 & F2 & _).
  destruct (F (Runtime.setTimeout 2000 (Runtime.setTimeout 1000 s))) as (e3 & F3 & H3).
  erewrite retry_three_failures; [| exact F1 | exact F2 | exact F3].
  rewrite H3. unfold Runtime.setTimeout. cbn [Runtime.world Runtime.trace].
  rewrite <- app_assoc. reflexivity.
Qed.

(** ** [debounce] and [throttle] *)

Section ScheduleFacts.
Import EventLoop Utils Schedule.
Variable Args : Type.

(** Where an element of [l ++ [x]] lies. *)
Lemma snoc_split {T} (l pre post : list T) (x y : T) :
  l ++ [x] = pre ++ y :: post ->
  (post = [] /\ pre = l /\ y = x) \/
  (exists post', post = post' ++ [x] /\ l = pre ++ y :: post').
Proof.
  intros H. destruct post as [|z post] using rev_ind.
  - left. apply app_inj_tail in H as [-> ->]. auto.
  - clear IHpost. right. exists post.
    change (pre ++ y :: post ++ [z]) with (pre ++ (y :: post) ++ [z]) in H.
    rewrite app_assoc in H. apply app_inj_tail in H as [-> ->]. auto.
Qed.

Lemma FOP_snoc {T} (R : T -> T -> Prop) l x :
  ForallOrdPairs R l -> Forall (fun y => R y x) l -> ForallOrdPairs R (l ++ [x]).
Proof.
  induction 1 as [|a l Ha Hl IH]; intros Hx; cbn.
  - constructor; constructor.
  - inversion Hx as [|? ? Hax Hlx]; subst. constructor.
    + apply Forall_app. split; [exact Ha | constructor; [exact Hax | constructor]].
    + apply IH. exact Hlx.
Qed.

Lemma observed_invocations_app (tr1 tr2 : list (Observed Args)) :
  invocations (tr1 ++ tr2) = invocations tr1 ++ invocations tr2.
Proof. unfold invocations. apply flat_map_app. Qed.

Lemma observed_calls_app (tr1 tr2 : list (Observed Args)) :
  calls (tr1 ++ tr2) = calls tr1 ++ calls tr2.
Proof. unfold calls. apply flat_map_app. Qed.

Section DebounceFacts.
Variable wait : Z.

Lemma debounce_invariant (tr : list (Observed Args)) (st : Debounced Args) :
  debounce_run wait tr st ->
  settled_calls wait tr /\
  (pending (debounce_loop st) = [] /\
   (List.length (invocations tr) <= List.length (calls tr))%nat \/
   (List.length (invocations tr) < List.length (calls tr))%nat /\
   exists pre t0 args h,
     tr = pre ++ [Called t0 args] /\
     pending (debounce_loop st)
     = [{| handle := h; due := t0 + wait; callback := args |}] /\
     timeout st = Some h).
Proof.
  induction 1 as [t0 | tr st t Hrun [Hgood Hpend] Ht
                  | tr st args Hrun [Hgood Hpend]
                  | tr st timer Hrun [Hgood Hpend] Hin Hdue].
  - split; [|left; split; [reflexivity | cbn; lia]].
    intros pre t args post H. destruct pre; discriminate H.
  - split; [exact Hgood | exact Hpend].
  - split.
    + intros pre t a post H. apply snoc_split in H as [(_ & _ & H) | (post' & _ & H)].
      * discriminate H.
      * eapply Hgood. exact H.
    + right. split.
      { rewrite observed_invocations_app, observed_calls_app, !length_app. cbn.
        destruct Hpend as [[_ Hle] | [Hlt _]]; lia. }
      exists tr, (time (debounce_loop st)), args, (next_handle (debounce_loop st)).
      split; [reflexivity|].
      unfold debounced.
      assert (Hcleared : pending (clearTimeout (timeout st) (debounce_loop st)) = []).
      { destruct Hpend as [[Hnone _] | (_ & pre & t0 & a & h & _ & Hone & Hh)].
        - unfold clearTimeout. destruct (timeout st); [|exact Hnone].
          cbn. rewrite Hnone. reflexivity.
        - rewrite Hh. cbn. rewrite Hone. cbn. rewrite Nat.eqb_refl. reflexivity. }
      destruct (timeout st); cbn in *; rewrite Hcleared; auto.
  - destruct Hpend as [[Hnone _] | (Hlt & pre & t0 & a & h & Htr & Hone & Hh)].
    { rewrite Hnone in Hin. contradiction. }
    rewrite Hone in Hin. destruct Hin as [<- | []]. cbn [due callback handle] in *.
    split.
    + intros pre2 t a2 post H.
      apply snoc_split in H as [(_ & -> & H) | (post' & _ & H)].
      * injection H as -> ->. exists pre, t0. auto.
      * eapply Hgood. exact H.
    + left. split.
      * cbn. rewrite Hone. cbn. rewrite Nat.eqb_refl. reflexivity.
      * rewrite observed_invocations_app, observed_calls_app, !length_app. cbn. lia.
Qed.
End DebounceFacts.

Section ThrottleFacts.
Variable limit : Z.
Hypothesis limit_nonneg : 0 <= limit.

Lemma observed_app (tr1 tr2 : list (Step Args)) :
  observed (tr1 ++ tr2) = observed tr1 ++ observed tr2.
Proof. unfold observed. apply flat_map_app. Qed.

Lemma well_behaved_prefix (tr l : list (Step Args)) :
  well_behaved (tr ++ l) = true -> well_behaved tr = true.
Proof.
  induction tr as [|x tr IH]; intros H; [reflexivity|].
  cbn [app well_behaved] in *.
  destruct x as [[t a | t a] | t c]; auto.
  apply andb_true_iff in H as [Hnext Hrest]. apply andb_true_iff. split; [|auto].
  destruct tr as [|y tr]; [reflexivity | exact Hnext].
Qed.

(** What follows a call of [func] in a run in which it behaves. *)
Lemma well_behaved_next (pre : list (Step Args)) t a x l :
  well_behaved (pre ++ seen (Invoked t a) :: x :: l) = true ->
  exists t', x = ended Args t' returned.
Proof.
  induction pre as [|y pre IH]; cbn [app well_behaved]; intros H.
  - apply andb_true_iff in H as [Hnext _]. cbn in Hnext.
    destruct x as [ev | t' [|]]; try discriminate. eauto.
  - destruct y as [[? ? | ? ?] | ? ?]; auto.
    apply andb_true_iff in H as [_ H]. auto.
Qed.

(** Before the first call the throttle is open and [func] is not running. *)
Lemma throttle_starts_open (st : Throttled) (depth : nat) :
  throttle_run limit (@nil (Step Args)) st depth ->
  inThrottle st = false /\ depth = O.
Proof.
  intros Hrun. remember (@nil (Step Args)) as tr eqn:Htr.
  induction Hrun; try (destruct tr; discriminate Htr); auto.
Qed.

(** What holds of every run, whatever [func] does. *)
Lemma throttle_calls (tr : list (Step Args)) (st : Throttled) (depth : nat) :
  throttle_run limit tr st depth ->
  synchronous (observed tr) /\
  (tr = [] \/
   exists t args rest, tr = seen (Called t args) :: seen (Invoked t args) :: rest).
Proof.
  induction 1 as [t0 | tr st depth t Hrun [Hsync Hfirst] Ht
                  | tr st depth args Hrun [Hsync Hfirst] Hclosed
                  | tr st depth args Hrun [Hsync Hfirst] Hopen
                  | tr st depth c Hrun [Hsync Hfirst]
                  | tr st timer Hrun [Hsync Hfirst] Hin Hdue].
  - split; [|left; reflexivity].
    intros pre t args post H. destruct pre; discriminate H.
  - split; assumption.
  - split.
    + rewrite observed_app. cbn.
      intros pre t a post H. apply snoc_split in H as [(_ & _ & H) | (post' & _ & H)];
        [discriminate H | eapply Hsync; exact H].
    + right. destruct Hfirst as [-> | (t & a & rest & ->)].
      * apply throttle_starts_open in Hrun as [Hfalse _].
        unfold throttled_calls in Hclosed. rewrite Hfalse in Hclosed.
        discriminate Hclosed.
      * eexists _, _, _. cbn. reflexivity.
  - split.
    + rewrite observed_app. cbn.
      set (now := time (throttle_loop st)).
      replace (observed tr ++ [Called now args; Invoked now args])
        with ((observed tr ++ [Called now args]) ++ [Invoked now args])
        by (rewrite <- app_assoc; reflexivity).
      intros pre t a post H. apply snoc_split in H as [(_ & -> & H) | (post' & _ & H)].
      * injection H as -> ->. exists (observed tr). reflexivity.
      * apply snoc_split in H as [(_ & _ & H) | (post'' & _ & H)];
          [discriminate H | eapply Hsync; exact H].
    + right. destruct Hfirst as [-> | (t & a & rest & ->)].
      * eexists _, _, _. cbn. reflexivity.
      * eexists _, _, _. cbn. reflexivity.
  - split.
    + rewrite observed_app. cbn. rewrite app_nil_r. exact Hsync.
    + right. destruct Hfirst as [-> | (t & a & rest & ->)].
      * apply throttle_starts_open in Hrun as [_ Hdepth]. discriminate Hdepth.
      * eexists _, _, _. cbn. reflexivity.
  - split; assumption.
Qed.

(** What holds of the runs in which [func] behaves. *)
Lemma throttle_invariant (tr : list (Step Args)) (st : Throttled) (depth : nat) :
  throttle_run limit tr st depth ->
  well_behaved tr = true ->
  ForallOrdPairs (fun t1 t2 => t1 + limit <= t2) (invocations (observed tr)) /\
  match depth with
  | O =>
      if inThrottle st
      then exists last h,
          pending (throttle_loop st) = [{| handle := h; due := last + limit;
                                           callback := tt |}] /\
          Forall (fun t => t <= last) (invocations (observed tr))
      else pending (throttle_loop st) = [] /\
           Forall (fun t => t + limit <= time (throttle_loop st))
                  (invocations (observed tr))
  | S O =>
      inThrottle st = false /\ pending (throttle_loop st) = [] /\
      exists pre t args,
        tr = pre ++ [seen (Invoked t args)] /\ t <= time (throttle_loop st) /\
        Forall (fun t' => t' + limit <= t) (invocations (observed pre))
  | S (S _) => False
  end.
Proof.
  induction 1 as [t0 | tr st depth t Hrun IH Ht
                  | tr st depth args Hrun IH Hclosed
                  | tr st depth args Hrun IH Hopen
                  | tr st depth c Hrun IH
                  | tr st timer Hrun IH Hin Hdue]; intros Hgood.
  - split; constructor; constructor.
  - destruct (IH Hgood) as [Hgap Hstate]. split; [exact Hgap|].
    unfold moved. cbn [inThrottle throttle_loop advance pending time].
    destruct depth as [|[|depth]]; [| |exact Hstate].
    + destruct (inThrottle st); [exact Hstate|].
      destruct Hstate as [Hnone Hall]. split; [exact Hnone|].
      eapply Forall_impl; [|exact Hall]. cbn. intros. lia.
    + destruct Hstate as (Hopen & Hnone & pre & t1 & a & Htr & Hle & Hall).
      split; [exact Hopen|]. split; [exact Hnone|].
      exists pre, t1, a. split; [exact Htr|]. split; [lia | exact Hall].
  - destruct (IH (well_behaved_prefix _ _ Hgood)) as [Hgap Hstate].
    unfold throttled_calls in Hclosed. apply negb_false_iff in Hclosed.
    rewrite observed_app, observed_invocations_app. cbn. rewrite app_nil_r.
    split; [exact Hgap|].
    destruct depth as [|[|depth]]; [| |exact Hstate].
    + rewrite Hclosed in *. exact Hstate.
    + destruct Hstate as (Hopen & _). rewrite Hopen in Hclosed. discriminate Hclosed.
  - destruct (IH (well_behaved_prefix _ _ Hgood)) as [Hgap Hstate].
    unfold throttled_calls in Hopen. apply negb_true_iff in Hopen.
    set (now := time (throttle_loop st)) in *.
    destruct depth as [|[|depth]]; [| |destruct Hstate].
    + rewrite Hopen in Hstate. destruct Hstate as [Hnone Hall].
      assert (Hinv : invocations (observed (tr ++ [seen (Called now args);
                                                   seen (Invoked now args)]))
                     = invocations (observed tr) ++ [now]).
      { rewrite observed_app, observed_invocations_app. reflexivity. }
      rewrite Hinv. split; [apply FOP_snoc; assumption|].
      split; [exact Hopen|]. split; [exact Hnone|].
      exists (tr ++ [seen (Called now args)]), now, args.
      split; [rewrite <- app_assoc; reflexivity|]. split; [lia|].
      rewrite observed_app, observed_invocations_app. cbn. rewrite app_nil_r.
      exact Hall.
    + exfalso. destruct Hstate as (_ & _ & pre & t1 & a & Htr & _).
      rewrite Htr, <- app_assoc in Hgood. cbn [app] in Hgood.
      apply well_behaved_next in Hgood as [t' Hx]. discriminate Hx.
  - destruct (IH (well_behaved_prefix _ _ Hgood)) as [Hgap Hstate].
    rewrite observed_app, observed_invocations_app. cbn. rewrite app_nil_r.
    split; [exact Hgap|].
    destruct depth as [|depth]; [|destruct Hstate].
    destruct Hstate as (Hopen & Hnone & pre & t1 & a & Htr & Hle & Hall).
    assert (Hc : c = returned).
    { rewrite Htr, <- app_assoc in Hgood. cbn [app] in Hgood.
      apply well_behaved_next in Hgood as [t' Hx]. injection Hx as _ ->. reflexivity. }
    subst c. cbn [throttled_after inThrottle throttle_loop setTimeout snd pending].
    exists (time (throttle_loop st)), (next_handle (throttle_loop st)).
    rewrite Hnone. split; [reflexivity|].
    rewrite Htr, observed_app, observed_invocations_app. cbn.
    apply Forall_app. split; [|constructor; [lia | constructor]].
    eapply Forall_impl; [|exact Hall]. cbn. intros. lia.
  - destruct (IH Hgood) as [Hgap Hstate]. split; [exact Hgap|].
    destruct (inThrottle st) eqn:Hthr.
    + destruct Hstate as (last & h & Hone & Hall).
      rewrite Hone in Hin. destruct Hin as [<- | []]. cbn [due handle] in *.
      unfold released, release. cbn [inThrottle throttle_loop without pending time].
      rewrite Hone. cbn. rewrite Nat.eqb_refl. split; [reflexivity|].
      eapply Forall_impl; [|exact Hall]. cbn. intros. lia.
    + destruct Hstate as [Hnone _]. rewrite Hnone in Hin. contradiction.
Qed.
End ThrottleFacts.
End ScheduleFacts.

(** X28.  In every run of a debounced function, [func] is only called
    by a timer, with the arguments of the call of the closure that comes
    right before it in the run and [wait] ms after that call at least:
    a call that is followed by another one before its timer has run
    never reaches [func].  So [func] is called at most as often as the
    closure, and one timer at most is pending. *)
Theorem debounce_runs_latest_call (Args : Type) (wait : Z)
        (tr : list (Schedule.Observed Args)) (st : Utils.Debounced Args) :
  Schedule.debounce_run wait tr st ->
  Schedule.settled_calls wait tr /\
  (List.length (Schedule.invocations tr) <= List.length (Schedule.calls tr))%nat /\
  (List.length (EventLoop.pending (Utils.debounce_loop st)) <= 1)%nat.
Proof.
  intros Hrun. destruct (debounce_invariant Hrun) as [Hgood Hpend].
  split; [exact Hgood|].
  destruct Hpend as [[-> Hle] | (Hlt & pre & t0 & a & h & _ & -> & _)]; cbn; lia.
Qed.

(** X29.  In every run of a throttled function, [func] is called
    within the call of the closure, with its arguments, and the first
    call of the closure does call [func].  In the runs in which [func]
    returns before the closure is called again (it neither throws nor
    calls the closure itself), two calls of [func] are [limit] ms apart
    at least, for [limit >= 0]: a call that comes in while the throttle
    is closed is dropped.  Without that nothing keeps the calls apart:
    the closure sets [inThrottle] after [func] has returned, so when
    [func] throws the throttle stays open and the next call, at the
    same time, calls [func] again. *)
Theorem throttle_spacing (Args : Type) (limit : Z)
        (tr : list (Schedule.Step Args)) (st : Utils.Throttled) (depth : nat) :
  0 <= limit ->
  Schedule.throttle_run limit tr st depth ->
  Schedule.synchronous (Schedule.observed tr) /\
  (tr = [] \/
   exists t args rest,
     tr = Schedule.seen (Schedule.Called t args)
          :: Schedule.seen (Schedule.Invoked t args) :: rest) /\
  (Schedule.well_behaved tr = true ->
   ForallOrdPairs (fun t1 t2 => t1 + limit <= t2)
                  (Schedule.invocations (Schedule.observed tr))) /\
  (forall t0 a b,
      Schedule.throttle_run limit
        [Schedule.seen (Schedule.Called t0 a); Schedule.seen (Schedule.Invoked t0 a);
         Schedule.ended Args t0 Utils.threw;
         Schedule.seen (Schedule.Called t0 b); Schedule.seen (Schedule.Invoked t0 b)]
        (Utils.throttle t0) 1%nat).
Proof.
  intros Hlimit Hrun.
  destruct (throttle_calls Hrun) as [Hsync Hfirst].
  split; [exact Hsync|]. split; [exact Hfirst|]. split.
  - intros Hgood. destruct (throttle_invariant Hlimit Hrun Hgood) as [Hgap _].
    exact Hgap.
  - intros t0 a b.
    pose proof (Schedule.throttle_created Args limit t0) as r0.
    pose proof (Schedule.throttle_enters a r0 eq_refl) as r1.
    pose proof (Schedule.throttle_leaves Utils.threw r1) as r2.
    exact (Schedule.throttle_enters b r2 eq_refl).
Qed.

Lemma debounce_runs_latest_call_witness :
  Schedule.settled_calls 100
    [Schedule.Called 0 "a"; Schedule.Called 40 "b"; Schedule.Invoked 140 "b"] /\
  (List.length (Schedule.invocations
                  [Schedule.Called 0 "a"; Schedule.Called 40 "b";
                   Schedule.Invoked 140 "b"])
   <= List.length (Schedule.calls
                     [Schedule.Called 0 "a"; Schedule.Called 40 "b";
                      Schedule.Invoked 140 "b"]))%nat /\
  (List.length
     (EventLoop.pending
        (Utils.debounce_loop
           (@Utils.Build_Debounced string (Some 1%nat)
              (@EventLoop.Build_Loop string 140 [] 2%nat)))) <= 1)%nat.
Proof.
  pose (r0 := Schedule.debounce_created string 100 0).
  pose (r1 := Schedule.debounce_called "a" r0).
  pose (r2 := @Schedule.debounce_waits string 100 _ _ 40 r1 ltac:(cbn; lia)).
  pose (r3 := Schedule.debounce_called "b" r2).
  pose (r4 := @Schedule.debounce_waits string 100 _ _ 140 r3 ltac:(cbn; lia)).
  pose (r5 := @Schedule.debounce_fires string 100 _ _
                {| EventLoop.handle := 1; EventLoop.due := 140;
                   EventLoop.callback := "b" |}
                r4 ltac:(cbn; auto) ltac:(cbn; lia)).
  exact (debounce_runs_latest_call r5).
Defined.

Lemma throttle_spacing_witness :
  0 <= 100 /\
  Schedule.well_behaved
    [Schedule.seen (Schedule.Called 0 "a"); Schedule.seen (Schedule.Invoked 0 "a");
     Schedule.ended string 0 Utils.returned;
     Schedule.seen (Schedule.Called 40 "b");
     Schedule.seen (Schedule.Called 120 "c"); Schedule.seen (Schedule.Invoked 120 "c");
     Schedule.ended string 125 Utils.returned] = true /\
  ForallOrdPairs (fun t1 t2 => t1 + 100 <= t2)
    (Schedule.invocations
       (Schedule.observed
          [Schedule.seen (Schedule.Called 0 "a"); Schedule.seen (Schedule.Invoked 0 "a");
           Schedule.ended string 0 Utils.returned;
           Schedule.seen (Schedule.Called 40 "b");
           Schedule.seen (Schedule.Called 120 "c");
           Schedule.seen (Schedule.Invoked 120 "c");
           Schedule.ended string 125 Utils.returned])).
Proof.
  pose (r0 := Schedule.throttle_created string 100 0).
  pose (r1 := Schedule.throttle_enters "a" r0 eq_refl).
  pose (r2 := Schedule.throttle_leaves Utils.returned r1).
  pose (r3 := @Schedule.throttle_waits string 100 _ _ _ 40 r2 ltac:(cbn; lia)).
  pose (r4 := Schedule.throttle_dropped "b" r3 eq_refl).
  pose (r5 := @Schedule.throttle_waits string 100 _ _ _ 120 r4 ltac:(cbn; lia)).
  pose (r6 := @Schedule.throttle_fires string 100 _ _
                {| EventLoop.handle := 0; EventLoop.due := 100;
                   EventLoop.callback := tt |}
                r5 ltac:(cbn; auto) ltac:(cbn; lia)).
  pose (r7 := Schedule.throttle_enters "c" r6 eq_refl).
  pose (r8 := @Schedule.throttle_waits string 100 _ _ _ 125 r7 ltac:(cbn; lia)).
  pose (r9 := Schedule.throttle_leaves Utils.returned r8).
  split; [lia|]. split; [reflexivity|].
  exact (proj1 (proj2 (proj2 (@throttle_spacing string 100 _ _ _ ltac:(lia) r9)))
           eq_refl).
Defined.

(** ** Block numbers *)

Section BlockNumberFacts.
Import Str Utils.

Lemma decimal_digit c :
  Ethers.is_digit c = true ->
  c = "0"%char \/ (Ascii.eqb c "0" = false /\ 1 <= Ethers.digit_value c <= 9).
Proof.
  destruct c as [[] [] [] [] [] [] [] []]; vm_compute; intros H;
    first [discriminate H | left; reflexivity
          | right; repeat split; intros; discriminate].
Qed.

Lemma leading_decimal l :
  forallb Ethers.is_digit (leading 10 l) = true.
Proof.
  induction l as [|c l IH]; [reflexivity|].
  cbn [leading]. destruct (digit_in 10 c) eqn:Hc; [|reflexivity].
  cbn [forallb]. rewrite IH, andb_true_r.
  revert Hc. clear. destruct c as [[] [] [] [] [] [] [] []]; vm_compute;
    intros H; first [reflexivity | discriminate H].
Qed.

Lemma leading_length radix l : (List.length (leading radix l) <= List.length l)%nat.
Proof.
  induction l as [|c l IH]; [reflexivity|].
  cbn [leading]. destruct (digit_in radix c); cbn [List.length]; lia.
Qed.

Lemma value_of_bound l :
  forallb Ethers.is_digit l = true ->
  0 <= Ethers.value_of l < 10 ^ Z.of_nat (List.length l).
Proof.
  induction l as [|d l IH] using rev_ind; intros H.
  - cbn. lia.
  - rewrite forallb_app in H. apply andb_prop in H as [Hl Hd].
    cbn [forallb] in Hd. rewrite andb_true_r in Hd.
    rewrite value_of_app, length_app, Nat2Z.inj_add, Z.pow_add_r by lia.
    specialize (IH Hl). cbn [List.length]. change (10 ^ Z.of_nat 1) with 10.
    assert (0 <= Ethers.value_of [d] <= 9).
    { unfold Ethers.value_of. cbn [fold_left].
      destruct (decimal_digit d Hd) as [-> | [_ Hv]]; [cbn; lia | lia]. }
    nia.
Qed.

Lemma leading_cons c l :
  Ethers.is_digit c = true -> leading 10 (c :: l) = c :: leading 10 l.
Proof.
  intros Hc. cbn [leading].
  destruct (digit_char c Hc) as (_ & _ & _ & _ & _ & _ & ->). reflexivity.
Qed.

Lemma not_hex_prefix x :
  x <> "x"%char -> x <> "X"%char -> Ascii.eqb (lower x) "x" = false.
Proof.
  intros H1 H2. destruct (Ascii.eqb (lower x) "x") eqn:H; [|reflexivity].
  apply Ascii.eqb_eq in H. apply lower_x in H as [H | H]; contradiction.
Qed.

Lemma finite_below : 10 ^ 308 < 2 ^ 1024 - 2 ^ 970.
Proof. vm_compute. reflexivity. Qed.

(** What [parseInt] reads from a text that starts with a decimal digit
    and not with the prefix of radix 16. *)
Lemma parseInt_decimal (negative : bool) d l :
  Ethers.is_digit d = true ->
  (d = "0"%char -> forall x r, l = x :: r -> x <> "x"%char /\ x <> "X"%char) ->
  (List.length l < 308)%nat ->
  let value := Ethers.value_of (d :: leading 10 l) in
  numeral 10 (leading 10 (d :: l)) = Some value /\ 0 <= value < 2 ^ 1024 - 2 ^ 970 /\
  (Ascii.eqb d "0" = false -> 1 <= value) /\
  match d :: l with
  | z :: x :: r =>
      if Ascii.eqb z "0" && Ascii.eqb (lower x) "x" then (16, r) else (10, d :: l)
  | _ => (10, d :: l)
  end = (10, d :: l).
Proof.
  intros Hd Hprefix Hlen value.
  assert (Hall : forallb Ethers.is_digit (d :: leading 10 l) = true).
  { cbn [forallb]. rewrite Hd, leading_decimal. reflexivity. }
  pose proof (value_of_bound _ Hall) as Hbound. fold value in Hbound.
  repeat split.
  - rewrite leading_cons by exact Hd. apply numeral_decimal; [discriminate | exact Hall].
  - lia.
  - eapply Z.lt_trans; [|exact finite_below].
    eapply Z.lt_le_trans; [apply Hbound|].
    apply Z.pow_le_mono_r; [lia|].
    pose proof (leading_length 10 l). cbn [List.length]. lia.
  - intros Hnz. unfold value.
    change (d :: leading 10 l) with ([d] ++ leading 10 l).
    rewrite value_of_app.
    pose proof (value_of_bound _ (leading_decimal l)).
    assert (1 <= Ethers.value_of [d]).
    { unfold Ethers.value_of. cbn [fold_left].
      destruct (decimal_digit d Hd) as [-> | [_ Hv]]; [discriminate Hnz | lia]. }
    assert (0 < 10 ^ Z.of_nat (List.length (leading 10 l)))
      by (apply Z.pow_pos_nonneg; lia).
    nia.
  - destruct l as [|x r]; [reflexivity|].
    destruct (Ascii.eqb d "0") eqn:Hz; [|reflexivity].
    apply Ascii.eqb_eq in Hz.
    destruct (Hprefix Hz x r eq_refl) as [H1 H2].
    rewrite (not_hex_prefix H1 H2). reflexivity.
Qed.

Lemma integer_accepted v : 0 <= v -> isInteger (Real (inject_Z v)) && ge_zero (Real (inject_Z v)) = true.
Proof.
  intros Hv. cbn [isInteger ge_zero]. rewrite Qfloor_Z.
  apply andb_true_intro. split.
  - apply Qeq_bool_iff. reflexivity.
  - apply Qle_bool_iff. unfold Qle. cbn. lia.
Qed.

Lemma negative_rejected v : v < 0 -> ge_zero (Real (inject_Z v)) = false.
Proof.
  intros Hv. cbn [ge_zero]. destruct (Qle_bool 0 (inject_Z v)) eqn:H; [|reflexivity].
  apply Qle_bool_iff in H. unfold Qle in H. cbn in H. lia.
Qed.
End BlockNumberFacts.

(** X30.  [validateBlockNumber] reads a string with [parseInt], which
    stops at the first character that is not a digit: a string of up to
    308 characters that begins with a decimal digit is accepted
    whatever follows the digits ("12abc", "1.5"), unless it begins with
    the prefix [0x]; with a minus sign in front it is rejected when its
    first digit is not 0.  A number is accepted exactly when it is an
    integer that is not negative. *)
Theorem validateBlockNumber_reads_prefix (d : ascii) (rest : string) :
  Str.between 48 57 d = true ->
  Str.len rest < 308 ->
  (d = "0"%char -> forall x r, rest = String x r -> x <> "x"%char /\ x <> "X"%char) ->
  Utils.validateBlockNumber (Utils.text (String d rest)) = true /\
  (d <> "0"%char -> Utils.validateBlockNumber (Utils.text (String "-" (String d rest))) = false) /\
  (forall q, Utils.validateBlockNumber (Utils.number (Utils.Real q)) = true <->
             exists n, 0 <= n /\ (q == inject_Z n)%Q).
Proof.
  intros Hd Hlen Hprefix.
  assert (Hprefix' : d = "0"%char ->
                     forall x r, Str.chars rest = x :: r -> x <> "x"%char /\ x <> "X"%char).
  { intros Hz x r Hrest. destruct rest as [|y rest']; [discriminate Hrest|].
    cbn in Hrest. injection Hrest as -> _. eapply Hprefix; [exact Hz | reflexivity]. }
  assert (Hlen' : (List.length (Str.chars rest) < 308)%nat) by (unfold Str.len in Hlen; lia).
  destruct (digit_char d Hd) as (Hspace & Hminus & Hplus & _).
  split; [|split].
  - unfold Utils.validateBlockNumber, Utils.parseInt.
    change (Str.chars (String d rest)) with (d :: Str.chars rest).
    cbn [Utils.drop_space]. rewrite Hspace, Hminus, Hplus.
    destruct (parseInt_decimal false (l := Str.chars rest) Hd Hprefix' Hlen')
      as (Hnum & Hrange & _ & Hradix).
    rewrite Hradix, Hnum.
    destruct (2 ^ 1024 - 2 ^ 970 <=? _) eqn:Hover; [lia|].
    apply integer_accepted. lia.
  - intros Hnz. unfold Utils.validateBlockNumber, Utils.parseInt.
    change (Str.chars (String "-" (String d rest))) with ("-"%char :: d :: Str.chars rest).
    cbn [Utils.drop_space]. change (RegExp.space "-"%char) with false.
    cbv iota. change (Ascii.eqb "-" "-") with true. cbv iota.
    destruct (parseInt_decimal true (l := Str.chars rest) Hd Hprefix' Hlen')
      as (Hnum & Hrange & Hpos & Hradix).
    rewrite Hradix, Hnum.
    destruct (2 ^ 1024 - 2 ^ 970 <=? _) eqn:Hover; [lia|].
    rewrite negative_rejected; [apply andb_false_r|].
    assert (Ascii.eqb d "0" = false).
    { destruct (Ascii.eqb d "0") eqn:H; [|reflexivity].
      apply Ascii.eqb_eq in H. contradiction. }
    specialize (Hpos H). lia.
  - intros q. unfold Utils.validateBlockNumber. cbn [Utils.isInteger Utils.ge_zero].
    rewrite andb_true_iff, Qeq_bool_iff, Qle_bool_iff. split.
    + intros [Hint Hnonneg]. exists (Qfloor q). split; [|exact Hint].
      change 0 with (Qfloor (inject_Z 0)). apply Qfloor_resp_le. exact Hnonneg.
    + intros (n & Hn & Hq). split.
      * rewrite (Qfloor_comp _ _ Hq), Qfloor_Z. exact Hq.
      * rewrite Hq. unfold Qle. cbn. lia.
Qed.

Lemma validateBlockNumber_reads_prefix_witness :
  Utils.validateBlockNumber (Utils.text "12abc") = true /\
  ("1"%char <> "0"%char -> Utils.validateBlockNumber (Utils.text "-12abc") = false) /\
  (forall q, Utils.validateBlockNumber (Utils.number (Utils.Real q)) = true <->
             exists n, 0 <= n /\ (q == inject_Z n)%Q).
Proof.
  apply (@validateBlockNumber_reads_prefix "1" "2abc").
  - reflexivity.
  - vm_compute. reflexivity.
  - intros H. discriminate H.
Defined.

(** ** Contract detection *)

(** The helper [isContractAddress] and the method [isContract] of the
    contract manager give the same answer from the same request; they
    differ in the error: the helper passes on the error of the library,
    the method ends in the [TypeError] of [new PolygonNetworkError(..)]. *)
Lemma isContractAddress_agrees {env : Environment} {chain : Client.Chain}
      (self : PolygonContractManager.t) (address : string) (s : Runtime.St) :
  match Utils.isContractAddress address s with
  | (inr answer, s') =>
      PolygonContractManager.isContract self address s = (inr answer, s')
  | (inl error, s') =>
      PolygonContractManager.isContract self address s
      = (inl (Errors.not_a_constructor "PolygonNetworkError"), s')
  end.
Proof.
  unfold Utils.isContractAddress, PolygonContractManager.isContract,
    PolygonContractManager.getContractCode, Runtime.try_catch, Runtime.bind.
  rewrite call_run.
  destruct (fst (Client.request (Client.getCode address) (Runtime.world s)));
    reflexivity.
Qed.
